(** * jsonplotter: the filter chain and the JSON sample store

    A shallow embedding of [filters.py], [JsonParser.py] and of the two
    methods of [plotter.py] that drive the filters
    ([ParametersPopup.setParam], [FiltersModel.apply]).

    Conventions of the embedding.
    - Python objects are a class tag and an instance dictionary
      ([gmap string value]); [hasattr], [getattr], [setattr] act on it.
    - Exceptions and printed output are threaded by the monad [M]: a
      computation yields the events it emitted and either a value or the
      exception that escaped.
    - A Python float is an IEEE 754 double: a finite one is the rational
      it denotes, in lowest terms, and the two infinities and NaN are
      values of their own.  The arithmetic rounds to nearest, ties to even,
      overflows to an infinity and underflows gradually ([rnd]).  The two
      zeros are one value: they compare equal and no function of the model
      tells them apart.
    - Interpreter and library functions whose text is not part of the
      repository ([json.loads], [int], [float] on strings, [open], the
      attribute names every object inherits, the order in which [np.mean]
      adds up its argument) are parameters of the sections that use them;
      [Module Py] gives reference implementations on a documented
      fragment, used to run the code on concrete inputs. *)

From Stdlib Require Import ZArith QArith Qround Qpower Lia Lqa List Permutation Ascii String.
From stdpp Require Import base gmap strings list pretty.

Local Open Scope Z_scope.
Local Set Warnings "-register-all".

(** ** Floats *)

Inductive pyfloat : Type :=
| Fin (q : Q)
| NaN
| PInf
| NInf.

Definition is_nan (x : pyfloat) : bool :=
  match x with NaN => true | _ => false end.

Definition is_finite (x : pyfloat) : bool :=
  match x with Fin _ => true | _ => false end.

(** *** Rounding to a double *)

(** The position of the leading bit of a positive rational:
    [2 ^ Qlog2 q <= q < 2 ^ (Qlog2 q + 1)]. *)
Definition Qlog2 (q : Q) : Z :=
  let e := Z.log2 (Qnum q) - Z.log2 (Zpos (Qden q)) in
  if Qle_bool (2 ^ e) q then e else e - 1.

(** The nearest integer, the even one of two that are as near. *)
Definition Qrne (x : Q) : Z :=
  let f := Qfloor x in
  match (x - inject_Z f ?= 1 # 2)%Q with
  | Lt => f
  | Gt => f + 1
  | Eq => if Z.even f then f else f + 1
  end.

(** The double nearest to a positive rational: 53 significant bits, the
    last of weight at least [2 ^ -1074]; [None] when it is [2 ^ 1024] or
    more. *)
Definition round_pos (q : Q) : option Q :=
  let k := Z.max (Qlog2 q - 52) (-1074) in
  let v := (inject_Z (Qrne (q / 2 ^ k)) * 2 ^ k)%Q in
  if Qle_bool (2 ^ 1024) v then None else Some (Qred v).

Definition rnd (q : Q) : pyfloat :=
  let q := Qred q in
  match (q ?= 0)%Q with
  | Eq => Fin 0
  | Gt => match round_pos q with Some v => Fin v | None => PInf end
  | Lt => match round_pos (- q) with Some v => Fin (- v) | None => NInf end
  end.

(** An integer that is a double, as a float (a literal, an operand of a
    comparison: Python compares an [int] with a [float] exactly). *)
Definition of_int (z : Z) : pyfloat := Fin (inject_Z z).

(** [float(z)] on an [int]; [None] stands for OverflowError. *)
Definition float_of_Z (z : Z) : option pyfloat :=
  match rnd (inject_Z z) with
  | Fin q => Some (Fin q)
  | _ => None
  end.

(** *** Arithmetic and comparisons *)

Definition fneg (x : pyfloat) : pyfloat :=
  match x with
  | Fin a => Fin (- a)
  | NaN => NaN
  | PInf => NInf
  | NInf => PInf
  end.

Definition fadd (x y : pyfloat) : pyfloat :=
  match x, y with
  | Fin a, Fin b => rnd (a + b)
  | NaN, _ | _, NaN => NaN
  | PInf, NInf | NInf, PInf => NaN
  | PInf, _ | _, PInf => PInf
  | NInf, _ | _, NInf => NInf
  end.

Definition fsub (x y : pyfloat) : pyfloat :=
  match x, y with
  | Fin a, Fin b => rnd (a - b)
  | _, _ => fadd x (fneg y)
  end.

Definition fmul (x y : pyfloat) : pyfloat :=
  match x, y with
  | Fin a, Fin b => rnd (a * b)
  | NaN, _ | _, NaN => NaN
  | Fin a, PInf | PInf, Fin a =>
      match (a ?= 0)%Q with Eq => NaN | Gt => PInf | Lt => NInf end
  | Fin a, NInf | NInf, Fin a =>
      match (a ?= 0)%Q with Eq => NaN | Gt => NInf | Lt => PInf end
  | PInf, PInf | NInf, NInf => PInf
  | PInf, NInf | NInf, PInf => NInf
  end.

(** Division by a non-zero integer that is a double (a length, or the
    literal 2). *)
Definition fdiv_int (x : pyfloat) (n : Z) : pyfloat :=
  match x with
  | Fin a => rnd (a / inject_Z n)
  | NaN => NaN
  | PInf => if 0 <? n then PInf else NInf
  | NInf => if 0 <? n then NInf else PInf
  end.

(** [x < y] on floats: every comparison with NaN is false. *)
Definition flt (x y : pyfloat) : bool :=
  match x, y with
  | Fin a, Fin b => negb (Qle_bool b a)
  | NInf, Fin _ | NInf, PInf | Fin _, PInf => true
  | _, _ => false
  end.

Definition feq (x y : pyfloat) : bool :=
  match x, y with
  | Fin a, Fin b => Qeq_bool a b
  | PInf, PInf | NInf, NInf => true
  | _, _ => false
  end.

(** ** Sequences: [range], slices *)

(** [range(n)]; empty when [n <= 0]. *)
Definition range (n : Z) : list Z := map Z.of_nat (seq 0 (Z.to_nat n)).

(** Normalisation of one bound of a slice over a sequence of length [n]. *)
Definition slice_bound (n i : Z) : Z :=
  if i <? 0 then Z.max (i + n) 0 else Z.min i n.

(** [l[lo:hi]], negative bounds counted from the end. *)
Definition py_slice {A : Type} (l : list A) (lo hi : Z) : list A :=
  let n := Z.of_nat (length l) in
  let a := slice_bound n lo in
  let b := slice_bound n hi in
  take (Z.to_nat (b - a)) (drop (Z.to_nat a) l).

(** ** numpy reductions and the built-in [min] *)

(** Order used by [np.sort]: increasing, NaN last. *)
Definition sort_le (x y : pyfloat) : bool :=
  match x, y with
  | _, NaN => true
  | NaN, _ => false
  | NInf, _ => true
  | _, NInf => false
  | _, PInf => true
  | PInf, _ => false
  | Fin a, Fin b => Qle_bool a b
  end.

Fixpoint sort_insert (x : pyfloat) (l : list pyfloat) : list pyfloat :=
  match l with
  | [] => [x]
  | y :: r => if sort_le x y then x :: y :: r else y :: sort_insert x r
  end.

Definition np_sort (l : list pyfloat) : list pyfloat :=
  foldr sort_insert [] l.

Section Numpy.

(** [np.mean] on a list of floats.  It divides the sum of the elements by
    their number; the order in which it adds them, on which the rounding
    of the sum depends, is numpy's own. *)
Variable np_mean : list pyfloat -> pyfloat.

(** [np.median]: NaN on the empty sequence or when a NaN is present, else
    [np.mean] of the one or two middle elements of the sorted sequence. *)
Definition np_median (l : list pyfloat) : pyfloat :=
  let n := Z.of_nat (length l) in
  if existsb is_nan l then NaN
  else
    let s := np_sort l in
    let k := n / 2 in
    if Z.odd n then np_mean (py_slice s k (k + 1))
    else if n =? 0 then NaN
    else np_mean (py_slice s (k - 1) (k + 1)).

End Numpy.

(** The built-in [min] on a non-empty list: keeps the first element unless
    a later one compares strictly smaller. *)
Definition py_min_from (m : pyfloat) (l : list pyfloat) : pyfloat :=
  fold_left (fun m x => if flt x m then x else m) l m.

Definition py_min (l : list pyfloat) : option pyfloat :=
  match l with
  | [] => None
  | x :: r => Some (py_min_from x r)
  end.


(** ** Values, exceptions, events and the monad *)

(** The type objects [int] and [float], as stored in [userParams]. *)
Inductive ptype : Type := TInt | TFloat.

Inductive value : Type :=
| VNone
| VInt (z : Z)
| VFloat (x : pyfloat)
| VList (l : list pyfloat)
| VDict (d : gmap string ptype).

(** JSON documents as [json.loads] returns them; an object keeps its keys
    in insertion order. *)
Inductive json : Type :=
| JNull
| JBool (b : bool)
| JInt (z : Z)
| JFloat (x : pyfloat)
| JStr (s : string)
| JArr (l : list json)
| JObj (kvs : list (string * json)).

Inductive exn : Type :=
| TypeError
| AttributeError
| ValueError
| ZeroDivisionError
| KeyError
| OverflowError
| UnicodeDecodeError
| IOError (msg : string)
| FileNotFoundError (msg : string).

Inductive event : Type :=
| Print (s : string)
  (** [print(str(v) + "cannot be safely casted to a float")] *)
| PrintCast (v : json)
  (** [AppModel.alert(text)] *)
| Alert (s : string)
  (** the call [open(path)] *)
| Open (path : string).

Inductive result (A : Type) : Type :=
| Ok (a : A)
| Raise (e : exn).
Arguments Ok {A} a.
Arguments Raise {A} e.

Definition M (A : Type) : Type := (list event * result A)%type.

Definition ret {A} (a : A) : M A := ([], Ok a).
Definition raise {A} (e : exn) : M A := ([], Raise e).
Definition emit (ev : event) : M unit := ([ev], Ok tt).

Definition bind {A B} (m : M A) (f : A -> M B) : M B :=
  match m with
  | (w, Ok a) => let '(w', r) := f a in (w ++ w', r)
  | (w, Raise e) => (w, Raise e)
  end.

(** [try: body / except: handler] with a bare [except]. *)
Definition try_except {A} (body : M A) (handler : M A) : M A :=
  match body with
  | (w, Raise _) => let '(w', r) := handler in (w ++ w', r)
  | ok => ok
  end.

Declare Scope py_scope.
Delimit Scope py_scope with py.
Notation "x <- c ;; k" := (bind c (fun x => k))
  (at level 100, c at next level, right associativity) : py_scope.
Notation "c ;;; k" := (bind c (fun _ => k))
  (at level 100, right associativity) : py_scope.
Local Open Scope py_scope.

(** Monadic list comprehension / [for] loop collecting one value per item. *)
Fixpoint mapM {A B} (f : A -> M B) (l : list A) : M (list B) :=
  match l with
  | [] => ret []
  | a :: r => b <- f a ;; bs <- mapM f r ;; ret (b :: bs)
  end.

(** ** Objects *)

Inductive cls : Type :=
| MovingMedian
| MovingAverage
| MedianCentering
| MeanCentering
| MinCentering.

Record obj : Type := { klass : cls; attrs : gmap string value }.

Definition new (c : cls) : obj := {| klass := c; attrs := ∅ |}.

Definition getattr (self : obj) (a : string) : M value :=
  match attrs self !! a with
  | Some v => ret v
  | None => raise AttributeError
  end.

Definition set_field (self : obj) (a : string) (v : value) : obj :=
  {| klass := klass self; attrs := <[a := v]> (attrs self) |}.

(** ** Dynamically typed primitives used by the filters *)

(** The float an operand of a float operation is turned into: [float(z)]
    for an [int]. *)
Definition as_float (v : value) : M pyfloat :=
  match v with
  | VInt z =>
      match float_of_Z z with
      | Some x => ret x
      | None => raise OverflowError
      end
  | VFloat x => ret x
  | _ => raise TypeError
  end.

(** [a * b] on numbers.  With an operand that is not a number the
    expression [a * b / 2] of the constructor ends in a TypeError, raised
    here at the product (the repetition of a list by an integer that
    memory cannot hold is outside the model). *)
Definition py_mul (a b : value) : M value :=
  match a, b with
  | VInt x, VInt y => ret (VInt (x * y))
  | VInt _, VFloat _ | VFloat _, VInt _ | VFloat _, VFloat _ =>
      x <- as_float a ;;
      y <- as_float b ;;
      ret (VFloat (fmul x y))
  | _, _ => raise TypeError
  end.

(** [a / n] for a non-zero integer literal [n]: the quotient of two
    [int] is rounded once, and is an OverflowError when it is no double. *)
Definition py_truediv_lit (a : value) (n : Z) : M value :=
  match a with
  | VInt z =>
      match rnd (inject_Z z / inject_Z n) with
      | Fin q => ret (VFloat (Fin q))
      | _ => raise OverflowError
      end
  | VFloat x => ret (VFloat (fdiv_int x n))
  | _ => raise TypeError
  end.

(** Truncation toward zero, the rounding of [int(x)]. *)
Definition trunc (q : Q) : Z := Z.quot (Qnum q) (Zpos (Qden q)).

(** [int(v)] on a number; [int(nan)] and [int(inf)] raise. *)
Definition py_int (v : value) : M value :=
  match v with
  | VInt z => ret (VInt z)
  | VFloat (Fin q) => ret (VInt (trunc q))
  | VFloat NaN => raise ValueError
  | VFloat _ => raise OverflowError
  | _ => raise TypeError
  end.

Definition py_len (v : value) : M Z :=
  match v with
  | VList l => ret (Z.of_nat (length l))
  | VDict d => ret (Z.of_nat (size d))
  | _ => raise TypeError
  end.

(** [n < v] and [v > n] for an integer [n]. *)
Definition py_int_lt (n : Z) (v : value) : M bool :=
  match v with
  | VInt w => ret (n <? w)
  | VFloat x => ret (flt (of_int n) x)
  | _ => raise TypeError
  end.

Definition py_gt_int (v : value) (n : Z) : M bool :=
  match v with
  | VInt w => ret (n <? w)
  | VFloat x => ret (flt (of_int n) x)
  | _ => raise TypeError
  end.

(** [v == n] for an integer [n]; never raises. *)
Definition py_eq_int (v : value) (n : Z) : bool :=
  match v with
  | VInt w => w =? n
  | VFloat x => feq x (of_int n)
  | _ => false
  end.

(** An operand that must be an [int] (argument of [range], slice bound). *)
Definition py_index (v : value) : M Z :=
  match v with
  | VInt w => ret w
  | _ => raise TypeError
  end.

(** A value that is sliced and handed to numpy: only lists qualify. *)
Definition py_seq (v : value) : M (list pyfloat) :=
  match v with
  | VList l => ret l
  | _ => raise TypeError
  end.

(** Truth value of [if v:]. *)
Definition truthy (v : value) : bool :=
  match v with
  | VNone => false
  | VInt z => negb (z =? 0)
  | VFloat x => negb (feq x (of_int 0))
  | VList l => negb (Nat.eqb (length l) 0)
  | VDict d => negb (Nat.eqb (size d) 0)
  end.

(** ** filters.py *)

Definition DEFAULT_WIDTH : Z := 21.
Definition DEFAULT_ELIMINATION_RATIO : Z := 1.

(** Names bound in the class bodies of [Filter] and its subclasses, other
    than the property [userParams]. *)
Definition class_attrs : list string :=
  ["__init__"; "name"; "getAvailableFilters"; "apply"]%string.

Section Filters.

(** The attribute names every Python object inherits from [object] and
    from the ABC machinery ([__class__], [__dict__], ...). *)
Variable object_hasattr : string -> bool.

(** [hasattr(self, a)].  [userParams] is a property: the attribute exists
    when its getter, which reads [_userParams], succeeds. *)
Definition hasattr (self : obj) (a : string) : bool :=
  if bool_decide (a = "userParams"%string)
  then bool_decide (is_Some (attrs self !! "_userParams"%string))
  else bool_decide (is_Some (attrs self !! a))
       || bool_decide (a ∈ class_attrs)
       || object_hasattr a.

(** [Filter.__init__] *)
Definition Filter_init (self : obj) : M obj :=
  ret (set_field self "_userParams" (VDict ∅)).

(** The loop of the [userParams] setter over the items of [params]. *)
Fixpoint register_params (self : obj) (items : list (string * ptype)) : M obj :=
  match items with
  | [] => ret self
  | (param, t) :: rest =>
      if hasattr self param then
        u <- getattr self "_userParams" ;;
        match u with
        | VDict d =>
            register_params (set_field self "_userParams" (VDict (<[param := t]> d))) rest
        | _ => raise TypeError
        end
      else register_params self rest
  end.

(** [Filter.userParams] (setter).  Iterating a list of floats asks
    [hasattr] for a non-string name, a TypeError. *)
Definition Filter_userParams_setter (self : obj) (params : value) : M obj :=
  match params with
  | VDict d => register_params self (map_to_list d)
  | VList [] => ret self
  | _ => raise TypeError
  end.

(** [Filter.userParams] (getter) *)
Definition Filter_userParams (self : obj) : M value :=
  getattr self "_userParams".

(** [setattr(self, a, v)]: the property intercepts its own name, any other
    name is stored in the instance dictionary. *)
Definition py_setattr (self : obj) (a : string) (v : value) : M obj :=
  if bool_decide (a = "userParams"%string)
  then Filter_userParams_setter self v
  else ret (set_field self a v).

(** [MovingMedian.__init__] *)
Definition MovingMedian_init (self : obj) (inputData width ratio : value) : M obj :=
  self <- Filter_init self ;;
  let self := set_field self "input" inputData in
  let self := set_field self "width" width in
  let self := set_field self "ratio" ratio in
  w <- getattr self "width" ;;
  r <- getattr self "ratio" ;;
  p <- py_mul w r ;;
  h <- py_truediv_lit p 2 ;;
  c <- py_int h ;;
  let self := set_field self "cutExtrema" c in
  Filter_userParams_setter self
    (VDict (<["width"%string := TInt]> (<["ratio"%string := TFloat]> ∅))).

(** [MovingAverage.__init__] *)
Definition MovingAverage_init (self : obj) (inputData width : value) : M obj :=
  MovingMedian_init self inputData width (VInt 0).

(** [MedianCentering.__init__], [MeanCentering.__init__],
    [MinCentering.__init__] *)
Definition Centering_init (self : obj) (inputData : value) : M obj :=
  self <- Filter_init self ;;
  ret (set_field self "input" inputData).

(** The call [c()] with every argument at its default. *)
Definition instantiate (c : cls) : M obj :=
  match c with
  | MovingMedian =>
      MovingMedian_init (new c) VNone (VInt DEFAULT_WIDTH) (VInt DEFAULT_ELIMINATION_RATIO)
  | MovingAverage => MovingAverage_init (new c) VNone (VInt DEFAULT_WIDTH)
  | _ => Centering_init (new c) VNone
  end.

End Filters.

Section Apply.

Variable np_mean : list pyfloat -> pyfloat.

(** [MovingMedian.apply], inherited by [MovingAverage]. *)
Definition MovingMedian_apply (self : obj) : M value :=
  input <- getattr self "input" ;;
  n <- py_len input ;;
  width <- getattr self "width" ;;
  short <- py_int_lt n width ;;
  if short then ret input
  else
    ratio <- getattr self "ratio" ;;
    if py_eq_int ratio 1 then
      w <- py_index width ;;
      output <- mapM (fun i =>
          l <- py_seq input ;;
          ret (np_median np_mean (py_slice l i (i + w))))
        (range (n - w)) ;;
      ret (VList output)
    else
      w <- py_index width ;;
      output <- mapM (fun i =>
          l <- py_seq input ;;
          let currentBlock := np_sort (py_slice l i (i + w)) in
          cut <- getattr self "cutExtrema" ;;
          pos <- py_gt_int cut 0 ;;
          if pos then
            c <- py_index cut ;;
            ret (np_mean (py_slice currentBlock c (- c)))
          else ret (np_mean currentBlock))
        (range (n - w)) ;;
      ret (VList output).

(** The three centering filters share their text up to the statistic;
    [x - m] is the subtraction of two doubles. *)
Definition centering_apply (stat : list pyfloat -> M pyfloat) (self : obj) : M value :=
  input <- getattr self "input" ;;
  if truthy input then
    l <- py_seq input ;;
    m <- stat l ;;
    ret (VList (map (fun x => fsub x m) l))
  else ret VNone.

(** [MedianCentering.apply] *)
Definition MedianCentering_apply : obj -> M value :=
  centering_apply (fun l => ret (np_median np_mean l)).

(** [MeanCentering.apply] *)
Definition MeanCentering_apply : obj -> M value :=
  centering_apply (fun l => ret (np_mean l)).

(** [MinCentering.apply] *)
Definition MinCentering_apply : obj -> M value :=
  centering_apply (fun l =>
    match py_min l with Some m => ret m | None => raise ValueError end).

(** The call [f.apply()]: an instance attribute of that name would shadow
    the method, and none of the values of the model is callable. *)
Definition call_apply (f : obj) : M value :=
  match attrs f !! "apply"%string with
  | Some _ => raise TypeError
  | None =>
      match klass f with
      | MovingMedian | MovingAverage => MovingMedian_apply f
      | MedianCentering => MedianCentering_apply f
      | MeanCentering => MeanCentering_apply f
      | MinCentering => MinCentering_apply f
      end
  end.

End Apply.

(** ** plotter.py: the parameter popup and the filter chain *)

(** [LabeledEntry]: the text of its line edit, and the type captured by the
    slot connected to [editingFinished]. *)
Record LabeledEntry : Type := { text : string; slot_type : ptype }.

(** [DeletableFilterBox] with its [ParametersPopup].  [filter] and
    [paramPopup.filterRef] are one object, kept once. *)
Record DeletableFilterBox : Type :=
  { filter : option obj; entries : gmap string LabeledEntry }.

(** [Filter.name] *)
Definition name (c : cls) : string :=
  match c with
  | MovingMedian => "MovingMedian"
  | MovingAverage => "MovingAverage"
  | MedianCentering => "MedianCentering"
  | MeanCentering => "MeanCentering"
  | MinCentering => "MinCentering"
  end.

(** A class with what its [__subclasses__()] returns: the classes whose
    [class] statement names it as their base, in the order of those
    statements, each with its own. *)
Inductive class_tree : Type :=
| Class (c : cls) (subclasses : list class_tree).

(** The [class] statements of [filters.py] below [Filter]:
    [Filter.__subclasses__()]. *)
Definition Filter_subclasses : list class_tree :=
  [Class MovingMedian [Class MovingAverage []];
   Class MedianCentering [];
   Class MeanCentering [];
   Class MinCentering []].

(** One turn of the loop of [getAvailableFilters] for the subclass [t]:
    [yield from subclass.getAvailableFilters()], which runs the same loop
    over the subclasses of [t], then [yield subclass]. *)
Fixpoint yield_subclass (t : class_tree) : list cls :=
  match t with
  | Class c subclasses => flat_map yield_subclass subclasses ++ [c]
  end.

(** [Filter.getAvailableFilters()], as the list of what it yields. *)
Definition getAvailableFilters : list cls :=
  flat_map yield_subclass Filter_subclasses.

(** [str(outputType)] *)
Definition str_ptype (t : ptype) : string :=
  match t with TInt => "<class 'int'>" | TFloat => "<class 'float'>" end.

Section Plotter.

Variable object_hasattr : string -> bool.
(** [int(s)] and [float(s)] on a string; [None] stands for ValueError. *)
Variable int_of_string : string -> option Z.
Variable float_of_string : string -> option pyfloat.

(** The call [outputType(valStr)]. *)
Definition call_ptype (t : ptype) (s : string) : M value :=
  match t with
  | TInt =>
      match int_of_string s with Some z => ret (VInt z) | None => raise ValueError end
  | TFloat =>
      match float_of_string s with Some x => ret (VFloat x) | None => raise ValueError end
  end.

(** [ParametersPopup.setParam] *)
Definition setParam (self : DeletableFilterBox) (param : string) (outputType : ptype)
  : M DeletableFilterBox :=
  match entries self !! param with
  | Some e =>
      let valStr := text e in
      if bool_decide (valStr ≠ ""%string) then
        try_except
          (val <- call_ptype outputType valStr ;;
           match filter self with
           | Some f =>
               f' <- py_setattr object_hasattr f param val ;;
               ret {| filter := Some f'; entries := entries self |}
           | None => raise AttributeError
           end)
          (emit (Alert ("The following parameter is given in not correctly typed: "
                        +:+ param +:+ "; expected: " +:+ str_ptype outputType)) ;;;
           ret self)
      else ret self
  | None => ret self
  end.

(** [ParametersPopup.updateParams] *)
Definition updateParams (self : DeletableFilterBox) : M DeletableFilterBox :=
  match filter self with
  | None => raise AttributeError
  | Some f =>
      u <- Filter_userParams f ;;
      match u with
      | VDict d =>
          let kept := base.filter (fun kv => is_Some (d !! kv.1)) (entries self) in
          let fresh := (fun t => {| text := ""; slot_type := t |}) <$> d in
          ret {| filter := Some f; entries := kept ∪ fresh |}
      | _ => raise TypeError
      end
  end.

(** [DeletableFilterBox.setFilter], [selectedFilter] being the current text
    of the combo box. *)
Definition setFilter (self : DeletableFilterBox) (selectedFilter : string)
  : M DeletableFilterBox :=
  fold_left (fun acc f =>
      self <- acc ;;
      if bool_decide (selectedFilter = name f) then
        o <- instantiate object_hasattr f ;;
        updateParams {| filter := Some o; entries := entries self |}
      else ret self)
    getAvailableFilters (ret self).

(** The user types [s] in the entry of [param] and leaves the field: the
    slot connected to [editingFinished] runs [setParam] with the type it
    captured. *)
Definition edit (self : DeletableFilterBox) (param s : string) : M DeletableFilterBox :=
  match entries self !! param with
  | Some e =>
      let self' := {| filter := filter self;
                      entries := <[param := {| text := s; slot_type := slot_type e |}]> (entries self) |} in
      setParam self' param (slot_type e)
  | None => ret self
  end.

End Plotter.

Section Chain.

Variable np_mean : list pyfloat -> pyfloat.

(** [FiltersModel.apply], on the list [self.filters]; returns the boxes,
    whose filters had their [input] assigned, with the output. *)
Fixpoint FiltersModel_apply (filters : list DeletableFilterBox) (outputData : value)
  : M (list DeletableFilterBox * value) :=
  match filters with
  | [] => ret ([], outputData)
  | b :: rest =>
      match filter b with
      | None => raise AttributeError
      | Some f =>
          let f := set_field f "input" outputData in
          outputData <- call_apply np_mean f ;;
          r <- FiltersModel_apply rest outputData ;;
          ret ({| filter := Some f; entries := entries b |} :: r.1, r.2)
      end
  end.

End Chain.

(** ** JsonParser.py *)

Record JsonParser : Type := { logs : list json; filename : option string }.

(** [s.endswith(suffix)] *)
Definition endswith (s suffix : string) : bool :=
  let n := String.length s in
  let m := String.length suffix in
  (m <=? n)%nat && String.eqb (String.substring (n - m) m s) suffix.

(** [topic in log] *)
Definition py_contains (log : json) (topic : string) : M bool :=
  match log with
  | JObj kvs => ret (bool_decide (topic ∈ kvs.*1))
  | JArr l =>
      ret (existsb (fun v => match v with JStr s => String.eqb s topic | _ => false end) l)
  | JStr s => ret (bool_decide (is_Some (String.index 0 topic s)))
  | _ => raise TypeError
  end.

(** [log[topic]] *)
Definition py_getitem (log : json) (topic : string) : M json :=
  match log with
  | JObj kvs =>
      match list_find (fun kv => kv.1 = topic) kvs with
      | Some (_, kv) => ret kv.2
      | None => raise KeyError
      end
  | _ => raise TypeError
  end.

(** The diagnostic of [parse_file] for the line of index [idx]. *)
Definition line_message (idx : nat) : string :=
  "Line " +:+ pretty idx +:+ " is not properly formatted and will be ignored".

Section Store.

(** [json.loads(line)]; [None] when it raises. *)
Variable json_loads : string -> option json.
(** [float(s)] on a string; [None] stands for ValueError. *)
Variable float_of_string : string -> option pyfloat.
(** [open(path)] followed by the iteration over the file: [None] when
    the file cannot be opened, else the lines that the iteration yields
    and how it ends, at the end of the file ([None]) or with the exception
    that the reader raises (a UnicodeDecodeError on bytes that are not
    text, an OSError). *)
Variable open_lines : string -> option (list string * option exn).

(** [float(value)] on a decoded JSON value. *)
Definition py_float (v : json) : M pyfloat :=
  match v with
  | JInt z =>
      match float_of_Z z with
      | Some x => ret x
      | None => raise OverflowError
      end
  | JFloat x => ret x
  | JBool b => ret (of_int (if b then 1 else 0))
  | JStr s =>
      match float_of_string s with Some x => ret x | None => raise ValueError end
  | _ => raise TypeError
  end.

(** The [for idx, line in enumerate(f)] loop of [parse_file]. *)
Fixpoint parse_lines (logs : list json) (idx : nat) (lines : list string) : M (list json) :=
  match lines with
  | [] => ret logs
  | line :: rest =>
      logs <- try_except
                (match json_loads line with
                 | Some v => ret (logs ++ [v])
                 | None => raise ValueError
                 end)
                (emit (Print (line_message idx)) ;;; ret logs) ;;
      parse_lines logs (S idx) rest
  end.

(** [JsonParser.parse_file].  The loop runs on the lines that the file
    yields; an exception of the reader leaves the [for] statement after
    them, outside of any [try]. *)
Definition parse_file (self : JsonParser) : M JsonParser :=
  f <- try_except
         (match filename self with
          | Some path =>
              emit (Open path) ;;;
              match open_lines path with
              | Some f => ret f
              | None => raise (IOError "")
              end
          | None => raise TypeError
          end)
         (raise (FileNotFoundError "Please provide a valid file path")) ;;
  logs <- parse_lines (logs self) 0 f.1 ;;
  match f.2 with
  | None => ret {| logs := logs; filename := filename self |}
  | Some e => raise e
  end.

(** [JsonParser.__init__] *)
Definition JsonParser_init (filename : option string) : M JsonParser :=
  let self := {| logs := []; filename := filename |} in
  match filename with
  | Some path =>
      if bool_decide (path ≠ ""%string) then
        if negb (endswith path ".json") then
          raise (IOError "File extension is not valid. Please provide a json file")
        else parse_file self
      else ret self
  | None => ret self
  end.

(** [JsonParser.parse_line] *)
Definition parse_line (self : JsonParser) (line : string) : M JsonParser :=
  if String.prefix "{" line then
    try_except
      (match json_loads line with
       | Some v => ret {| logs := logs self ++ [v]; filename := filename self |}
       | None => raise ValueError
       end)
      (ret self)
  else ret self.

(** The [for log in self.logs] loop of [get_topic_values]. *)
Fixpoint collect_values (topic : string) (numeral : bool)
    (values : list pyfloat) (logs : list json) : M (list pyfloat) :=
  match logs with
  | [] => ret values
  | log :: rest =>
      present <- py_contains log topic ;;
      values <-
        (if present then
           value <- py_getitem log topic ;;
           if numeral then
             try_except
               (value <- py_float value ;; ret (values ++ [value]))
               (emit (PrintCast value) ;;; ret values)
           else ret values
         else ret values) ;;
      collect_values topic numeral values rest
  end.

(** [JsonParser.get_topic_values] *)
Definition get_topic_values (self : JsonParser) (topic : string) (numeral : bool)
  : M (list pyfloat) :=
  collect_values topic numeral [] (logs self).

End Store.

(** ** Reference implementations of the interpreter's functions

    Each covers a fragment of what CPython accepts and answers [None]
    outside of it: decimal digits without underscores or exponents, no
    [inf]/[nan] spellings, JSON strings without [\u] escapes.  They are
    used only to run the repository's code on concrete inputs. *)
Module Py.

Local Open Scope char_scope.

(** Attribute names of [object] and of classes built by [ABCMeta]. *)
Definition object_hasattr (a : string) : bool :=
  bool_decide (a ∈ ["__class__"; "__delattr__"; "__dict__"; "__dir__"; "__doc__";
    "__eq__"; "__format__"; "__ge__"; "__getattribute__"; "__gt__"; "__hash__";
    "__init_subclass__"; "__le__"; "__lt__"; "__module__"; "__ne__"; "__new__";
    "__reduce__"; "__reduce_ex__"; "__repr__"; "__setattr__"; "__sizeof__";
    "__slots__"; "__str__"; "__subclasshook__"; "__weakref__";
    "__abstractmethods__"; "_abc_impl"]%string).

(** The double quote, and a string with each apostrophe turned into one:
    JSON texts are written [dq "{'a': 1}"]. *)
Definition dquote : ascii := "034".

Definition dq (s : string) : string :=
  string_of_list_ascii
    (map (fun c => if Ascii.eqb c "'" then dquote else c) (list_ascii_of_string s)).

Definition is_space (c : ascii) : bool :=
  bool_decide (c ∈ [" "; "009"; "010"; "011"; "012"; "013"]).

Definition digit (c : ascii) : option Z :=
  let n := Z.of_nat (nat_of_ascii c) in
  if ((48 <=? n)%Z && (n <=? 57)%Z)%bool then Some (n - 48) else None.

Fixpoint lstrip (cs : list ascii) : list ascii :=
  match cs with
  | c :: r => if is_space c then lstrip r else cs
  | [] => []
  end.

Definition strip (cs : list ascii) : list ascii := rev (lstrip (rev (lstrip cs))).

(** Reads a maximal run of digits: its value after [acc], its length, and
    what follows. *)
Fixpoint digits (cs : list ascii) (acc : Z) (cnt : nat) : Z * nat * list ascii :=
  match cs with
  | c :: r =>
      match digit c with
      | Some d => digits r (10 * acc + d) (S cnt)
      | None => (acc, cnt, cs)
      end
  | [] => (acc, cnt, [])
  end.

Definition sign (cs : list ascii) : Z * list ascii :=
  match cs with
  | "-" :: r => (-1, r)
  | "+" :: r => (1, r)
  | _ => (1, cs)
  end.

(** [int(s)] *)
Definition int_of_string (s : string) : option Z :=
  let '(sg, r) := sign (strip (list_ascii_of_string s)) in
  match digits r 0 0 with
  | (v, S _, []) => Some (sg * v)
  | _ => None
  end.

(** The double nearest to a decimal numeral. *)
Definition decimal (sg ip fp : Z) (fcnt : nat) : pyfloat :=
  rnd (inject_Z (sg * (ip * 10 ^ Z.of_nat fcnt + fp)) / inject_Z (10 ^ Z.of_nat fcnt)).

(** [float(s)] *)
Definition float_of_string (s : string) : option pyfloat :=
  let '(sg, r) := sign (strip (list_ascii_of_string s)) in
  match digits r 0 0 with
  | (ip, icnt, "." :: r1) =>
      match digits r1 0 0 with
      | (fp, fcnt, []) =>
          if Nat.eqb (icnt + fcnt) 0 then None else Some (decimal sg ip fp fcnt)
      | _ => None
      end
  | (ip, S _, []) => Some (rnd (inject_Z (sg * ip)))
  | _ => None
  end.

(** *** [json.loads] *)

Definition is_json_ws (c : ascii) : bool :=
  bool_decide (c ∈ [" "; "009"; "010"; "013"]).

Fixpoint skip_ws (cs : list ascii) : list ascii :=
  match cs with
  | c :: r => if is_json_ws c then skip_ws r else cs
  | [] => []
  end.

Definition unescape (c : ascii) : option ascii :=
  match c with
  | "034" => Some "034"
  | "\" => Some "\"
  | "/" => Some "/"
  | "b" => Some "008"
  | "f" => Some "012"
  | "n" => Some "010"
  | "r" => Some "013"
  | "t" => Some "009"
  | _ => None
  end.

(** The rest of a string literal, after its opening quote. *)
Fixpoint read_string (cs : list ascii) (acc : list ascii) : option (string * list ascii) :=
  match cs with
  | [] => None
  | "034" :: r => Some (string_of_list_ascii (rev acc), r)
  | "\" :: e :: r =>
      match unescape e with
      | Some x => read_string r (x :: acc)
      | None => None
      end
  | c :: r =>
      if (nat_of_ascii c <? 32)%nat then None else read_string r (c :: acc)
  end.

(** A number: an optional minus sign, an integer part without leading
    zero, an optional fraction; an exponent is outside the fragment. *)
Definition read_number (cs : list ascii) : option (json * list ascii) :=
  let '(sg, r) := match cs with "-" :: r => (-1, r) | _ => (1, cs) end in
  let int_part :=
    match r with
    | "0" :: r1 => Some (0, r1)
    | _ => match digits r 0 0 with (v, S _, r1) => Some (v, r1) | _ => None end
    end in
  match int_part with
  | None => None
  | Some (ip, r1) =>
      let '(v, r2) :=
        match r1 with
        | "." :: r3 =>
            match digits r3 0 0 with
            | (fp, S n, r4) => (JFloat (decimal sg ip fp (S n)), r4)
            | _ => (JInt (sg * ip), r1)
            end
        | _ => (JInt (sg * ip), r1)
        end in
      match r2 with
      | "e" :: _ | "E" :: _ => None
      | _ => Some (v, r2)
      end
  end.

(** [d[k] = v] on an insertion-ordered dictionary. *)
Fixpoint dict_set (kvs : list (string * json)) (k : string) (v : json) : list (string * json) :=
  match kvs with
  | [] => [(k, v)]
  | (k1, v1) :: r =>
      if String.eqb k k1 then (k1, v) :: r else (k1, v1) :: dict_set r k v
  end.

Fixpoint parse_value (fuel : nat) (cs : list ascii) {struct fuel} : option (json * list ascii) :=
  match fuel with
  | O => None
  | S fuel =>
      match cs with
      | "{" :: r =>
          match skip_ws r with
          | "}" :: r1 => Some (JObj [], r1)
          | r1 => parse_members fuel r1 []
          end
      | "[" :: r =>
          match skip_ws r with
          | "]" :: r1 => Some (JArr [], r1)
          | r1 => parse_elements fuel r1 []
          end
      | "034" :: r =>
          match read_string r [] with
          | Some (s, r1) => Some (JStr s, r1)
          | None => None
          end
      | "t" :: "r" :: "u" :: "e" :: r => Some (JBool true, r)
      | "f" :: "a" :: "l" :: "s" :: "e" :: r => Some (JBool false, r)
      | "n" :: "u" :: "l" :: "l" :: r => Some (JNull, r)
      | _ => read_number cs
      end
  end
with parse_members (fuel : nat) (cs : list ascii) (acc : list (string * json))
    {struct fuel} : option (json * list ascii) :=
  match fuel with
  | O => None
  | S fuel =>
      match cs with
      | "034" :: r =>
          match read_string r [] with
          | Some (k, r1) =>
              match skip_ws r1 with
              | ":" :: r2 =>
                  match parse_value fuel (skip_ws r2) with
                  | Some (v, r3) =>
                      let acc := dict_set acc k v in
                      match skip_ws r3 with
                      | "," :: r4 => parse_members fuel (skip_ws r4) acc
                      | "}" :: r4 => Some (JObj acc, r4)
                      | _ => None
                      end
                  | None => None
                  end
              | _ => None
              end
          | None => None
          end
      | _ => None
      end
  end
with parse_elements (fuel : nat) (cs : list ascii) (acc : list json)
    {struct fuel} : option (json * list ascii) :=
  match fuel with
  | O => None
  | S fuel =>
      match parse_value fuel cs with
      | Some (v, r1) =>
          match skip_ws r1 with
          | "," :: r2 => parse_elements fuel (skip_ws r2) (acc ++ [v])
          | "]" :: r2 => Some (JArr (acc ++ [v]), r2)
          | _ => None
          end
      | None => None
      end
  end.

(** [json.loads(s)] *)
Definition json_loads (s : string) : option json :=
  let cs := list_ascii_of_string s in
  match parse_value (2 * length cs + 2) (skip_ws cs) with
  | Some (v, r) => match skip_ws r with [] => Some v | _ => None end
  | None => None
  end.

(** A file system given by what reading each of its files yields. *)
Definition open_lines (files : list (string * (list string * option exn)))
    (path : string) : option (list string * option exn) :=
  match list_find (fun f => f.1 = path) files with
  | Some (_, f) => Some f.2
  | None => None
  end.

(** [np.mean] adding from left to right, which is the order of numpy on
    fewer than eight elements; on more it adds in blocks, and the sum may
    round otherwise.  Used below on short lists, or on lists whose partial
    sums are exact. *)
Definition np_mean (l : list pyfloat) : pyfloat :=
  match l with
  | [] => NaN
  | _ => fdiv_int (fold_left fadd l (Fin 0)) (Z.of_nat (length l))
  end.

End Py.


(** ** Vocabulary of the statements *)

(** [stages x boxes y]: the filter of the first box holds [x] as its input
    and its [apply()] returns the input held by the next one, and so on
    down to [y], the output of the last. *)
Inductive stages (np_mean : list pyfloat -> pyfloat)
  : value -> list DeletableFilterBox -> value -> Prop :=
| stages_nil (x : value) : stages np_mean x [] x
| stages_cons (x out y : value) (b : DeletableFilterBox) (f : obj)
    (w : list event) (rest : list DeletableFilterBox) :
    filter b = Some f ->
    attrs f !! "input"%string = Some x ->
    call_apply np_mean f = (w, Ok out) ->
    stages np_mean out rest y ->
    stages np_mean x (b :: rest) y.

(** What the chain does to the box of one stage fed with [x]. *)
Definition assign_input (b : DeletableFilterBox) (x : value) : option DeletableFilterBox :=
  match filter b with
  | Some f => Some {| filter := Some (set_field f "input" x); entries := entries b |}
  | None => None
  end.



(** The user parameters declared by [MovingMedian.__init__]. *)
Definition mm_params : gmap string ptype :=
  <["width"%string := TInt]> (<["ratio"%string := TFloat]> ∅).

(** [DeletableFilterBox.__init__]: no filter yet, a popup without entries. *)
Definition fresh_box : DeletableFilterBox := {| filter := None; entries := ∅ |}.

(** One diagnostic per line that does not decode, in file order, numbered
    from [idx]. *)
Fixpoint line_diagnostics (json_loads : string -> option json)
    (idx : nat) (lines : list string) : list event :=
  match lines with
  | [] => []
  | line :: rest =>
      match json_loads line with
      | Some _ => line_diagnostics json_loads (S idx) rest
      | None => Print (line_message idx) :: line_diagnostics json_loads (S idx) rest
      end
  end.


(** *** Concrete objects on which the statements are run *)

(** A moving filter as its constructor leaves it. *)
Definition moving (c : cls) (input : value) (w : Z) (r : value) (cut : Z) : obj :=
  {| klass := c;
     attrs := <["_userParams"%string := VDict mm_params]>
                (<["cutExtrema"%string := VInt cut]>
                   (<["ratio"%string := r]>
                      (<["width"%string := VInt w]>
                         (<["input"%string := input]> ∅)))) |}.

(** A centering filter as its constructor leaves it. *)
Definition centering (c : cls) (input : value) : obj :=
  {| klass := c;
     attrs := <["input"%string := input]> (<["_userParams"%string := VDict ∅]> ∅) |}.

Definition boxed (f : obj) : DeletableFilterBox := {| filter := Some f; entries := ∅ |}.

(** The chain [MeanCentering, MovingAverage(width=3)]. *)
Definition chain_example : list DeletableFilterBox :=
  [boxed (centering MeanCentering VNone); boxed (moving MovingAverage VNone 3 (VInt 0) 0)].

(** A file of three lines, the second of which is not JSON, and a file
    whose bytes are not text: the first read of the iteration fails. *)
Definition files_example : list (string * (list string * option exn)) :=
  [("f.json"%string,
    ([Py.dq "{'a':1}"; "not json"%string; Py.dq "{'a':2}"], None));
   ("b.json"%string, ([], Some UnicodeDecodeError))].


(** ** JsonParser.py, the remaining methods *)

(** Equality as [x in list] sees it on decoded values: numbers compare by
    value across [bool], [int] and [float]; the decoder hands out one NaN
    object, which is found by identity. *)
Definition float_same (x y : pyfloat) : bool :=
  match x, y with
  | Fin a, Fin b => Qeq_bool a b
  | NaN, NaN | PInf, PInf | NInf, NInf => true
  | _, _ => false
  end.

Definition json_num (v : json) : option pyfloat :=
  match v with
  | JBool b => Some (of_int (if b then 1 else 0))
  | JInt z => Some (of_int z)
  | JFloat x => Some x
  | _ => None
  end.

Fixpoint json_eqb (a b : json) {struct a} : bool :=
  match a with
  | JNull => match b with JNull => true | _ => false end
  | JStr s => match b with JStr t => String.eqb s t | _ => false end
  | JArr l =>
      match b with
      | JArr m =>
          (fix go (l m : list json) : bool :=
             match l, m with
             | [], [] => true
             | x :: l', y :: m' => json_eqb x y && go l' m'
             | _, _ => false
             end) l m
      | _ => false
      end
  | JObj kvs =>
      match b with
      | JObj kws =>
          Nat.eqb (length kvs) (length kws)
          && (fix go (kvs : list (string * json)) : bool :=
                match kvs with
                | [] => true
                | (k, v) :: r =>
                    match list_find (fun kw => kw.1 = k) kws with
                    | Some (_, kw) => json_eqb v kw.2
                    | None => false
                    end && go r
                end) kvs
      | _ => false
      end
  | JBool _ | JInt _ | JFloat _ =>
      match json_num a, json_num b with
      | Some x, Some y => float_same x y
      | _, _ => false
      end
  end.

(** [if not(topic in topics): topics.append(topic)] *)
Definition add_topic (topics : list json) (topic : json) : list json :=
  if existsb (fun t => json_eqb t topic) topics then topics else topics ++ [topic].

Section StoreTopics.

(** The characters of a string, as iterating over it yields them. *)
Variable str_chars : string -> list string.

(** What [for topic in log] iterates over. *)
Definition py_iter (log : json) : M (list json) :=
  match log with
  | JObj kvs => ret (map (fun kv => JStr kv.1) kvs)
  | JArr l => ret l
  | JStr s => ret (map JStr (str_chars s))
  | _ => raise TypeError
  end.

(** The [for log in self.logs] loop of [extract_topics]. *)
Fixpoint extract_loop (topics : list json) (logs : list json) : M (list json) :=
  match logs with
  | [] => ret topics
  | log :: rest =>
      items <- py_iter log ;;
      extract_loop (fold_left add_topic items topics) rest
  end.

(** [JsonParser.extract_topics] *)
Definition extract_topics (self : JsonParser) : M (list json) :=
  extract_loop [] (logs self).

End StoreTopics.

(** [JsonParser.clear_all] *)
Definition clear_all (self : JsonParser) : JsonParser :=
  {| logs := []; filename := filename self |}.

(** *** Vocabulary *)

(** The reader loop of the serial interface: [parse_line] on each line in
    turn. *)
Definition feed_lines (json_loads : string -> option json)
    (self : JsonParser) (lines : list string) : M JsonParser :=
  fold_left (fun acc line => s <- acc ;; parse_line json_loads s line) lines (ret self).

Definition is_object (log : json) : Prop := exists kvs, log = JObj kvs.


(** The value a record holds under [topic], if it is an object with that
    key. *)
Definition record_get (log : json) (topic : string) : option json :=
  match log with
  | JObj kvs => (fun r : nat * (string * json) => r.2.2) <$> list_find (fun kv => kv.1 = topic) kvs
  | _ => None
  end.

(** The float [float(v)] returns, if it returns. *)
Definition castable (float_of_string : string -> option pyfloat) (v : json) : option pyfloat :=
  match py_float float_of_string v with
  | (_, Ok x) => Some x
  | _ => None
  end.

Definition dropped (float_of_string : string -> option pyfloat) (v : json) : bool :=
  match castable float_of_string v with
  | Some _ => false
  | None => true
  end.

(** Appending the strings of [ks] that are not yet listed, in order. *)
Definition add_key (ts : list string) (k : string) : list string :=
  if bool_decide (k ∈ ts) then ts else ts ++ [k].

Definition record_keys (log : json) : list string :=
  match log with
  | JObj kvs => kvs.*1
  | _ => []
  end.

(** The keys of the records in first-seen order, starting from [ts]. *)
Definition topics_after (ts : list string) (logs : list json) : list string :=
  fold_left (fun ts log => fold_left add_key (record_keys log) ts) logs ts.

(** ** Vocabulary for the filters *)

(** What the trimming branch of [MovingMedian.apply] computes for one
    window when [cutExtrema] holds the integer [c]. *)
Definition trimmed_mean (np_mean : list pyfloat -> pyfloat) (c : Z)
    (window : list pyfloat) : pyfloat :=
  let currentBlock := np_sort window in
  if 0 <? c then np_mean (py_slice currentBlock c (- c)) else np_mean currentBlock.

Definition is_centering (c : cls) : bool :=
  match c with
  | MedianCentering | MeanCentering | MinCentering => true
  | _ => false
  end.

(** A box whose filter is of a given kind and whose [apply] is the method
    of its class. *)
Definition box_of_kind (kind : cls -> bool) (b : DeletableFilterBox) : Prop :=
  exists f, filter b = Some f /\ kind (klass f) = true
            /\ attrs f !! "apply"%string = None.

(** ** plotter.py: the address check of the MQTT pane and the colour code *)

(** [s.split('.')] *)
Fixpoint split_dot_go (cs cur : list ascii) : list string :=
  match cs with
  | [] => [string_of_list_ascii (rev cur)]
  | c :: r =>
      if Ascii.eqb c "." then string_of_list_ascii (rev cur) :: split_dot_go r []
      else split_dot_go r (c :: cur)
  end.

Definition split_dot (s : string) : list string :=
  split_dot_go (list_ascii_of_string s) [].

Section MqttDock.

(** [s.isdigit()] and [int(s)] on a string; [None] stands for ValueError. *)
Variable isdigit : string -> bool.
Variable int_of_string : string -> option Z.

(** The [for field in fields] loop of [checkIp], entered with the current
    value of [isIpCorrect]. *)
Fixpoint check_fields (fields : list string) (isIpCorrect : bool) : M bool :=
  match fields with
  | [] => ret isIpCorrect
  | field :: rest =>
      if isdigit field then
        byte <- match int_of_string field with
                | Some z => ret z
                | None => raise ValueError
                end ;;
        if byte <? 256 then check_fields rest true else ret false
      else ret false
  end.

(** [MqttDock.checkIp], [address] being the text of the entry; returns the
    new [interface.host] with the result. *)
Definition checkIp (address : string) : M (option string * bool) :=
  let fields := split_dot address in
  isIpCorrect <- (if Nat.eqb (length fields) 4 then check_fields fields false
                  else ret false) ;;
  if isIpCorrect then ret (Some address, true)
  else
    emit (Alert "The provided IP address is uncorrectly formatted") ;;;
    ret (None, false).

End MqttDock.

(** A field that [checkIp] accepts. *)
Definition byte_field (isdigit : string -> bool) (int_of_string : string -> option Z)
    (field : string) : Prop :=
  isdigit field = true /\ exists z, int_of_string field = Some z /\ z < 256.

(** [str.isdigit] on ASCII text: at least one character, all of them
    decimal digits. *)
Definition ascii_isdigit (s : string) : bool :=
  negb (String.eqb s "")
  && forallb (fun c => bool_decide (is_Some (Py.digit c))) (list_ascii_of_string s).

(** The hexadecimal digit of value [d]. *)
Definition hex_char (d : Z) : ascii :=
  nth (Z.to_nat d) (list_ascii_of_string "0123456789abcdef") "0"%char.

Fixpoint hex_digits (fuel : nat) (n : Z) (acc : list ascii) : list ascii :=
  match fuel with
  | O => acc
  | S fuel =>
      if n <? 16 then hex_char n :: acc
      else hex_digits fuel (n / 16) (hex_char (n mod 16) :: acc)
  end.

(** [hex] digits of a number that is not negative. *)
Definition hex (n : Z) : list ascii := hex_digits (S (Z.to_nat (Z.log2 n))) n [].

(** ['%02x' % n] *)
Definition format_02x (n : Z) : string :=
  if n <? 0 then string_of_list_ascii ("-"%char :: hex (- n))
  else
    let h := hex n in
    string_of_list_ascii (if (length h <? 2)%nat then "0"%char :: h else h).

(** [PlotSettings.convertToHmtl] *)
Definition convertToHmtl (r g b : Z) : string :=
  "#" +:+ format_02x r +:+ format_02x g +:+ format_02x b.

(** Reading a colour code back. *)
Definition hex_value (c : ascii) : option Z :=
  match Py.digit c with
  | Some d => Some d
  | None =>
      let n := Z.of_nat (nat_of_ascii c) in
      if (97 <=? n) && (n <=? 102) then Some (n - 87) else None
  end.

Definition hex_pair (a b : ascii) : option Z :=
  match hex_value a, hex_value b with
  | Some x, Some y => Some (16 * x + y)
  | _, _ => None
  end.

Definition parse_color (s : string) : option (Z * Z * Z) :=
  match list_ascii_of_string s with
  | [h; r1; r2; g1; g2; b1; b2] =>
      if Ascii.eqb h "#" then
        match hex_pair r1 r2, hex_pair g1 g2, hex_pair b1 b2 with
        | Some r, Some g, Some b => Some (r, g, b)
        | _, _, _ => None
        end
      else None
  | _ => None
  end.

(** The check run on each byte value. *)
Definition byte_round_trip (n : nat) : bool :=
  match list_ascii_of_string (format_02x (Z.of_nat n)) with
  | [a; b] =>
      match hex_pair a b with
      | Some v => v =? Z.of_nat n
      | None => false
      end
  | _ => false
  end.



(** ** mqttInterface.py *)

Module Mqtt.

(** What a stored value may be for the [isinstance] tests of
    [get_topic_values]: bytes (what the broker client delivers), text, or
    any other object. *)
Inductive payload : Type :=
| PBytes (b : list Byte.byte)
| PStr (s : string)
| POther.

(** The message handed to the callbacks: [msg.topic] and [msg.payload]. *)
Record message : Type := Message { topic : string; payload_of : payload }.

Section Interface.

(** The broker client of the MQTT library, and its [subscribe] method: the
    client after the call, or the exception the library raises. *)
Variable client : Type.
Variable client_subscribe : client -> string -> M client.
(** [bytes.decode('utf-8')]; [None] stands for UnicodeDecodeError, which is
    a ValueError. *)
Variable utf8_decode : list Byte.byte -> option string.
Variable float_of_string : string -> option pyfloat.

Record MqttInterface : Type := {
  mqttc : option client;
  host : option string;
  port : option Z;
  currentTopic : option string;
  topics : list string;
  subscribedTopics : list string;
  data : gmap string (list payload)
}.

(** [MqttInterface.__init__] *)
Definition MqttInterface_init : MqttInterface :=
  {| mqttc := None; host := None; port := None; currentTopic := None;
     topics := []; subscribedTopics := []; data := ∅ |}.

Definition set_host (self : MqttInterface) (h : option string) : MqttInterface :=
  {| mqttc := mqttc self; host := h; port := port self;
     currentTopic := currentTopic self; topics := topics self;
     subscribedTopics := subscribedTopics self; data := data self |}.

Definition set_port (self : MqttInterface) (p : option Z) : MqttInterface :=
  {| mqttc := mqttc self; host := host self; port := p;
     currentTopic := currentTopic self; topics := topics self;
     subscribedTopics := subscribedTopics self; data := data self |}.

(** [MqttInterface.subscribe]; [parent] is [self.parent._isScanOn], [None]
    when there is no parent to read it from. *)
Definition subscribe (self : MqttInterface) (parent : option bool) (t : string)
  : M MqttInterface :=
  isScanOn <- match parent with
              | Some b => ret b
              | None => raise AttributeError
              end ;;
  c <- (if negb isScanOn then
          match mqttc self with
          | Some c => c' <- client_subscribe c t ;; ret (Some c')
          | None => raise AttributeError
          end
        else ret (mqttc self)) ;;
  ret {| mqttc := c; host := host self; port := port self;
         currentTopic := currentTopic self; topics := topics self;
         subscribedTopics := subscribedTopics self ++ [t];
         data := <[t := []]> (data self) |}.

(** [MqttInterface.onScan] *)
Definition onScan (self : MqttInterface) (msg : message) : MqttInterface :=
  if bool_decide (topic msg ∈ topics self) then self
  else
    {| mqttc := mqttc self; host := host self; port := port self;
       currentTopic := currentTopic self; topics := topics self ++ [topic msg];
       subscribedTopics := subscribedTopics self; data := data self |}.

(** [MqttInterface.onMessage] *)
Definition onMessage (self : MqttInterface) (msg : message) : MqttInterface :=
  let self := onScan self msg in
  if bool_decide (topic msg ∈ subscribedTopics self) then
    let stored := match data self !! topic msg with
                  | Some l => l
                  | None => []
                  end in
    {| mqttc := mqttc self; host := host self; port := port self;
       currentTopic := currentTopic self; topics := topics self;
       subscribedTopics := subscribedTopics self;
       data := <[topic msg := stored ++ [payload_of msg]]> (data self) |}
  else self.

(** The loop of [get_topic_values] over [self.data[topic]]. *)
Fixpoint collect (vals : list payload) (numeral : bool) (values : list pyfloat)
  : M (list pyfloat) :=
  match vals with
  | [] => ret values
  | val :: rest =>
      val <- match val with
             | PBytes b =>
                 match utf8_decode b with
                 | Some s => ret (PStr s)
                 | None => raise ValueError
                 end
             | _ => ret val
             end ;;
      match val with
      | PStr s =>
          if numeral then
            match float_of_string s with
            | Some x => collect rest numeral (values ++ [x])
            | None => collect rest numeral values
            end
          else collect rest numeral values
      | _ => collect rest numeral values
      end
  end.

(** [MqttInterface.get_topic_values] *)
Definition get_topic_values (self : MqttInterface) (t : string) (numeral : bool)
  : M (list pyfloat) :=
  match data self !! t with
  | Some vals => collect vals numeral []
  | None => raise KeyError
  end.

(** The test [self.port and self.host] that guards [createClient]. *)
Definition has_endpoint (self : MqttInterface) : bool :=
  match port self, host self with
  | Some p, Some h => negb (p =? 0) && negb (String.eqb h "")
  | _, _ => false
  end.

(** The callbacks run on messages in their order of arrival. *)
Definition deliver (self : MqttInterface) (msgs : list message) : MqttInterface :=
  fold_left onMessage msgs self.

Definition scan (self : MqttInterface) (msgs : list message) : MqttInterface :=
  fold_left onScan msgs self.

(** The payloads of the messages of one topic, in their order of arrival. *)
Definition payloads_for (t : string) (msgs : list message) : list payload :=
  map payload_of (List.filter (fun m => bool_decide (topic m = t)) msgs).

(** The number a stored value contributes, if any. *)
Definition reading (p : payload) : option pyfloat :=
  match p with
  | PBytes b =>
      match utf8_decode b with
      | Some s => float_of_string s
      | None => None
      end
  | PStr s => float_of_string s
  | POther => None
  end.

(** A stored value that the decoder accepts. *)
Definition decodable (p : payload) : Prop :=
  match p with
  | PBytes b => is_Some (utf8_decode b)
  | _ => True
  end.

End Interface.

(** A list of topics after a topic was seen. *)
Definition register (ts : list string) (t : string) : list string :=
  if bool_decide (t ∈ ts) then ts else ts ++ [t].

(** The entry of a subscribed topic after the payloads [ps] arrived, [old]
    being the entry before. *)
Definition stored_after (old : option (list payload)) (ps : list payload)
  : option (list payload) :=
  match ps with
  | [] => old
  | _ => Some (match old with Some l => l | None => [] end ++ ps)
  end.

End Mqtt.

(** ** plotter.py: the port check and the tests of [MqttDock.connect] *)

Definition AUTHORIZED_MQTT_PORTS : list Z := [1883; 8883; 9001].

Section MqttConnect.

Variable isdigit : string -> bool.
Variable int_of_string : string -> option Z.
Variable client : Type.

(** [MqttDock.checkPort], [port] being the text of the entry; returns the new
    [interface.port] with the result. *)
Definition checkPort (port : string) : M (option Z * bool) :=
  accepted <- (if isdigit port then
                 match int_of_string port with
                 | Some z => ret (bool_decide (z ∈ AUTHORIZED_MQTT_PORTS))
                 | None => raise ValueError
                 end
               else ret false) ;;
  if accepted then
    match int_of_string port with
    | Some z => ret (Some z, true)
    | None => raise ValueError
    end
  else
    emit (Alert "The provided port is not valid. Please choose among [1883, 8883, 9001]") ;;;
    ret (None, false).

(** The test [self.checkPort() and self.checkIp()] of [MqttDock.connect]
    with its writes to the interface; [port] and [address] are the texts of
    the two entries. *)
Definition connect_checks (interface : Mqtt.MqttInterface client)
    (port address : string) : M (Mqtt.MqttInterface client * bool) :=
  p <- checkPort port ;;
  let interface := Mqtt.set_port client interface p.1 in
  if p.2 then
    a <- checkIp isdigit int_of_string address ;;
    ret (Mqtt.set_host client interface a.1, a.2)
  else ret (interface, false).

End MqttConnect.

(** *** Further concrete objects *)

(** Iterating over a string of one-byte characters. *)
Definition str_chars_ascii (s : string) : list string :=
  map (fun c => String c EmptyString) (list_ascii_of_string s).

(** The decoder on texts of one-byte characters; used below on ASCII bytes
    and on the byte 255, which no UTF-8 text holds. *)
Definition ascii_decode (b : list Byte.byte) : option string :=
  if forallb (fun x => (Byte.to_nat x <? 128)%nat) b
  then Some (string_of_list_byte b)
  else None.

(** A store of two records. *)
Definition store_example : JsonParser :=
  {| logs := [JObj [("a"%string, JInt 1); ("b"%string, JStr "x")];
              JObj [("a"%string, JStr "2.5")]];
     filename := None |}.


(** Three messages on two topics. *)
Definition messages_example : list Mqtt.message :=
  [Mqtt.Message "t/a" (Mqtt.PBytes (list_byte_of_string "1.5"));
   Mqtt.Message "t/b" (Mqtt.PBytes (list_byte_of_string "7"));
   Mqtt.Message "t/a" (Mqtt.PBytes (list_byte_of_string "on"))].

(** An interface whose only entry holds a value that does not decode. *)
Definition undecodable_example : Mqtt.MqttInterface unit :=
  {| Mqtt.mqttc := None; Mqtt.host := None; Mqtt.port := None;
     Mqtt.currentTopic := None; Mqtt.topics := ["t/a"%string];
     Mqtt.subscribedTopics := ["t/a"%string];
     Mqtt.data := {["t/a"%string := [Mqtt.PStr "2"; Mqtt.PBytes [Byte.xff]]]} |}.

(** * Properties *)

(** ** Rounding to a double *)

Section RoundingFacts.

Local Open Scope Q_scope.

Lemma two_pow_pos (k : Z) : 0 < 2 ^ k.
Proof. apply Qpower_0_lt. reflexivity. Qed.

Lemma two_pow_plus (a b : Z) : 2 ^ (a + b) == 2 ^ a * 2 ^ b.
Proof. apply Qpower_plus. discriminate. Qed.

Lemma two_pow_lt (a b : Z) : (a < b)%Z -> 2 ^ a < 2 ^ b.
Proof. intros H. apply Qpower_lt_compat_l; [exact H | reflexivity]. Qed.

Lemma two_pow_le (a b : Z) : (a <= b)%Z -> 2 ^ a <= 2 ^ b.
Proof. intros H. apply Qpower_le_compat_l; [exact H | discriminate]. Qed.

Lemma two_pow_lt_inv (a b : Z) : 2 ^ a < 2 ^ b -> (a < b)%Z.
Proof. intros H. apply (Qpower_lt_compat_l_inv 2); [exact H | reflexivity]. Qed.

Lemma two_pow_Z (n : Z) : (0 <= n)%Z -> inject_Z (2 ^ n) == 2 ^ n.
Proof. intros H. by rewrite Zpower_Qpower. Qed.

Lemma two_pow_succ (a : Z) : 2 ^ (a + 1) == 2 * 2 ^ a.
Proof. rewrite two_pow_plus. change (2 ^ 1) with 2. ring. Qed.

(** Dividing by a power of two and multiplying back. *)
Lemma scale_back (q : Q) (k : Z) : q / 2 ^ k * 2 ^ k == q.
Proof. field. pose proof (two_pow_pos k). lra. Qed.

Lemma scale_pow (m : Q) (k : Z) : m * 2 ^ k / 2 ^ k == m.
Proof. field. pose proof (two_pow_pos k). lra. Qed.

Lemma scale_le (p q : Q) (k : Z) : p <= q -> p / 2 ^ k <= q / 2 ^ k.
Proof.
  intros H. unfold Qdiv. apply Qmult_le_compat_r; [exact H |].
  apply Qlt_le_weak, Qinv_lt_0_compat, two_pow_pos.
Qed.

Lemma scale_lt (p q : Q) (k : Z) : p < q -> p / 2 ^ k < q / 2 ^ k.
Proof.
  intros H. unfold Qdiv. apply Qmult_lt_compat_r; [| exact H].
  apply Qinv_lt_0_compat, two_pow_pos.
Qed.

Lemma scale_two_pow (a k : Z) : 2 ^ a / 2 ^ k == 2 ^ (a - k).
Proof.
  replace a with ((a - k) + k)%Z at 1 by lia.
  rewrite two_pow_plus. apply scale_pow.
Qed.

Lemma mul_two_pow_le (p q : Q) (k : Z) : p <= q -> p * 2 ^ k <= q * 2 ^ k.
Proof.
  intros H. apply Qmult_le_compat_r; [exact H |]. apply Qlt_le_weak, two_pow_pos.
Qed.

Lemma mul_two_pow_lt (p q : Q) (k : Z) : p < q -> p * 2 ^ k < q * 2 ^ k.
Proof. intros H. apply Qmult_lt_compat_r; [apply two_pow_pos | exact H]. Qed.

(** [Qlog2 q] is the position of the leading bit of [q]. *)
Lemma Qlog2_spec (q : Q) : 0 < q -> 2 ^ Qlog2 q <= q < 2 ^ (Qlog2 q + 1).
Proof.
  intros Hq. destruct q as [n d].
  assert (Hn : (0 < n)%Z) by (unfold Qlt in Hq; simpl in Hq; lia).
  destruct (Z.log2_spec n Hn) as [Hn1 Hn2].
  destruct (Z.log2_spec (Zpos d) eq_refl) as [Hd1 Hd2].
  pose proof (Z.log2_nonneg n) as Ha. pose proof (Z.log2_nonneg (Zpos d)) as Hb.
  set (a := Z.log2 n) in *. set (b := Z.log2 (Zpos d)) in *.
  assert (Hqv : n # d == inject_Z n / inject_Z (Zpos d)) by apply Qmake_Qdiv.
  assert (Hdpos : 0 < inject_Z (Zpos d)) by reflexivity.
  assert (HnL : 2 ^ a <= inject_Z n).
  { rewrite <- two_pow_Z by done. by rewrite <- Zle_Qle. }
  assert (HnU : inject_Z n < 2 ^ (a + 1)).
  { rewrite <- two_pow_Z by lia. by rewrite <- Zlt_Qlt. }
  assert (HdL : 2 ^ b <= inject_Z (Zpos d)).
  { rewrite <- two_pow_Z by done. by rewrite <- Zle_Qle. }
  assert (HdU : inject_Z (Zpos d) < 2 ^ (b + 1)).
  { rewrite <- two_pow_Z by lia. by rewrite <- Zlt_Qlt. }
  assert (Hup : n # d < 2 ^ (a - b + 1)).
  { rewrite Hqv. apply Qlt_shift_div_r; [exact Hdpos |].
    apply Qlt_le_trans with (2 ^ (a - b + 1) * 2 ^ b).
    - rewrite <- two_pow_plus. by replace (a - b + 1 + b)%Z with (a + 1)%Z by lia.
    - apply Qmult_le_l; [apply two_pow_pos | exact HdL]. }
  assert (Hlow : 2 ^ (a - b - 1) < n # d).
  { rewrite Hqv. apply Qlt_shift_div_l; [exact Hdpos |].
    apply Qlt_le_trans with (2 ^ (a - b - 1) * 2 ^ (b + 1)).
    - apply Qmult_lt_l; [apply two_pow_pos | exact HdU].
    - rewrite <- two_pow_plus. by replace (a - b - 1 + (b + 1))%Z with a by lia. }
  unfold Qlog2. cbn [Qnum Qden]. fold a b.
  destruct (Qle_bool (2 ^ (a - b)) (n # d)) eqn:Hle.
  - apply Qle_bool_iff in Hle. split; [exact Hle | exact Hup].
  - assert (Hlt : n # d < 2 ^ (a - b)).
    { apply Qnot_le_lt. intros H. apply Qle_bool_iff in H. congruence. }
    split; [by apply Qlt_le_weak |].
    by replace (a - b - 1 + 1)%Z with (a - b)%Z by lia.
Qed.

Lemma Qlog2_unique (q : Q) (e : Z) : 2 ^ e <= q < 2 ^ (e + 1) -> Qlog2 q = e.
Proof.
  intros [H1 H2].
  assert (Hq : 0 < q) by (apply Qlt_le_trans with (2 ^ e); [apply two_pow_pos | done]).
  destruct (Qlog2_spec q Hq) as [H3 H4].
  assert ((Qlog2 q < e + 1)%Z)
    by (apply two_pow_lt_inv; by apply Qle_lt_trans with q).
  assert ((e < Qlog2 q + 1)%Z)
    by (apply two_pow_lt_inv; by apply Qle_lt_trans with q).
  lia.
Qed.

Lemma Qlog2_mono (p q : Q) : 0 < p -> p <= q -> (Qlog2 p <= Qlog2 q)%Z.
Proof.
  intros Hp Hpq.
  assert (Hq : 0 < q) by (by apply Qlt_le_trans with p).
  destruct (Qlog2_spec p Hp) as [H1 _]. destruct (Qlog2_spec q Hq) as [_ H2].
  assert ((Qlog2 p < Qlog2 q + 1)%Z); [| lia].
  apply two_pow_lt_inv. apply Qle_lt_trans with p; [done |].
  by apply Qle_lt_trans with q.
Qed.

(** Rounding to the nearest integer, ties to even. *)
Lemma Qrne_comp (x y : Q) : x == y -> Qrne x = Qrne y.
Proof.
  intros H. unfold Qrne.
  assert (Hf : Qfloor x = Qfloor y) by (by rewrite H).
  rewrite Hf.
  assert (Hc : (x - inject_Z (Qfloor y) ?= 1 # 2) = (y - inject_Z (Qfloor y) ?= 1 # 2))
    by (by rewrite H).
  by rewrite Hc.
Qed.

Lemma Qcompare_Lt (x y : Q) : x < y -> (x ?= y) = Lt.
Proof. intros H. destruct (Qcompare_spec x y); [lra | reflexivity | lra]. Qed.

Lemma Qcompare_Gt (x y : Q) : y < x -> (x ?= y) = Gt.
Proof. intros H. destruct (Qcompare_spec x y); [lra | lra | reflexivity]. Qed.

Lemma Qcompare_Eq (x y : Q) : x == y -> (x ?= y) = Eq.
Proof. intros H. destruct (Qcompare_spec x y); [reflexivity | lra | lra]. Qed.

Lemma Qrne_Z (z : Z) : Qrne (inject_Z z) = z.
Proof.
  unfold Qrne. rewrite Qfloor_Z.
  rewrite Qcompare_Lt by lra. reflexivity.
Qed.

Lemma Qrne_floor (x : Q) : (Qfloor x <= Qrne x <= Qfloor x + 1)%Z.
Proof.
  unfold Qrne. destruct (x - inject_Z (Qfloor x) ?= 1 # 2); [| lia | lia].
  destruct (Z.even (Qfloor x)); lia.
Qed.

Lemma Qrne_lower (a : Z) (x : Q) : inject_Z a <= x -> (a <= Qrne x)%Z.
Proof.
  intros H. apply Qfloor_resp_le in H. rewrite Qfloor_Z in H.
  pose proof (Qrne_floor x). lia.
Qed.

Lemma Qrne_upper (b : Z) (x : Q) : x <= inject_Z b -> (Qrne x <= b)%Z.
Proof.
  intros H. pose proof (Qfloor_resp_le _ _ H) as Hf. rewrite Qfloor_Z in Hf.
  pose proof (Qrne_floor x) as Hr.
  destruct (Z.eq_dec (Qfloor x) b) as [Heq | Hne]; [| lia].
  assert (Hx : x == inject_Z b).
  { apply Qle_antisym; [exact H |]. rewrite <- Heq. apply Qfloor_le. }
  rewrite (Qrne_comp _ _ Hx), Qrne_Z. lia.
Qed.

Lemma Qle_bool_comp (a b c d : Q) : a == c -> b == d -> Qle_bool a b = Qle_bool c d.
Proof.
  intros H1 H2. destruct (Qle_bool c d) eqn:H.
  - apply Qle_bool_iff. apply Qle_bool_iff in H. by rewrite H1, H2.
  - apply not_true_is_false. intros H'. apply Qle_bool_iff in H'.
    rewrite H1, H2 in H'. apply Qle_bool_iff in H'. congruence.
Qed.

(** A value whose scaled form is known rounds to itself. *)
Lemma round_pos_eq (q : Q) (k m : Z) :
  Z.max (Qlog2 q - 52) (-1074) = k ->
  q / 2 ^ k == inject_Z m ->
  round_pos q = if Qle_bool (2 ^ 1024) q then None else Some (Qred q).
Proof.
  intros Hk Hm. unfold round_pos. rewrite Hk, (Qrne_comp _ _ Hm), Qrne_Z.
  assert (Hv : inject_Z m * 2 ^ k == q) by (rewrite <- Hm; apply scale_back).
  rewrite (Qle_bool_comp _ _ (2 ^ 1024) q) by done.
  destruct (Qle_bool (2 ^ 1024) q); [reflexivity |].
  f_equal. by apply Qred_complete.
Qed.

Lemma inject_Z_pow52 : inject_Z (2 ^ 52) == 2 ^ 52.
Proof. reflexivity. Qed.

Lemma inject_Z_pow53 : inject_Z (2 ^ 53) == 2 ^ 53.
Proof. reflexivity. Qed.

(** The values [m * 2^k] with at most 53 significant bits and an exponent
    in range are doubles. *)
Lemma round_pos_exact (m k : Z) (v : Q) :
  (0 < m <= 2 ^ 53)%Z -> (-1074 <= k)%Z -> ((2 ^ 52 <= m)%Z \/ k = (-1074)%Z) ->
  v == inject_Z m * 2 ^ k ->
  round_pos v = if Qle_bool (2 ^ 1024) v then None else Some (Qred v).
Proof.
  intros [Hm0 Hm53] Hk Hnorm Hv.
  destruct (Z.log2_spec m Hm0) as [Hj1 Hj2].
  pose proof (Z.log2_nonneg m) as Hj0.
  set (j := Z.log2 m) in *.
  assert (Hlog : Qlog2 v = (j + k)%Z).
  { apply Qlog2_unique. rewrite Hv. split.
    - rewrite two_pow_plus. apply mul_two_pow_le.
      rewrite <- two_pow_Z by done. by rewrite <- Zle_Qle.
    - replace (j + k + 1)%Z with ((j + 1) + k)%Z by lia.
      rewrite two_pow_plus. apply mul_two_pow_lt.
      rewrite <- two_pow_Z by lia. by rewrite <- Zlt_Qlt. }
  assert (Hj53 : (j <= 53)%Z).
  { assert ((2 ^ j < 2 ^ 54)%Z) by lia.
    assert ((j < 54)%Z); [| lia].
    apply (Z.pow_lt_mono_r_iff 2); lia. }
  destruct (Z.eq_dec m (2 ^ 53)%Z) as [-> | Hne].
  - assert (j = 53%Z) as Hj by reflexivity.
    apply (round_pos_eq v (k + 1)%Z (2 ^ 52)%Z).
    + rewrite Hlog, Hj. lia.
    + rewrite Hv, inject_Z_pow53, inject_Z_pow52.
      rewrite <- two_pow_plus, scale_two_pow. by replace (53 + k - (k + 1))%Z with 52%Z by lia.
  - assert (Hj52 : (j <= 52)%Z).
    { assert ((2 ^ j < 2 ^ 53)%Z) by lia.
      assert ((j < 53)%Z); [| lia].
      apply (Z.pow_lt_mono_r_iff 2); lia. }
    apply (round_pos_eq v k m).
    + rewrite Hlog. destruct Hnorm as [Hn | ->]; [| lia].
      assert ((52 <= j)%Z); [| lia].
      assert ((2 ^ 52 < 2 ^ (j + 1))%Z) by lia.
      assert ((52 < j + 1)%Z); [| lia].
      apply (Z.pow_lt_mono_r_iff 2); lia.
    + rewrite Hv. apply scale_pow.
Qed.

(** What [round_pos] returns has that form. *)
Lemma round_pos_form (q v : Q) :
  0 < q -> round_pos q = Some v ->
  exists m k : Z,
    (0 <= m <= 2 ^ 53)%Z /\ (-1074 <= k)%Z /\ ((2 ^ 52 <= m)%Z \/ k = (-1074)%Z)
    /\ k = Z.max (Qlog2 q - 52) (-1074) /\ m = Qrne (q / 2 ^ k)
    /\ v = Qred (inject_Z m * 2 ^ k) /\ inject_Z m * 2 ^ k < 2 ^ 1024.
Proof.
  intros Hq. unfold round_pos.
  set (k := Z.max (Qlog2 q - 52) (-1074)).
  set (m := Qrne (q / 2 ^ k)).
  destruct (Qle_bool (2 ^ 1024) (inject_Z m * 2 ^ k)) eqn:Hov; [discriminate |].
  intros [= <-]. exists m, k.
  destruct (Qlog2_spec q Hq) as [He1 He2].
  assert (Hm0 : (0 <= m)%Z).
  { apply Qrne_lower. change (inject_Z 0) with 0.
    apply Qlt_le_weak, Qlt_shift_div_l; [apply two_pow_pos |]. lra. }
  assert (Hcases : ((2 ^ 52 <= m <= 2 ^ 53)%Z /\ k = (Qlog2 q - 52)%Z)
                   \/ ((m <= 2 ^ 52)%Z /\ k = (-1074)%Z)).
  { destruct (Z.le_gt_cases (-1074)%Z (Qlog2 q - 52)%Z) as [Hn | Hs].
    - left. assert (Hk : k = (Qlog2 q - 52)%Z) by (unfold k; lia).
      split; [| exact Hk]. split.
      + apply Qrne_lower. rewrite inject_Z_pow52.
        apply Qle_trans with (2 ^ Qlog2 q / 2 ^ k); [| by apply scale_le].
        rewrite scale_two_pow. replace (Qlog2 q - k)%Z with 52%Z by lia. apply Qle_refl.
      + apply Qrne_upper. rewrite inject_Z_pow53.
        apply Qle_trans with (2 ^ (Qlog2 q + 1) / 2 ^ k);
          [by apply Qlt_le_weak, scale_lt |].
        rewrite scale_two_pow. replace (Qlog2 q + 1 - k)%Z with 53%Z by lia. apply Qle_refl.
    - right. assert (Hk : k = (-1074)%Z) by (unfold k; lia).
      split; [| exact Hk].
      apply Qrne_upper. rewrite inject_Z_pow52.
      apply Qle_trans with (2 ^ (Qlog2 q + 1) / 2 ^ k);
        [by apply Qlt_le_weak, scale_lt |].
      rewrite scale_two_pow. apply two_pow_le. lia. }
  split; [| split; [| split; [| split; [| split; [| split]]]]];
    try reflexivity.
  - destruct Hcases as [[? ?] | [? ?]]; lia.
  - unfold k. lia.
  - destruct Hcases as [[? ?] | [? ?]]; [left; lia | by right].
  - apply Qnot_le_lt. intros H. apply Qle_bool_iff in H. congruence.
Qed.

Lemma Qred_Qred (q : Q) : Qred (Qred q) = Qred q.
Proof. apply Qred_complete, Qred_correct. Qed.

Lemma Qred_is_zero (q : Q) : q == 0 -> Qred q = 0.
Proof. intros H. by rewrite (Qred_complete _ _ H). Qed.

(** The results of [round_pos] are fixed points of [rnd], and so are their
    opposites. *)
Lemma rnd_round_pos (q v : Q) :
  0 < q -> round_pos q = Some v ->
  0 <= v /\ Qred v = v /\ rnd v = Fin v /\ rnd (- v) = Fin (- v).
Proof.
  intros Hq Hr.
  destruct (round_pos_form q v Hq Hr) as (m & k & [Hm0 Hm53] & Hk & Hnorm & _ & _ & -> & Hov).
  set (v0 := inject_Z m * 2 ^ k) in *.
  assert (Hv0 : 0 <= v0).
  { unfold v0. apply Qmult_le_0_compat; [| apply Qlt_le_weak, two_pow_pos].
    change 0 with (inject_Z 0). by rewrite <- Zle_Qle. }
  split; [by rewrite Qred_correct |]. split; [apply Qred_Qred |].
  destruct (Z.eq_dec m 0%Z) as [Hz | Hnz].
  - assert (Hzero : Qred v0 = 0).
    { apply Qred_is_zero. unfold v0. rewrite Hz. ring. }
    rewrite Hzero. split; reflexivity.
  - assert (Hpos : 0 < v0).
    { unfold v0. apply Qmult_lt_0_compat; [| apply two_pow_pos].
      change 0 with (inject_Z 0). rewrite <- Zlt_Qlt. lia. }
    assert (Hnov : Qle_bool (2 ^ 1024) v0 = false).
    { apply not_true_is_false. intros H. apply Qle_bool_iff in H. lra. }
    assert (Hexact : forall v', v' == v0 -> round_pos v' = Some (Qred v0)).
    { intros v' Hv'. rewrite (round_pos_exact m k v'); [| lia | done | done | done].
      rewrite (Qle_bool_comp _ _ (2 ^ 1024) v0) by done. rewrite Hnov.
      f_equal. by apply Qred_complete. }
    split.
    + unfold rnd. rewrite Qred_Qred.
      assert (Hgt : (Qred v0 ?= 0) = Gt).
      { apply Qcompare_Gt. by rewrite Qred_correct. }
      rewrite Hgt, (Hexact (Qred v0)) by apply Qred_correct. reflexivity.
    + unfold rnd. rewrite Qred_opp, Qred_Qred.
      assert (Hlt : (- Qred v0 ?= 0) = Lt).
      { apply Qcompare_Lt. rewrite Qred_correct. lra. }
      rewrite Hlt, (Hexact (- - Qred v0)); [reflexivity |].
      rewrite Qred_correct. ring.
Qed.

Lemma rnd_Qeq (p q : Q) : p == q -> rnd p = rnd q.
Proof. intros H. unfold rnd. by rewrite (Qred_complete _ _ H). Qed.

Lemma rnd_zero (q : Q) : q == 0 -> rnd q = Fin 0.
Proof. intros H. by rewrite (rnd_Qeq _ _ H). Qed.

(** Rounding is idempotent: its finite results are doubles, in reduced
    form. *)
Lemma rnd_idempotent (q r : Q) : rnd q = Fin r -> Qred r = r /\ rnd r = Fin r.
Proof.
  unfold rnd at 1. destruct (Qcompare_spec (Qred q) 0) as [Hc | Hc | Hc].
  - intros [= <-]. split; reflexivity.
  -
    destruct (round_pos (- Qred q)) as [v |] eqn:Hr; [| discriminate].
    intros [= <-].
    destruct (rnd_round_pos (- Qred q) v) as (_ & Hn & _ & Hfix); [lra | done |].
    split; [| exact Hfix]. by rewrite Qred_opp, Hn.
  - destruct (round_pos (Qred q)) as [v |] eqn:Hr; [| discriminate].
    intros [= <-].
    by destruct (rnd_round_pos (Qred q) v) as (_ & Hn & Hfix & _).
Qed.

(** The sign of the rounded value is the sign of the exact one. *)
Lemma rnd_nonneg (q : Q) :
  0 <= q -> rnd q = PInf \/ exists r, rnd q = Fin r /\ 0 <= r.
Proof.
  intros Hq. unfold rnd. destruct (Qcompare_spec (Qred q) 0) as [Hc | Hc | Hc].
  - right. exists 0. split; [reflexivity | lra].
  - rewrite Qred_correct in Hc. lra.
  - destruct (round_pos (Qred q)) as [v |] eqn:Hr; [| by left].
    right. exists v. split; [reflexivity |].
    by destruct (rnd_round_pos (Qred q) v) as (Hv & _).
Qed.

(** Rounding does not cross a double: below a double, the rounded value
    stays below it. *)
Lemma rnd_le_double (q d : Q) :
  0 < q -> q <= d -> rnd d = Fin d ->
  exists r, rnd q = Fin r /\ 0 <= r <= d.
Proof.
  intros Hq Hqd Hd.
  assert (Hdpos : 0 < d) by lra.
  assert (Hdr : round_pos (Qred d) = Some d).
  { unfold rnd in Hd.
    assert (Hgt : (Qred d ?= 0) = Gt) by (apply Qcompare_Gt; by rewrite Qred_correct).
    rewrite Hgt in Hd. destruct (round_pos (Qred d)); [by injection Hd as -> | discriminate]. }
  destruct (round_pos_form (Qred d) d) as (md & kd & _ & _ & _ & Hkd & _ & Hdv & Hdov);
    [by rewrite Qred_correct | done |].
  assert (Hdval : d == inject_Z md * 2 ^ kd) by (rewrite Hdv at 1; apply Qred_correct).
  unfold rnd.
  assert (Hgt : (Qred q ?= 0) = Gt) by (apply Qcompare_Gt; by rewrite Qred_correct).
  rewrite Hgt. unfold round_pos.
  set (k := Z.max (Qlog2 (Qred q) - 52) (-1074)).
  set (m := Qrne (Qred q / 2 ^ k)).
  assert (Hkk : (k <= kd)%Z).
  { unfold k. rewrite Hkd.
    assert ((Qlog2 (Qred q) <= Qlog2 (Qred d))%Z); [| lia].
    apply Qlog2_mono; rewrite !Qred_correct; done. }
  assert (HD : d / 2 ^ k == inject_Z (md * 2 ^ (kd - k))).
  { rewrite inject_Z_mult, two_pow_Z by lia.
    rewrite Hdval. unfold Qdiv. rewrite <- Qmult_assoc.
    apply Qmult_comp; [reflexivity |].
    apply scale_two_pow. }
  assert (Hm : (m <= md * 2 ^ (kd - k))%Z).
  { apply Qrne_upper. rewrite <- HD, Qred_correct. by apply scale_le. }
  assert (Hm0 : (0 <= m)%Z).
  { apply Qrne_lower. change (inject_Z 0) with 0. rewrite Qred_correct.
    apply Qlt_le_weak, Qlt_shift_div_l; [apply two_pow_pos |]. lra. }
  assert (Hval : inject_Z m * 2 ^ k <= d).
  { apply Qle_trans with (inject_Z (md * 2 ^ (kd - k)) * 2 ^ k).
    - apply mul_two_pow_le. by rewrite <- Zle_Qle.
    - rewrite <- HD. rewrite scale_back. apply Qle_refl. }
  assert (Hnov : Qle_bool (2 ^ 1024) (inject_Z m * 2 ^ k) = false).
  { apply not_true_is_false. intros H. apply Qle_bool_iff in H. lra. }
  rewrite Hnov. eexists. split; [reflexivity |].
  rewrite Qred_correct. split; [| exact Hval].
  apply Qmult_le_0_compat; [| apply Qlt_le_weak, two_pow_pos].
  change 0 with (inject_Z 0). by rewrite <- Zle_Qle.
Qed.

Lemma Qred_inject_Z (z : Z) : Qred (inject_Z z) = inject_Z z.
Proof. apply Qcanon.Qred_identity. simpl. apply Z.gcd_1_r. Qed.

(** Integers of at most 53 bits are doubles. *)
Lemma rnd_small_int (z : Z) : (Z.abs z <= 2 ^ 53)%Z -> rnd (inject_Z z) = Fin (inject_Z z).
Proof.
  intros Hz.
  assert (Hpos : forall p : Z, (0 < p <= 2 ^ 53)%Z ->
            round_pos (inject_Z p) = Some (inject_Z p)).
  { intros p [Hp0 Hp53].
    destruct (Z.log2_spec p Hp0) as [Hj1 Hj2].
    pose proof (Z.log2_nonneg p) as Hj0. set (j := Z.log2 p) in *.
    assert (Hj53 : (j <= 53)%Z).
    { assert ((2 ^ j < 2 ^ 54)%Z) by lia.
      assert ((j < 54)%Z); [| lia].
      apply (Z.pow_lt_mono_r_iff 2); lia. }
    assert (Hnov : Qle_bool (2 ^ 1024) (inject_Z p) = false).
    { apply not_true_is_false. intros H. apply Qle_bool_iff in H.
      assert (inject_Z p <= 2 ^ 53) by (rewrite <- inject_Z_pow53; by rewrite <- Zle_Qle).
      assert (2 ^ 53 < 2 ^ 1024) by (by apply two_pow_lt). lra. }
    destruct (Z.eq_dec p (2 ^ 53)%Z) as [-> | Hne].
    - rewrite (round_pos_exact (2 ^ 53)%Z 0%Z _); [| lia | lia | left; lia |].
      + rewrite Hnov. by rewrite Qred_inject_Z.
      + change (2 ^ 0) with 1. ring.
    - assert (Hj52 : (j <= 52)%Z).
      { assert ((2 ^ j < 2 ^ 53)%Z) by lia.
        assert ((j < 53)%Z); [| lia].
        apply (Z.pow_lt_mono_r_iff 2); lia. }
      rewrite (round_pos_exact (p * 2 ^ (52 - j))%Z (j - 52)%Z _).
      + rewrite Hnov. by rewrite Qred_inject_Z.
      + split; [apply Z.mul_pos_pos; lia |].
        apply Z.le_trans with (2 ^ (j + 1) * 2 ^ (52 - j))%Z.
        * apply Z.mul_le_mono_nonneg_r; lia.
        * rewrite <- Z.pow_add_r by lia. by replace (j + 1 + (52 - j))%Z with 53%Z by lia.
      + lia.
      + left. apply Z.le_trans with (2 ^ j * 2 ^ (52 - j))%Z.
        * rewrite <- Z.pow_add_r by lia. by replace (j + (52 - j))%Z with 52%Z by lia.
        * apply Z.mul_le_mono_nonneg_r; lia.
      + rewrite inject_Z_mult, two_pow_Z by lia.
        rewrite <- Qmult_assoc, <- two_pow_plus.
        replace (52 - j + (j - 52))%Z with 0%Z by lia. change (2 ^ 0) with 1. ring. }
  unfold rnd. rewrite Qred_inject_Z.
  destruct (Z.lt_trichotomy z 0) as [Hneg | [-> | Hp]].
  - rewrite Qcompare_Lt by (change 0 with (inject_Z 0); by rewrite <- Zlt_Qlt).
    change (- inject_Z z) with (inject_Z (- z)).
    rewrite Hpos by lia. unfold inject_Z, Qopp. simpl. by rewrite Z.opp_involutive.
  - reflexivity.
  - rewrite Qcompare_Gt by (change 0 with (inject_Z 0); by rewrite <- Zlt_Qlt).
    by rewrite Hpos by lia.
Qed.

(** So are the products of such an integer by a power of two, while the
    exponent stays in range. *)
Lemma round_pos_small_dyadic (p i : Z) (v : Q) :
  (0 < p <= 2 ^ 53)%Z -> (-1022 <= i <= 900)%Z -> v == inject_Z p * 2 ^ i ->
  round_pos v = Some (Qred v).
Proof.
  intros [Hp0 Hp53] [Hi1 Hi2] Hv.
  destruct (Z.log2_spec p Hp0) as [Hj1 Hj2].
  pose proof (Z.log2_nonneg p) as Hj0. set (j := Z.log2 p) in *.
  assert (Hnov : Qle_bool (2 ^ 1024) v = false).
  { apply not_true_is_false. intros H. apply Qle_bool_iff in H.
    assert (inject_Z p <= 2 ^ 53) by (rewrite <- inject_Z_pow53; by rewrite <- Zle_Qle).
    assert (v <= 2 ^ 53 * 2 ^ i) by (rewrite Hv; by apply mul_two_pow_le).
    assert (2 ^ 53 * 2 ^ i < 2 ^ 1024).
    { rewrite <- two_pow_plus. apply two_pow_lt. lia. }
    lra. }
  destruct (Z.eq_dec p (2 ^ 53)%Z) as [-> | Hne].
  - rewrite (round_pos_exact (2 ^ 53)%Z i v); [| lia | lia | left; lia | done].
    by rewrite Hnov.
  - assert (Hj52 : (j <= 52)%Z).
    { assert ((2 ^ j < 2 ^ 53)%Z) by lia.
      assert ((j < 53)%Z); [| lia].
      apply (Z.pow_lt_mono_r_iff 2); lia. }
    rewrite (round_pos_exact (p * 2 ^ (52 - j))%Z (i + j - 52)%Z v).
    + by rewrite Hnov.
    + split; [apply Z.mul_pos_pos; lia |].
      apply Z.le_trans with (2 ^ (j + 1) * 2 ^ (52 - j))%Z.
      * apply Z.mul_le_mono_nonneg_r; lia.
      * rewrite <- Z.pow_add_r by lia. by replace (j + 1 + (52 - j))%Z with 53%Z by lia.
    + lia.
    + left. apply Z.le_trans with (2 ^ j * 2 ^ (52 - j))%Z.
      * rewrite <- Z.pow_add_r by lia. by replace (j + (52 - j))%Z with 52%Z by lia.
      * apply Z.mul_le_mono_nonneg_r; lia.
    + rewrite Hv, inject_Z_mult, two_pow_Z by lia.
      rewrite <- Qmult_assoc, <- two_pow_plus.
      by replace (52 - j + (i + j - 52))%Z with i by lia.
Qed.

Lemma rnd_small_dyadic (z i : Z) :
  (Z.abs z <= 2 ^ 53)%Z -> (-1022 <= i <= 900)%Z ->
  exists d, rnd (inject_Z z * 2 ^ i) = Fin d /\ d == inject_Z z * 2 ^ i.
Proof.
  intros Hz Hi. set (q := inject_Z z * 2 ^ i).
  destruct (Z.lt_trichotomy z 0) as [Hneg | [Hzero | Hp]].
  - assert (Hq : q < 0).
    { unfold q. apply Qlt_le_trans with (0 * 2 ^ i); [| rewrite Qmult_0_l; apply Qle_refl].
      apply mul_two_pow_lt. change 0 with (inject_Z 0). by rewrite <- Zlt_Qlt. }
    unfold rnd. rewrite Qcompare_Lt by (by rewrite Qred_correct).
    rewrite (round_pos_small_dyadic (- z) i); [| lia | done |].
    + eexists. split; [reflexivity |]. rewrite !Qred_correct. ring.
    + rewrite Qred_correct. unfold q. rewrite inject_Z_opp. ring.
  - exists 0. split; [| unfold q; rewrite Hzero; ring].
    apply rnd_zero. unfold q. rewrite Hzero. ring.
  - assert (Hq : 0 < q).
    { unfold q. apply Qle_lt_trans with (0 * 2 ^ i); [rewrite Qmult_0_l; apply Qle_refl |].
      apply mul_two_pow_lt. change 0 with (inject_Z 0). by rewrite <- Zlt_Qlt. }
    unfold rnd. rewrite Qcompare_Gt by (by rewrite Qred_correct).
    rewrite (round_pos_small_dyadic z i); [| lia | done | apply Qred_correct].
    eexists. split; [reflexivity |]. by rewrite !Qred_correct.
Qed.

End RoundingFacts.

(** ** The monad *)

Lemma bind_ret_l {A B} (a : A) (f : A -> M B) : bind (ret a) f = f a.
Proof. unfold bind, ret. destruct (f a) as [w r]. reflexivity. Qed.

Lemma bind_ret_r {A} (m : M A) : bind m ret = m.
Proof.
  destruct m as [w [a | e]]; simpl; [| reflexivity].
  by rewrite app_nil_r.
Qed.

Lemma bind_raise {A B} (e : exn) (f : A -> M B) : bind (raise e) f = raise e.
Proof. reflexivity. Qed.

Lemma bind_assoc {A B C} (m : M A) (f : A -> M B) (g : B -> M C) :
  bind (bind m f) g = bind m (fun a => bind (f a) g).
Proof.
  destruct m as [w [a | e]]; simpl; [| reflexivity].
  destruct (f a) as [w1 [b | e]]; simpl; [| reflexivity].
  destruct (g b) as [w2 r]. by rewrite app_assoc.
Qed.

Lemma bind_ext {A B} (m : M A) (f g : A -> M B) :
  (forall a, f a = g a) -> bind m f = bind m g.
Proof. intros Hfg. destruct m as [w [a | e]]; simpl; [by rewrite Hfg | reflexivity]. Qed.

Lemma mapM_ext {A B} (f g : A -> M B) (l : list A) :
  (forall a, f a = g a) -> mapM f l = mapM g l.
Proof.
  intros Hfg. induction l as [| a l IH]; simpl; [reflexivity |].
  by rewrite Hfg, IH.
Qed.

Lemma mapM_ret {A B} (f : A -> B) (l : list A) :
  mapM (fun a => ret (f a)) l = ret (map f l).
Proof.
  induction l as [| a l IH]; simpl; [reflexivity |].
  by rewrite IH, !bind_ret_l.
Qed.

(** ** Ranges and slices *)

Lemma length_range (n : Z) : length (range n) = Z.to_nat n.
Proof. unfold range. by rewrite length_map, length_seq. Qed.

Lemma lookup_range (n : Z) (i : nat) :
  (i < Z.to_nat n)%nat -> range n !! i = Some (Z.of_nat i).
Proof.
  intros Hi. unfold range. rewrite list_lookup_fmap, lookup_seq_lt by done.
  reflexivity.
Qed.

(** Within bounds a slice [l[i:i+w]] is the [w] elements that start at
    position [i]. *)
Lemma py_slice_window {A} (l : list A) (i w : Z) :
  0 <= i -> 0 <= w -> i + w <= Z.of_nat (length l) ->
  py_slice l i (i + w) = take (Z.to_nat w) (drop (Z.to_nat i) l)
  /\ length (py_slice l i (i + w)) = Z.to_nat w.
Proof.
  intros Hi Hw Hlen. unfold py_slice, slice_bound.
  destruct (Z.ltb_spec i 0); [lia |].
  destruct (Z.ltb_spec (i + w) 0); [lia |].
  rewrite !Z.min_l by lia.
  replace (i + w - i) with w by lia.
  split; [reflexivity |].
  rewrite length_take, length_drop. lia.
Qed.


(** ** MovingMedian.apply *)

Section MovingFacts.

Variable np_mean : list pyfloat -> pyfloat.

(** C5. An input strictly shorter than [width] is returned unchanged,
    whatever the ratio (which is not even read). *)
Theorem C5_short_input_unchanged (self : obj) (l : list pyfloat) (w : Z) :
  attrs self !! "input"%string = Some (VList l) ->
  attrs self !! "width"%string = Some (VInt w) ->
  Z.of_nat (length l) < w ->
  MovingMedian_apply np_mean self = ret (VList l).
Proof.
  intros Hin Hw Hlt. unfold MovingMedian_apply, getattr.
  rewrite Hin, bind_ret_l. simpl py_len. rewrite bind_ret_l, Hw, bind_ret_l.
  simpl py_int_lt. rewrite bind_ret_l.
  destruct (Z.ltb_spec (Z.of_nat (length l)) w); [reflexivity | lia].
Qed.

(** The blocks of C3 and C4 share the evaluation up to the test on the
    ratio. *)
Lemma MovingMedian_apply_long (self : obj) (l : list pyfloat) (w : Z) (r : value) :
  attrs self !! "input"%string = Some (VList l) ->
  attrs self !! "width"%string = Some (VInt w) ->
  attrs self !! "ratio"%string = Some r ->
  w <= Z.of_nat (length l) ->
  MovingMedian_apply np_mean self =
    let n := Z.of_nat (length l) in
    if py_eq_int r 1 then
      ret (VList (map (fun i => np_median np_mean (py_slice l i (i + w))) (range (n - w))))
    else
      output <- mapM (fun i =>
          let currentBlock := np_sort (py_slice l i (i + w)) in
          cut <- getattr self "cutExtrema" ;;
          pos <- py_gt_int cut 0 ;;
          if pos then
            c <- py_index cut ;;
            ret (np_mean (py_slice currentBlock c (- c)))
          else ret (np_mean currentBlock))
        (range (n - w)) ;;
      ret (VList output).
Proof.
  intros Hin Hw Hr Hle. unfold MovingMedian_apply, getattr.
  rewrite Hin, bind_ret_l. simpl py_len. rewrite bind_ret_l, Hw, bind_ret_l.
  simpl py_int_lt. rewrite bind_ret_l.
  destruct (Z.ltb_spec (Z.of_nat (length l)) w); [lia |].
  rewrite Hr, bind_ret_l. cbv zeta.
  destruct (py_eq_int r 1).
  - simpl py_index. rewrite bind_ret_l.
    rewrite (mapM_ext _ (fun i => ret (np_median np_mean (py_slice l i (i + w))))).
    + by rewrite mapM_ret, bind_ret_l.
    + intros i. simpl py_seq. by rewrite bind_ret_l.
  - simpl py_index. rewrite bind_ret_l. f_equal.
    apply mapM_ext. intros i. simpl py_seq. by rewrite bind_ret_l.
Qed.


(** The trimming branch, for an integer [cutExtrema]. *)
Lemma MovingMedian_apply_trimming (self : obj) (l : list pyfloat) (w c : Z) (r : value) :
  attrs self !! "input"%string = Some (VList l) ->
  attrs self !! "width"%string = Some (VInt w) ->
  attrs self !! "ratio"%string = Some r ->
  attrs self !! "cutExtrema"%string = Some (VInt c) ->
  py_eq_int r 1 = false ->
  w <= Z.of_nat (length l) ->
  MovingMedian_apply np_mean self
  = ret (VList (map (fun i => trimmed_mean np_mean c (py_slice l i (i + w)))
                  (range (Z.of_nat (length l) - w)))).
Proof.
  intros Hin Hw Hr Hc Hne Hle.
  rewrite (MovingMedian_apply_long self l w r) by done. cbv zeta. rewrite Hne.
  rewrite (mapM_ext _ (fun i => ret (trimmed_mean np_mean c (py_slice l i (i + w))))).
  - by rewrite mapM_ret, bind_ret_l.
  - intros i. unfold getattr. rewrite Hc, bind_ret_l. simpl py_gt_int.
    rewrite bind_ret_l. unfold trimmed_mean.
    destruct (0 <? c); [| reflexivity]. simpl py_index. by rewrite bind_ret_l.
Qed.

(** C3. With [ratio == 1] and an input of length [L >= width], the output
    is the list of the medians of the windows [input[i:i+width]] for [i]
    from [0] to [L - width - 1]: [L - width] values, not [L - width + 1];
    for a non-negative width each window is made of [width] consecutive
    elements. *)
Theorem C3_ratio_one_window_medians (self : obj) (l : list pyfloat) (w : Z) (r : value) :
  attrs self !! "input"%string = Some (VList l) ->
  attrs self !! "width"%string = Some (VInt w) ->
  attrs self !! "ratio"%string = Some r ->
  py_eq_int r 1 = true ->
  w <= Z.of_nat (length l) ->
  exists out : list pyfloat,
    MovingMedian_apply np_mean self = ret (VList out)
    /\ Z.of_nat (length out) = Z.of_nat (length l) - w
    /\ length out <> Z.to_nat (Z.of_nat (length l) - w + 1)
    /\ (forall i : nat, (i < length out)%nat ->
          out !! i = Some (np_median np_mean (py_slice l (Z.of_nat i) (Z.of_nat i + w))))
    /\ (0 <= w -> forall i : nat, (i < length out)%nat ->
          py_slice l (Z.of_nat i) (Z.of_nat i + w) = take (Z.to_nat w) (drop i l)
          /\ length (py_slice l (Z.of_nat i) (Z.of_nat i + w)) = Z.to_nat w).
Proof.
  intros Hin Hw Hr Hone Hle.
  exists (map (fun i => np_median np_mean (py_slice l i (i + w)))
            (range (Z.of_nat (length l) - w))).
  assert (Hlen : length (map (fun i => np_median np_mean (py_slice l i (i + w)))
                         (range (Z.of_nat (length l) - w)))
                 = Z.to_nat (Z.of_nat (length l) - w))
    by (by rewrite length_map, length_range).
  rewrite Hlen. repeat split.
  - rewrite (MovingMedian_apply_long self l w r) by done.
    cbv zeta. by rewrite Hone.
  - lia.
  - lia.
  - intros i Hi. rewrite list_lookup_fmap, lookup_range by done. reflexivity.
  - destruct (py_slice_window l (Z.of_nat i) w) as [Heq _]; [lia.. |].
    by rewrite Heq, Nat2Z.id.
  - by destruct (py_slice_window l (Z.of_nat i) w) as [_ Hl]; [lia.. |].
Qed.

End MovingFacts.

(** ** The centering filters *)

Lemma centering_apply_nonempty stat (self : obj) (l : list pyfloat) (m : pyfloat) :
  attrs self !! "input"%string = Some (VList l) ->
  l <> [] ->
  stat l = ret m ->
  centering_apply stat self = ret (VList (map (fun x => fsub x m) l)).
Proof.
  intros Hin Hne Hstat. unfold centering_apply, getattr.
  rewrite Hin, bind_ret_l.
  destruct l as [| x l]; [done |].
  simpl truthy. simpl py_seq. by rewrite bind_ret_l, Hstat, bind_ret_l.
Qed.

Lemma centering_apply_falsy stat (self : obj) (input : value) :
  attrs self !! "input"%string = Some input ->
  truthy input = false ->
  centering_apply stat self = ret VNone.
Proof.
  intros Hin Hf. unfold centering_apply, getattr.
  by rewrite Hin, bind_ret_l, Hf.
Qed.

(** The order of floats that are not NaN. *)
Lemma flt_irrefl (x : pyfloat) : flt x x = false.
Proof.
  destruct x as [a | | |]; try reflexivity. simpl.
  apply negb_false_iff, Qle_bool_iff, Qle_refl.
Qed.

Lemma flt_false_trans (x y z : pyfloat) :
  is_nan x = false -> is_nan y = false -> is_nan z = false ->
  flt y x = false -> flt z y = false -> flt z x = false.
Proof.
  destruct x as [a | | |], y as [b | | |], z as [c | | |]; simpl;
    try done; intros _ _ _ Hab Hbc.
  apply negb_false_iff, Qle_bool_iff in Hab, Hbc.
  apply negb_false_iff, Qle_bool_iff. by apply Qle_trans with b.
Qed.

Lemma flt_true_false (x y : pyfloat) : flt x y = true -> flt y x = false.
Proof.
  destruct x as [a | | |], y as [b | | |]; simpl; try done.
  intros H. apply negb_true_iff in H. apply negb_false_iff, Qle_bool_iff.
  destruct (Qlt_le_dec a b) as [Hlt | Hge]; [by apply Qlt_le_weak |].
  apply Qle_bool_iff in Hge. congruence.
Qed.

(** On floats without NaN the result of [min] is an element of the list
    that no element is below. *)
Lemma py_min_from_least_any (l : list pyfloat) :
  forall m : pyfloat,
    is_nan m = false ->
    Forall (fun x => is_nan x = false) l ->
    let r := py_min_from m l in
    is_nan r = false /\ (r = m \/ In r l)
    /\ flt m r = false /\ (forall a, In a l -> flt a r = false).
Proof.
  induction l as [| x l IH]; intros m Hm Hl; cbn zeta.
  - simpl. split; [done |]. split; [by left |]. split; [apply flt_irrefl | tauto].
  - apply Forall_cons in Hl as [Hx Hl].
    unfold py_min_from. simpl fold_left.
    fold (py_min_from (if flt x m then x else m) l).
    destruct (flt x m) eqn:Hxm.
    + destruct (IH x Hx Hl) as (Hr & Hmem & Hle & Hall).
      split; [done |]. split; [| split].
      * right. destruct Hmem as [-> | Hmem]; [by left | by right].
      * apply (flt_false_trans _ x); try done. by apply flt_true_false.
      * intros a [<- | Ha]; [done | by apply Hall].
    + destruct (IH m Hm Hl) as (Hr & Hmem & Hle & Hall).
      split; [done |]. split; [| split; [done |]].
      * destruct Hmem as [-> | Hmem]; [by left | right; by right].
      * intros a [<- | Ha]; [| by apply Hall].
        by apply (flt_false_trans _ m).
Qed.

Lemma py_min_least_any (l : list pyfloat) :
  l <> [] ->
  Forall (fun x => is_nan x = false) l ->
  exists m, py_min l = Some m /\ In m l /\ (forall a, In a l -> flt a m = false).
Proof.
  intros Hne Hl. destruct l as [| x l]; [done |].
  apply Forall_cons in Hl as [Hx Hl].
  destruct (py_min_from_least_any l x Hx Hl) as (Hr & Hmem & Hle & Hall).
  exists (py_min_from x l). split; [reflexivity |]. split.
  - destruct Hmem as [-> | Hmem]; [by left | by right].
  - intros a [<- | Ha]; [done | by apply Hall].
Qed.

(** On a list of finite floats it is the least of their values. *)
Lemma py_min_least (l : list pyfloat) :
  l <> [] ->
  Forall (fun x => is_finite x = true) l ->
  exists q, py_min l = Some (Fin q) /\ In (Fin q) l
    /\ (forall a, In (Fin a) l -> (q <= a)%Q).
Proof.
  intros Hne Hfin.
  assert (Hnan : Forall (fun x => is_nan x = false) l).
  { eapply Forall_impl; [exact Hfin |]. by intros [a | | |]. }
  destruct (py_min_least_any l Hne Hnan) as (m & Hmin & Hmem & Hleast).
  assert (Hm : is_finite m = true).
  { by apply (proj1 (Forall_forall _ _) Hfin), list_elem_of_In. }
  destruct m as [q | | |]; try done.
  exists q. split; [done |]. split; [done |].
  intros a Ha. specialize (Hleast _ Ha). simpl in Hleast.
  by apply negb_false_iff, Qle_bool_iff in Hleast.
Qed.

Section CenteringFacts.

Variable np_mean : list pyfloat -> pyfloat.

(** C6. On a non-empty list each centering filter returns, element by
    element, the input minus the median, the mean or the minimum of the
    whole input (without NaN the result of [min] is an element that no
    element is below, on finite floats the least of their values); on an
    empty list or any other false input each returns [None] and raises
    nothing; [MeanCentering] maps [1,2,3,4,5], whose mean is 3, to
    [-2,-1,0,1,2]. *)
Theorem C6_centering (self : obj) (input : value) :
  attrs self !! "input"%string = Some input ->
  (forall l : list pyfloat, input = VList l -> l <> [] ->
     MedianCentering_apply np_mean self
     = ret (VList (map (fun x => fsub x (np_median np_mean l)) l))
     /\ MeanCentering_apply np_mean self
        = ret (VList (map (fun x => fsub x (np_mean l)) l))
     /\ (exists m, py_min l = Some m
           /\ MinCentering_apply self = ret (VList (map (fun x => fsub x m) l))
           /\ (Forall (fun x => is_nan x = false) l ->
                 In m l /\ forall a, In a l -> flt a m = false)
           /\ (Forall (fun x => is_finite x = true) l ->
                 exists q, m = Fin q /\ In (Fin q) l
                   /\ forall a, In (Fin a) l -> (q <= a)%Q))
     /\ (forall stat, length (map (fun x => fsub x stat) l) = length l)
     /\ (forall stat (i : nat) x, l !! i = Some x ->
           map (fun x => fsub x stat) l !! i = Some (fsub x stat)))
  /\ (truthy input = false ->
        MedianCentering_apply np_mean self = ret VNone
        /\ MeanCentering_apply np_mean self = ret VNone
        /\ MinCentering_apply self = ret VNone)
  /\ (input = VList (map of_int [1; 2; 3; 4; 5]) ->
      np_mean (map of_int [1; 2; 3; 4; 5]) = of_int 3 ->
        MeanCentering_apply np_mean self = ret (VList (map of_int [-2; -1; 0; 1; 2]))).
Proof.
  intros Hin. split; [| split].
  - intros l -> Hne. repeat split.
    + by apply centering_apply_nonempty.
    + by apply centering_apply_nonempty.
    + destruct (py_min l) as [m |] eqn:Hmin; [| by destruct l].
      exists m. split; [done |]. split; [| split].
      * unfold MinCentering_apply.
        apply centering_apply_nonempty; [done | done | by rewrite Hmin].
      * intros Hnan.
        destruct (py_min_least_any l Hne Hnan) as (m' & Hm' & Hmem & Hleast).
        rewrite Hmin in Hm'. injection Hm' as <-. done.
      * intros Hfin.
        destruct (py_min_least l Hne Hfin) as (q & Hq & Hmem & Hleast).
        exists q. rewrite Hmin in Hq. injection Hq as ->. done.
    + intros stat. by rewrite length_map.
    + intros stat i x Hi. by rewrite list_lookup_fmap, Hi.
  - intros Hf. repeat split; by apply centering_apply_falsy with input.
  - intros -> Hmean. unfold MeanCentering_apply.
    rewrite (centering_apply_nonempty _ self (map of_int [1; 2; 3; 4; 5])
               (np_mean (map of_int [1; 2; 3; 4; 5]))); [| done | done | done].
    rewrite Hmean. vm_compute. reflexivity.
Qed.

End CenteringFacts.

(** ** Sorting *)

Lemma sort_insert_perm (x : pyfloat) (l : list pyfloat) : sort_insert x l ≡ₚ x :: l.
Proof.
  induction l as [| y l IH]; simpl; [reflexivity |].
  destruct (sort_le x y); [reflexivity |].
  rewrite IH. apply Permutation_swap.
Qed.

Lemma np_sort_perm (l : list pyfloat) : np_sort l ≡ₚ l.
Proof.
  induction l as [| x l IH]; simpl; [reflexivity |].
  by rewrite sort_insert_perm, IH.
Qed.

(** ** The [userParams] setter and the constructors *)

Section FilterFacts.

Variable object_hasattr : string -> bool.
Variable np_mean : list pyfloat -> pyfloat.

Lemma set_field_set_field (self : obj) (a : string) (v v' : value) :
  set_field (set_field self a v) a v' = set_field self a v'.
Proof. unfold set_field. simpl. by rewrite insert_insert_eq. Qed.

Lemma set_field_id (self : obj) (a : string) (v : value) :
  attrs self !! a = Some v -> set_field self a v = self.
Proof.
  intros H. destruct self as [c m]. unfold set_field. simpl in *.
  by rewrite insert_id.
Qed.

Lemma hasattr_set_field (self : obj) (a b : string) (v : value) :
  is_Some (attrs self !! a) ->
  hasattr object_hasattr (set_field self a v) b = hasattr object_hasattr self b.
Proof.
  intros Ha.
  assert (Hiff : forall c, is_Some (attrs (set_field self a v) !! c)
                           <-> is_Some (attrs self !! c)).
  { intros c. simpl. destruct (decide (a = c)) as [<- | Hne].
    - rewrite lookup_insert_eq. split; [done | by eexists].
    - by rewrite lookup_insert_ne. }
  unfold hasattr.
  rewrite (bool_decide_ext _ _ (Hiff "_userParams"%string)).
  by rewrite (bool_decide_ext _ _ (Hiff b)).
Qed.

(** The loop registers exactly the items whose name is an attribute. *)
Lemma register_params_spec (items : list (string * ptype)) :
  forall (self : obj) (u : gmap string ptype),
    NoDup items.*1 ->
    attrs self !! "_userParams"%string = Some (VDict u) ->
    register_params object_hasattr self items =
      ret (set_field self "_userParams"
             (VDict (base.filter (fun kv => hasattr object_hasattr self kv.1)
                       (list_to_map items : gmap string ptype) ∪ u))).
Proof.
  induction items as [| [k t] items IH]; intros self u Hnd Hu.
  - simpl. rewrite map_filter_empty, (left_id_L ∅ (∪)).
    by rewrite set_field_id.
  - apply NoDup_cons in Hnd as [Hk Hnd].
    assert (Hnone : (list_to_map items : gmap string ptype) !! k = None)
      by (by apply not_elem_of_list_to_map_1).
    simpl register_params. simpl list_to_map.
    destruct (hasattr object_hasattr self k) eqn:Hattr.
    + unfold getattr. rewrite Hu, bind_ret_l.
      rewrite (IH _ (<[k := t]> u)); [| done | by simpl; rewrite lookup_insert_eq].
      rewrite set_field_set_field. do 3 f_equal.
      assert (Hext : base.filter
                (fun kv : string * ptype =>
                   hasattr object_hasattr (set_field self "_userParams" (VDict (<[k := t]> u))) kv.1)
                (list_to_map items : gmap string ptype)
              = base.filter (fun kv : string * ptype => hasattr object_hasattr self kv.1)
                  (list_to_map items)).
      { apply map_filter_ext. intros i x _. simpl.
        by rewrite hasattr_set_field. }
      rewrite Hext.
      rewrite map_filter_insert_True by (simpl; by rewrite Hattr).
      rewrite <- insert_union_l.
      rewrite <- insert_union_r; [done |].
      rewrite map_lookup_filter_None. by left.
    + rewrite (IH _ u) by done. do 3 f_equal.
      rewrite map_filter_insert_False.
      * by rewrite delete_id.
      * simpl. rewrite Hattr. intros Hf. exact Hf.
Qed.

Lemma Filter_userParams_setter_spec (self : obj) (d u : gmap string ptype) :
  attrs self !! "_userParams"%string = Some (VDict u) ->
  Filter_userParams_setter object_hasattr self (VDict d) =
    ret (set_field self "_userParams"
           (VDict (base.filter (fun kv => hasattr object_hasattr self kv.1) d ∪ u))).
Proof.
  intros Hu. unfold Filter_userParams_setter.
  rewrite (register_params_spec _ self u); [| apply NoDup_fst_map_to_list | done].
  by rewrite list_to_map_to_list.
Qed.

(** C9. Registering user parameters on an initialised filter raises nothing,
    prints nothing and writes only [_userParams]: a name that is not an
    attribute of the filter is not entered (the mapping keeps what it had
    under that name), a name that is an attribute is entered with its
    declared type, and when no name is an attribute the filter is left
    exactly as it was. *)
Theorem C9_undeclared_names_ignored (self : obj) (d u : gmap string ptype) :
  attrs self !! "_userParams"%string = Some (VDict u) ->
  exists u' : gmap string ptype,
    Filter_userParams_setter object_hasattr self (VDict d)
      = ([], Ok (set_field self "_userParams" (VDict u')))
    /\ (forall name, hasattr object_hasattr self name = false -> u' !! name = u !! name)
    /\ (forall name t, hasattr object_hasattr self name = true -> d !! name = Some t ->
          u' !! name = Some t)
    /\ (forall name, d !! name = None -> u' !! name = u !! name)
    /\ ((forall name, is_Some (d !! name) -> hasattr object_hasattr self name = false) ->
          Filter_userParams_setter object_hasattr self (VDict d) = ([], Ok self)).
Proof.
  intros Hu.
  exists (base.filter (fun kv => hasattr object_hasattr self kv.1) d ∪ u).
  split; [by apply Filter_userParams_setter_spec |].
  split; [| split; [| split]].
  - intros a Ha. apply lookup_union_r.
    rewrite map_lookup_filter_None. right. intros x _. simpl.
    rewrite Ha. intros Hf. exact Hf.
  - intros a t Ha Hd. apply lookup_union_Some_l.
    rewrite map_lookup_filter_Some. split; [done |]. simpl. by rewrite Ha.
  - intros a Hd. apply lookup_union_r.
    rewrite map_lookup_filter_None. by left.
  - intros Hall. rewrite (Filter_userParams_setter_spec self d u Hu).
    assert (Hempty : base.filter (fun kv : string * ptype => hasattr object_hasattr self kv.1) d = ∅).
    { apply map_empty_filter_2. intros a x Hd. simpl.
      rewrite (Hall a) by (by eexists). intros Hf. exact Hf. }
    rewrite Hempty, (left_id_L ∅ (∪)). unfold ret. by rewrite set_field_id.
Qed.

(** *** Construction *)



Lemma MovingMedian_init_spec (c : cls) (i w r p h cut : value) :
  py_mul w r = ret p ->
  py_truediv_lit p 2 = ret h ->
  py_int h = ret cut ->
  MovingMedian_init object_hasattr (new c) i w r
  = ret {| klass := c;
           attrs := <["_userParams"%string := VDict mm_params]>
                      (<["cutExtrema"%string := cut]>
                         (<["ratio"%string := r]>
                            (<["width"%string := w]>
                               (<["input"%string := i]>
                                  (<["_userParams"%string := VDict ∅]> ∅))))) |}.
Proof.
  intros Hp Hh Hcut.
  unfold MovingMedian_init, Filter_init. rewrite !bind_ret_l.
  unfold getattr, set_field. simpl attrs. simpl klass.
  rewrite lookup_insert_ne, lookup_insert_eq by done. rewrite bind_ret_l.
  rewrite lookup_insert_eq, bind_ret_l.
  rewrite Hp, bind_ret_l, Hh, bind_ret_l, Hcut, bind_ret_l.
  rewrite (Filter_userParams_setter_spec _ _ ∅) by (by simpl).
  reflexivity.
Qed.




End FilterFacts.

(** ** The filter chain *)

Section ChainFacts.

Variable np_mean : list pyfloat -> pyfloat.

Lemma FiltersModel_apply_snoc (boxes : list DeletableFilterBox) (b : DeletableFilterBox) :
  forall x : value,
    FiltersModel_apply np_mean (boxes ++ [b]) x =
      (r <- FiltersModel_apply np_mean boxes x ;;
       match filter b with
       | None => raise AttributeError
       | Some f =>
           let f := set_field f "input" r.2 in
           out <- call_apply np_mean f ;;
           ret (r.1 ++ [{| filter := Some f; entries := entries b |}], out)
       end).
Proof.
  induction boxes as [| a boxes IH]; intros x.
  - cbn [FiltersModel_apply app]. rewrite bind_ret_l. cbn [fst snd app].
    destruct (filter b) as [f |]; [| reflexivity].
    cbv zeta. apply bind_ext. intros out. by rewrite bind_ret_l.
  - cbn [FiltersModel_apply app]. destruct (filter a) as [fa |]; [| reflexivity].
    rewrite bind_assoc. apply bind_ext. intros out.
    rewrite IH, !bind_assoc. apply bind_ext. intros r.
    rewrite bind_ret_l. cbn [fst snd app].
    destruct (filter b) as [f |]; [| reflexivity].
    cbv zeta. rewrite bind_assoc. apply bind_ext. intros out'.
    by rewrite bind_ret_l.
Qed.

Lemma FiltersModel_apply_stages (boxes : list DeletableFilterBox) :
  forall (x : value) (w : list event) (boxes' : list DeletableFilterBox) (y : value),
    FiltersModel_apply np_mean boxes x = (w, Ok (boxes', y)) ->
    stages np_mean x boxes' y
    /\ Forall2 (fun b b' => exists v, assign_input b v = Some b') boxes boxes'.
Proof.
  induction boxes as [| b boxes IH]; intros x w boxes' y Hrun.
  - injection Hrun as <- <- <-. split; constructor.
  - simpl in Hrun. unfold assign_input.
    destruct (filter b) as [f |] eqn:Hf; [| discriminate].
    destruct (call_apply np_mean (set_field f "input" x)) as [w1 [out |]] eqn:Hcall;
      [| discriminate].
    simpl in Hrun.
    destruct (FiltersModel_apply np_mean boxes out) as [w2 [[rest y'] |]] eqn:Hrest;
      [| discriminate].
    simpl in Hrun. injection Hrun as <- <- <-.
    destruct (IH _ _ _ _ Hrest) as [Hst Hall]. split.
    + apply (stages_cons np_mean x out y' _ (set_field f "input" x) w1); try done.
      simpl. by rewrite lookup_insert_eq.
    + constructor; [| done]. exists x. by rewrite Hf.
Qed.

(** C7. An empty chain returns its input unchanged; a chain extended by one
    box runs the chain, assigns its output to the [input] of the filter of
    that box and returns what this filter's [apply()] returns; in a run that
    succeeds every filter was handed the output of the stage before it, in
    chain order, the first one the input vector, and the result is the
    output of the last. *)
Theorem C7_chain_composition :
  (forall x : value, FiltersModel_apply np_mean [] x = ([], Ok ([], x)))
  /\ (forall (boxes : list DeletableFilterBox) (b : DeletableFilterBox) (x : value),
        FiltersModel_apply np_mean (boxes ++ [b]) x =
          (r <- FiltersModel_apply np_mean boxes x ;;
           match filter b with
           | None => raise AttributeError
           | Some f =>
               let f := set_field f "input" r.2 in
               out <- call_apply np_mean f ;;
               ret (r.1 ++ [{| filter := Some f; entries := entries b |}], out)
           end))
  /\ (forall (boxes : list DeletableFilterBox) (x : value) (w : list event)
        (boxes' : list DeletableFilterBox) (y : value),
        boxes <> [] ->
        FiltersModel_apply np_mean boxes x = (w, Ok (boxes', y)) ->
        stages np_mean x boxes' y
        /\ Forall2 (fun b b' => exists v, assign_input b v = Some b') boxes boxes').
Proof.
  split; [reflexivity |]. split.
  - intros boxes b x. apply FiltersModel_apply_snoc.
  - intros boxes x w boxes' y _ Hrun. by apply FiltersModel_apply_stages with w.
Qed.

End ChainFacts.

(** ** Editing a parameter *)

(** The stored [cutExtrema] is only written by the constructor: no edit of
    another parameter touches it. *)
Lemma setParam_keeps_cutExtrema oh ios fos (b b' : DeletableFilterBox) (f : obj)
    (param : string) (t : ptype) (w : list event) :
  param <> "cutExtrema"%string ->
  filter b = Some f ->
  setParam oh ios fos b param t = (w, Ok b') ->
  exists f', filter b' = Some f'
    /\ attrs f' !! "cutExtrema"%string = attrs f !! "cutExtrema"%string.
Proof.
  intros Hne Hf. unfold setParam. rewrite Hf.
  destruct (entries b !! param) as [e |]; [| intros [= <- <-]; by exists f].
  case_bool_decide; [| intros [= <- <-]; by exists f].
  destruct (call_ptype ios fos t (text e)) as [w1 [val |]] eqn:Hval; simpl;
    [| intros [= <- <-]; by exists f].
  assert (Hv : val <> VNone /\ (forall d, val <> VDict d) /\ (forall l, val <> VList l)).
  { unfold call_ptype in Hval.
    destruct t; [destruct (ios (text e)) | destruct (fos (text e))];
      injection Hval as <- <- || discriminate Hval; done. }
  unfold py_setattr. case_bool_decide as Hup.
  - unfold Filter_userParams_setter.
    destruct val as [| z | x | l | d]; simpl; try (intros [= <- <-]; by exists f).
    + by destruct Hv as (_ & _ & Hl); destruct (Hl l).
    + by destruct Hv as (_ & Hd & _); destruct (Hd d).
  - simpl. intros [= <- <-]. eexists. split; [reflexivity |].
    simpl. by rewrite lookup_insert_ne.
Qed.

(** *** The derived field at construction *)

Lemma trunc_Qeq (p q : Q) : (p == q)%Q -> trunc p = trunc q.
Proof.
  unfold Qeq, trunc. intros H.
  rewrite <- (Z.quot_mul_cancel_r (Qnum p) (Zpos (Qden p)) (Zpos (Qden q))) by done.
  rewrite <- (Z.quot_mul_cancel_r (Qnum q) (Zpos (Qden q)) (Zpos (Qden p))) by done.
  rewrite H. f_equal. apply Z.mul_comm.
Qed.

Lemma trunc_floor (q : Q) : (0 <= q)%Q -> trunc q = Qfloor q.
Proof.
  destruct q as [n d]. unfold Qle, trunc. simpl. intros H.
  apply Z.quot_div_nonneg; lia.
Qed.

Lemma as_float_silent (a : value) : (as_float a).1 = [].
Proof.
  destruct a as [| z | x | |]; try reflexivity.
  unfold as_float. by destruct (float_of_Z z).
Qed.

Lemma py_mul_silent (a b : value) : (py_mul a b).1 = [].
Proof.
  destruct a as [| z | x | |], b as [| z' | x' | |]; try reflexivity;
    unfold py_mul, as_float;
    repeat match goal with
           | |- context [float_of_Z ?z] => destruct (float_of_Z z)
           end; reflexivity.
Qed.

Lemma py_truediv_lit_silent (a : value) (n : Z) : (py_truediv_lit a n).1 = [].
Proof.
  destruct a as [| z | x | |]; try reflexivity.
  unfold py_truediv_lit. by destruct (rnd _).
Qed.

Lemma py_int_silent (a : value) : (py_int a).1 = [].
Proof. destruct a as [| | [| | |] | |]; reflexivity. Qed.

Section Construction.

Variable object_hasattr : string -> bool.

(** A constructor that returns went through the three steps of
    [int(self.width * self.ratio / 2)]. *)
Lemma MovingMedian_init_inv (c : cls) (i w r : value) (ev : list event) (o : obj) :
  MovingMedian_init object_hasattr (new c) i w r = (ev, Ok o) ->
  exists p h cut,
    py_mul w r = ret p /\ py_truediv_lit p 2 = ret h /\ py_int h = ret cut.
Proof.
  unfold MovingMedian_init, Filter_init. rewrite !bind_ret_l.
  unfold getattr, set_field. simpl attrs.
  rewrite lookup_insert_ne, lookup_insert_eq by done. rewrite bind_ret_l.
  rewrite lookup_insert_eq, bind_ret_l.
  pose proof (py_mul_silent w r) as H1.
  destruct (py_mul w r) as [e1 [p |]] eqn:Hp; [| discriminate].
  simpl in H1. subst e1. rewrite (bind_ret_l p).
  pose proof (py_truediv_lit_silent p 2) as H2.
  destruct (py_truediv_lit p 2) as [e2 [h |]] eqn:Hh; [| discriminate].
  simpl in H2. subst e2. rewrite (bind_ret_l h).
  pose proof (py_int_silent h) as H3.
  destruct (py_int h) as [e3 [cut |]] eqn:Hc; [| discriminate].
  simpl in H3. subst e3.
  intros _. exists p, h, cut. by rewrite Hh, Hc.
Qed.

(** Every instance of [MovingMedian] or [MovingAverage] declares exactly
    [width : int] and [ratio : float] as user parameters. *)
Lemma MovingMedian_init_declares (c : cls) (i w r : value) (ev : list event) (o : obj) :
  MovingMedian_init object_hasattr (new c) i w r = (ev, Ok o) ->
  ev = [] /\ klass o = c /\ Filter_userParams o = ret (VDict mm_params)
  /\ attrs o !! "width"%string = Some w /\ attrs o !! "ratio"%string = Some r.
Proof.
  intros Hrun.
  destruct (MovingMedian_init_inv _ _ _ _ _ _ Hrun) as (p & h & cut & Hp & Hh & Hcut).
  rewrite (MovingMedian_init_spec object_hasattr c i w r p h cut) in Hrun by done.
  injection Hrun as <- <-. by repeat split.
Qed.

End Construction.

(** C2 (the code departs from it).  A [MovingMedian] created from the
    combo box has width 21, ratio 1 and [cutExtrema] 10, the floor of
    21 * 1 / 2.  After the user sets the ratio to 0.5 the filter holds
    ratio 0.5 and width 21 but still [cutExtrema] 10, where the floor of
    21 * 0.5 / 2 is 5: on a window of fifteen zeros followed by 10, 20, ...,
    60 [apply()] trims ten values from each end and yields 0, where a
    filter built with ratio 0.5 trims five and yields 10/11 (rounded to a
    double). *)
Theorem C2_cutExtrema_not_recomputed :
  let input := VList (map of_int (repeat 0 15 ++ [10; 20; 30; 40; 50; 60; 70])) in
  exists (b1 b2 : DeletableFilterBox) (f1 f2 : obj),
    setFilter Py.object_hasattr fresh_box "MovingMedian" = ([], Ok b1)
    /\ filter b1 = Some f1
    /\ attrs f1 !! "width"%string = Some (VInt 21)
    /\ attrs f1 !! "ratio"%string = Some (VInt 1)
    /\ attrs f1 !! "cutExtrema"%string = Some (VInt 10)
    /\ Qfloor (21 * 1 / 2) = 10
    /\ edit Py.object_hasattr Py.int_of_string Py.float_of_string b1 "ratio" "0.5"
       = ([], Ok b2)
    /\ filter b2 = Some f2
    /\ attrs f2 !! "width"%string = Some (VInt 21)
    /\ attrs f2 !! "ratio"%string = Some (VFloat (Fin (1 # 2)))
    /\ attrs f2 !! "cutExtrema"%string = Some (VInt 10)
    /\ Qfloor (21 * (1 # 2) / 2) = 5
    /\ MovingMedian_apply Py.np_mean (set_field f2 "input" input) = ret (VList [of_int 0])
    /\ (o <- MovingMedian_init Py.object_hasattr (new MovingMedian) input
               (VInt 21) (VFloat (Fin (1 # 2))) ;;
        MovingMedian_apply Py.np_mean o) = ret (VList [rnd (10 # 11)]).
Proof.
  do 4 eexists. repeat split; vm_compute; reflexivity.
Qed.

(** ** A moving average whose ratio was edited *)

Section EditedAverage.

Variable object_hasattr : string -> bool.
Variable int_of_string : string -> option Z.
Variable float_of_string : string -> option pyfloat.
Variable np_mean : list pyfloat -> pyfloat.



End EditedAverage.


(** ** The sample store *)

Section StoreFacts.

Variable json_loads : string -> option json.
Variable float_of_string : string -> option pyfloat.
Variable open_lines : string -> option (list string * option exn).

Lemma parse_lines_spec (lines : list string) :
  forall (logs : list json) (idx : nat),
    parse_lines json_loads logs idx lines
    = (line_diagnostics json_loads idx lines, Ok (logs ++ omap json_loads lines)).
Proof.
  induction lines as [| line rest IH]; intros logs idx.
  - simpl. by rewrite app_nil_r.
  - cbn [parse_lines line_diagnostics omap list_omap].
    destruct (json_loads line) as [v |].
    + cbn [try_except ret]. rewrite (bind_ret_l (logs ++ [v])), IH.
      by rewrite <- app_assoc.
    + unfold bind at 1. simpl. by rewrite IH.
Qed.


Lemma line_diagnostics_sound (lines : list string) :
  forall (idx : nat) (ev : event),
    In ev (line_diagnostics json_loads idx lines) ->
    exists (i : nat) (line : string),
      lines !! i = Some line /\ json_loads line = None
      /\ ev = Print (line_message (idx + i)).
Proof.
  induction lines as [| l rest IH]; intros idx ev Hin; [done |].
  simpl in Hin. destruct (json_loads l) eqn:Hl.
  - destruct (IH _ _ Hin) as (i & line & Hi & Hbad & ->).
    exists (S i), line. repeat split; [done.. |].
    by replace (idx + S i)%nat with (S idx + i)%nat by lia.
  - destruct Hin as [<- | Hin].
    + exists 0%nat, l. by rewrite Nat.add_0_r.
    + destruct (IH _ _ Hin) as (i & line & Hi & Hbad & ->).
      exists (S i), line. repeat split; [done.. |].
      by replace (idx + S i)%nat with (S idx + i)%nat by lia.
Qed.


(** An empty or absent file name: the store is created empty, nothing is
    read and nothing is raised. *)
Lemma JsonParser_init_no_file :
  JsonParser_init json_loads open_lines None = ret {| logs := []; filename := None |}
  /\ JsonParser_init json_loads open_lines (Some ""%string) = ret {| logs := []; filename := Some ""%string |}.
Proof. split; reflexivity. Qed.

(** With [numeral] false no branch of the loop appends: over records that
    are JSON objects the result is the empty list, whatever was stored. *)
Lemma collect_values_not_numeral (topic : string) (logs : list json) :
  forall values : list pyfloat,
    Forall (fun log => exists kvs, log = JObj kvs) logs ->
    collect_values float_of_string topic false values logs = ret values.
Proof.
  induction logs as [| log rest IH]; intros values Hobj; [reflexivity |].
  apply Forall_cons in Hobj as [[kvs ->] Hobj].
  cbn [collect_values py_contains]. rewrite bind_ret_l.
  case_bool_decide as Hin.
  - unfold py_getitem.
    destruct (list_find (fun kv : string * json => kv.1 = topic) kvs) as [[i kv] |] eqn:Hfind.
    + rewrite !bind_ret_l. by apply IH.
    + exfalso. apply list_elem_of_fmap in Hin as ([k v] & -> & Hkv).
      apply list_find_None in Hfind.
      by apply (proj1 (Forall_forall _ _) Hfind (k, v)).
  - rewrite bind_ret_l. by apply IH.
Qed.

Lemma get_topic_values_not_numeral (self : JsonParser) (topic : string) :
  Forall (fun log => exists kvs, log = JObj kvs) (logs self) ->
  get_topic_values float_of_string self topic false = ret [].
Proof. apply collect_values_not_numeral. Qed.

End StoreFacts.


(** C1 (the code departs from it).  On a fresh store,
    [parse_line('{"a": 1, "b": "x"}')] records the document;
    [get_topic_values("a", True)] is [[1.0]], [get_topic_values("b", True)]
    is [[]] with one diagnostic for ["x"]; but [get_topic_values("b", False)]
    is [[]], not [["x"]], and [get_topic_values("a", False)] is [[]] too. *)
Theorem C1_not_numeral_returns_nothing :
  let fresh := {| logs := []; filename := None |} in
  let store := {| logs := [JObj [("a"%string, JInt 1); ("b"%string, JStr "x")]];
                  filename := None |} in
  JsonParser_init Py.json_loads (Py.open_lines []) None = ret fresh
  /\ parse_line Py.json_loads fresh (Py.dq "{'a': 1, 'b': 'x'}") = ret store
  /\ get_topic_values Py.float_of_string store "a" true = ret [of_int 1]
  /\ get_topic_values Py.float_of_string store "b" true = ([PrintCast (JStr "x")], Ok [])
  /\ get_topic_values Py.float_of_string store "b" false = ret []
  /\ get_topic_values Py.float_of_string store "a" false = ret [].
Proof. repeat split; vm_compute; reflexivity. Qed.


(** * The statements on concrete inputs *)

Lemma C5_short_input_unchanged_witness :
  MovingMedian_apply Py.np_mean
    (moving MovingMedian (VList (map of_int [4; 2])) 3 (VFloat (Fin (1 # 2))) 0)
  = ret (VList (map of_int [4; 2])).
Proof.
  apply (C5_short_input_unchanged Py.np_mean _ (map of_int [4; 2]) 3).
  - reflexivity.
  - reflexivity.
  - simpl. lia.
Defined.

Lemma C3_ratio_one_window_medians_witness :
  exists out : list pyfloat,
    MovingMedian_apply Py.np_mean
      (moving MovingMedian (VList (map of_int [1; 5; 2; 8; 3; 9; 4])) 3 (VInt 1) 1)
    = ret (VList out)
    /\ Z.of_nat (length out) = 4
    /\ out !! 1%nat = Some (np_median Py.np_mean (map of_int [5; 2; 8]))
    /\ np_median Py.np_mean (map of_int [5; 2; 8]) = of_int 5.
Proof.
  destruct (C3_ratio_one_window_medians Py.np_mean
              (moving MovingMedian (VList (map of_int [1; 5; 2; 8; 3; 9; 4])) 3 (VInt 1) 1)
              (map of_int [1; 5; 2; 8; 3; 9; 4]) 3 (VInt 1))
    as (out & Hrun & Hlen & _ & Hith & _).
  - reflexivity.
  - reflexivity.
  - reflexivity.
  - reflexivity.
  - simpl. lia.
  - exists out. split; [exact Hrun |]. split; [exact Hlen |]. split.
    + apply (Hith 1%nat). simpl in Hlen. lia.
    + vm_compute. reflexivity.
Defined.



Lemma C6_centering_witness :
  MedianCentering_apply Py.np_mean
    (centering MedianCentering (VList (map of_int [1; 1; 2; 8])))
  = ret (VList [Fin (-1 # 2); Fin (-1 # 2); Fin (1 # 2); Fin (13 # 2)])
  /\ MeanCentering_apply Py.np_mean
       (centering MeanCentering (VList (map of_int [1; 2; 3; 4; 5])))
     = ret (VList (map of_int [-2; -1; 0; 1; 2]))
  /\ MinCentering_apply (centering MinCentering (VList [])) = ret VNone
  /\ MinCentering_apply (centering MinCentering VNone) = ret VNone.
Proof.
  split; [| split; [| split]].
  - destruct (C6_centering Py.np_mean
                (centering MedianCentering (VList (map of_int [1; 1; 2; 8])))
                (VList (map of_int [1; 1; 2; 8])) eq_refl) as [Hne _].
    destruct (Hne (map of_int [1; 1; 2; 8]) eq_refl) as [Hmed _]; [discriminate |].
    rewrite Hmed. vm_compute. reflexivity.
  - destruct (C6_centering Py.np_mean
                (centering MeanCentering (VList (map of_int [1; 2; 3; 4; 5])))
                (VList (map of_int [1; 2; 3; 4; 5])) eq_refl) as (_ & _ & Hex).
    apply (Hex eq_refl). vm_compute. reflexivity.
  - destruct (C6_centering Py.np_mean (centering MinCentering (VList [])) (VList []) eq_refl)
      as (_ & Hfalsy & _).
    destruct (Hfalsy eq_refl) as (_ & _ & Hmin). exact Hmin.
  - destruct (C6_centering Py.np_mean (centering MinCentering VNone) VNone eq_refl)
      as (_ & Hfalsy & _).
    destruct (Hfalsy eq_refl) as (_ & _ & Hmin). exact Hmin.
Defined.

Lemma C7_chain_composition_witness :
  exists (boxes' : list DeletableFilterBox),
    FiltersModel_apply Py.np_mean chain_example (VList (map of_int [1; 2; 3; 4; 5; 6]))
    = ([], Ok (boxes', VList [Fin (-3 # 2); Fin (-1 # 2); Fin (1 # 2)]))
    /\ stages Py.np_mean (VList (map of_int [1; 2; 3; 4; 5; 6])) boxes'
         (VList [Fin (-3 # 2); Fin (-1 # 2); Fin (1 # 2)]).
Proof.
  eexists. split; [vm_compute; reflexivity |].
  destruct (C7_chain_composition Py.np_mean) as (_ & _ & Hstages).
  eapply (Hstages chain_example _ []); [discriminate |].
  vm_compute. reflexivity.
Defined.


Lemma C9_undeclared_names_ignored_witness :
  let self := moving MovingMedian VNone 21 (VInt 1) 10 in
  Filter_userParams_setter Py.object_hasattr self
    (VDict (<["widht"%string := TInt]> (<["rato"%string := TFloat]> ∅)))
  = ([], Ok self)
  /\ exists u' : gmap string ptype,
       Filter_userParams_setter Py.object_hasattr self
         (VDict (<["cutExtrema"%string := TInt]> (<["widht"%string := TInt]> ∅)))
       = ([], Ok (set_field self "_userParams" (VDict u')))
       /\ u' !! "cutExtrema"%string = Some TInt
       /\ u' !! "widht"%string = None.
Proof.
  intros self. split.
  - destruct (C9_undeclared_names_ignored Py.object_hasattr self
                (<["widht"%string := TInt]> (<["rato"%string := TFloat]> ∅)) mm_params eq_refl)
      as (u' & _ & _ & _ & _ & Hnoop).
    apply Hnoop. intros a [t Ha].
    apply lookup_insert_Some in Ha as [[<- _] | [_ Ha]]; [reflexivity |].
    apply lookup_insert_Some in Ha as [[<- _] | [_ Ha]]; [reflexivity |].
    rewrite lookup_empty in Ha. discriminate Ha.
  - destruct (C9_undeclared_names_ignored Py.object_hasattr self
                (<["cutExtrema"%string := TInt]> (<["widht"%string := TInt]> ∅)) mm_params eq_refl)
      as (u' & Hrun & Hskip & Hreg & _ & _).
    exists u'. split; [exact Hrun |]. split.
    + apply Hreg; reflexivity.
    + rewrite (Hskip "widht"%string); reflexivity.
Defined.

(** * Further properties *)

(** ** The sample store: ingestion *)

Section IngestionFacts.

Variable json_loads : string -> option json.
Variable open_lines : string -> option (list string * option exn).

Lemma parse_line_ret (self : JsonParser) (line : string) :
  parse_line json_loads self line
  = ret {| logs := logs self
                   ++ (if String.prefix "{" line then option_list (json_loads line) else []);
           filename := filename self |}.
Proof.
  unfold parse_line. destruct self as [ls fn]. simpl.
  destruct (String.prefix "{" line); [| by rewrite app_nil_r].
  destruct (json_loads line); simpl; [reflexivity | by rewrite app_nil_r].
Qed.

Lemma feed_lines_spec (lines : list string) :
  forall self : JsonParser,
    feed_lines json_loads self lines
    = ret {| logs := logs self
                     ++ omap json_loads (List.filter (String.prefix "{") lines);
             filename := filename self |}.
Proof.
  unfold feed_lines. induction lines as [| line rest IH]; intros self.
  - simpl. rewrite app_nil_r. by destruct self.
  - cbn [fold_left List.filter]. rewrite bind_ret_l, parse_line_ret.
    rewrite IH. cbn [logs filename]. unfold ret. do 3 f_equal.
    rewrite <- app_assoc. f_equal.
    destruct (String.prefix "{" line); [| reflexivity].
    cbn [omap list_omap]. by destruct (json_loads line).
Qed.

(** X1. Feeding lines one by one through [parse_line] never raises and
    prints nothing; the store gains, in order, the decoded lines among those
    that start with an opening brace, and every other line is ignored, also
    when it is valid JSON. *)
Theorem X1_feed_lines_stores (self : JsonParser) (lines : list string) :
  feed_lines json_loads self lines
  = ([], Ok {| logs := logs self
                       ++ omap json_loads (List.filter (String.prefix "{") lines);
               filename := filename self |})
  /\ (forall line, String.prefix "{" line = false ->
        parse_line json_loads self line = ([], Ok self)).
Proof.
  split; [apply feed_lines_spec |].
  intros line Hp. rewrite parse_line_ret, Hp, app_nil_r. by destruct self.
Qed.

Lemma filter_prefix_omap (lines : list string) :
  (forall line, In line lines -> is_Some (json_loads line) ->
     String.prefix "{" line = true) ->
  omap json_loads (List.filter (String.prefix "{") lines) = omap json_loads lines.
Proof.
  induction lines as [| line rest IH]; intros Hall; [reflexivity |].
  cbn [List.filter omap list_omap].
  assert (Hrest : omap json_loads (List.filter (String.prefix "{") rest)
                  = omap json_loads rest)
    by (apply IH; intros l Hl; apply Hall; by right).
  destruct (String.prefix "{" line) eqn:Hp.
  - cbn [omap list_omap]. by rewrite Hrest.
  - destruct (json_loads line) eqn:Hj; [| done].
    rewrite Hall in Hp; [done | by left | by rewrite Hj].
Qed.

(** X2. For a non-empty path that ends in [.json] and whose file opens and
    is read to its end without a reader failure, when every line that
    decodes starts with an opening brace, loading the file and feeding its
    lines one by one to a fresh store build the same sequence of records. *)
Theorem X2_file_and_lines_agree (path : string) (lines : list string) :
  path <> ""%string ->
  endswith path ".json" = true ->
  open_lines path = Some (lines, None) ->
  (forall line, In line lines -> is_Some (json_loads line) ->
     String.prefix "{" line = true) ->
  exists (w : list event) (loaded fed : JsonParser),
    JsonParser_init json_loads open_lines (Some path) = (w, Ok loaded)
    /\ feed_lines json_loads {| logs := []; filename := None |} lines = ([], Ok fed)
    /\ logs loaded = logs fed.
Proof.
  intros Hne Hext Hopen Hall.
  exists (Open path :: line_diagnostics json_loads 0 lines),
    {| logs := omap json_loads lines; filename := Some path |},
    {| logs := omap json_loads (List.filter (String.prefix "{") lines); filename := None |}.
  split; [| split].
  - unfold JsonParser_init. rewrite bool_decide_true, Hext by done.
    unfold parse_file. simpl. rewrite Hopen. simpl.
    rewrite parse_lines_spec. simpl. by rewrite app_nil_r.
  - by rewrite feed_lines_spec.
  - simpl. by rewrite filter_prefix_omap.
Qed.

Lemma lines_accounted (lines : list string) :
  forall idx : nat,
    (length (omap json_loads lines) + length (line_diagnostics json_loads idx lines)
     = length lines)%nat.
Proof.
  induction lines as [| line rest IH]; intros idx; [reflexivity |].
  cbn [omap list_omap line_diagnostics].
  destruct (json_loads line); simpl; rewrite <- (IH (S idx)); lia.
Qed.

(** X3. A load from a non-empty path that ends in [.json], whose file
    opens and is read to its end without a reader failure, accounts for
    every line: the number of records stored plus the number of diagnostics
    printed is the number of lines of the file. *)
Theorem X3_every_line_stored_or_reported (path : string) (lines : list string) :
  path <> ""%string ->
  endswith path ".json" = true ->
  open_lines path = Some (lines, None) ->
  exists (diags : list event) (self : JsonParser),
    JsonParser_init json_loads open_lines (Some path) = (Open path :: diags, Ok self)
    /\ (length (logs self) + length diags = length lines)%nat
    /\ Forall (fun ev => exists idx, ev = Print (line_message idx)) diags.
Proof.
  intros Hne Hext Hopen.
  exists (line_diagnostics json_loads 0 lines),
    {| logs := omap json_loads lines; filename := Some path |}.
  split; [| split].
  - unfold JsonParser_init. rewrite bool_decide_true, Hext by done.
    unfold parse_file. simpl. rewrite Hopen. simpl.
    rewrite parse_lines_spec. simpl. by rewrite app_nil_r.
  - apply lines_accounted.
  - apply Forall_forall. intros ev Hin.
    apply list_elem_of_In in Hin.
    destruct (line_diagnostics_sound json_loads lines 0 ev Hin) as (i & _ & _ & _ & ->).
    by exists i.
Qed.

End IngestionFacts.

(** ** The sample store: queries *)

Section QueryFacts.

Variable float_of_string : string -> option pyfloat.
Variable str_chars : string -> list string.

Lemma py_float_silent (v : json) : (py_float float_of_string v).1 = [].
Proof.
  destruct v as [| b | z | x | s | l | kvs]; try reflexivity; simpl.
  - by destruct (float_of_Z z).
  - by destruct (float_of_string s).
Qed.

(** On a record that is an object, the membership test and the lookup
    agree with [record_get]. *)
Lemma object_lookup (kvs : list (string * json)) (topic : string) :
  match record_get (JObj kvs) topic with
  | Some v =>
      bool_decide (topic ∈ kvs.*1) = true /\ py_getitem (JObj kvs) topic = ret v
  | None => bool_decide (topic ∈ kvs.*1) = false
  end.
Proof.
  unfold record_get, py_getitem.
  destruct (list_find (fun kv : string * json => kv.1 = topic) kvs) as [[i kv] |] eqn:Hfind;
    simpl.
  - split; [| reflexivity]. apply bool_decide_eq_true.
    apply list_find_Some in Hfind as (Hi & <- & _).
    apply list_elem_of_fmap. exists kv. split; [done |].
    by apply list_elem_of_lookup_2 with i.
  - apply bool_decide_eq_false. intros Hin.
    apply list_elem_of_fmap in Hin as (kv & -> & Hkv).
    apply list_find_None in Hfind.
    by apply (proj1 (Forall_forall _ _) Hfind kv).
Qed.

Lemma collect_values_objects (topic : string) (logs : list json) :
  forall values : list pyfloat,
    Forall is_object logs ->
    let vals := omap (fun log => record_get log topic) logs in
    collect_values float_of_string topic true values logs
    = (map PrintCast (List.filter (dropped float_of_string) vals),
       Ok (values ++ omap (castable float_of_string) vals)).
Proof.
  induction logs as [| log rest IH]; intros values Hobj.
  - simpl. by rewrite app_nil_r.
  - apply Forall_cons in Hobj as [[kvs ->] Hobj].
    cbn [collect_values py_contains]. rewrite bind_ret_l.
    pose proof (object_lookup kvs topic) as Hlook.
    cbn [omap list_omap]. cbv zeta.
    destruct (record_get (JObj kvs) topic) as [v |].
    + destruct Hlook as [-> ->]. rewrite bind_ret_l.
      cbn [List.filter omap list_omap]. unfold dropped, castable.
      pose proof (py_float_silent v) as Hs.
      destruct (py_float float_of_string v) as [w [x | e]]; simpl in Hs; subst w.
      * cbn [try_except]. rewrite (bind_ret_l x), (bind_ret_l (values ++ [x])).
        rewrite (IH (values ++ [x]) Hobj). cbv zeta.
        by rewrite <- app_assoc.
      * cbn [try_except bind raise emit ret app].
        rewrite (IH values Hobj). reflexivity.
    + rewrite Hlook, bind_ret_l. apply (IH values Hobj).
Qed.






End QueryFacts.

(** ** The sample store: topics *)

Section TopicFacts.

Variable json_loads : string -> option json.
Variable float_of_string : string -> option pyfloat.
Variable open_lines : string -> option (list string * option exn).
Variable str_chars : string -> list string.


Lemma existsb_json_str (ts : list string) (k : string) :
  existsb (fun t => json_eqb t (JStr k)) (map JStr ts) = bool_decide (k ∈ ts).
Proof.
  induction ts as [| t ts IH]; [reflexivity |].
  cbn [map existsb json_eqb]. rewrite IH.
  destruct (String.eqb_spec t k) as [-> | Hne]; simpl.
  - symmetry. apply bool_decide_eq_true. by left.
  - apply bool_decide_ext. rewrite elem_of_cons. split; [by right |].
    intros [-> | Hin]; [done | done].
Qed.

Lemma fold_add_topic_strs (ks : list string) :
  forall ts : list string,
    fold_left add_topic (map JStr ks) (map JStr ts) = map JStr (fold_left add_key ks ts).
Proof.
  induction ks as [| k ks IH]; intros ts; [reflexivity |].
  cbn [map fold_left]. unfold add_topic at 2, add_key at 2.
  rewrite existsb_json_str. case_bool_decide; [apply IH |].
  rewrite <- (IH (ts ++ [k])). by rewrite map_app.
Qed.

Lemma extract_loop_objects (logs : list json) :
  forall ts : list string,
    Forall is_object logs ->
    extract_loop str_chars (map JStr ts) logs = ret (map JStr (topics_after ts logs)).
Proof.
  induction logs as [| log rest IH]; intros ts Hobj; [reflexivity |].
  apply Forall_cons in Hobj as [[kvs ->] Hobj].
  cbn [extract_loop py_iter]. rewrite bind_ret_l.
  change (map (fun kv : string * json => JStr kv.1) kvs) with
    (map (fun kv : string * json => JStr kv.1) kvs).
  replace (map (fun kv : string * json => JStr kv.1) kvs) with (map JStr kvs.*1)
    by (by rewrite map_map).
  rewrite fold_add_topic_strs. by rewrite IH.
Qed.

Lemma fold_add_key_spec (ks : list string) :
  forall ts : list string,
    NoDup ts ->
    exists new : list string,
      fold_left add_key ks ts = ts ++ new
      /\ NoDup (ts ++ new)
      /\ (forall k, k ∈ new <-> k ∈ ks /\ k ∉ ts).
Proof.
  induction ks as [| k ks IH]; intros ts Hnd.
  - exists []. rewrite app_nil_r. split; [done |]. split; [done |].
    intros k. split.
    + intros Hin. by apply elem_of_nil in Hin.
    + intros [Hin _]. by apply elem_of_nil in Hin.
  - cbn [fold_left]. unfold add_key at 2. case_bool_decide as Hk.
    + destruct (IH ts Hnd) as (new & Heq & Hnd' & Hmem).
      exists new. split; [done |]. split; [done |].
      intros x. rewrite Hmem, elem_of_cons. split.
      * intros [Hin Hnot]. split; [by right | done].
      * intros [[-> | Hin] Hnot]; [done | by split].
    + assert (Hnd1 : NoDup (ts ++ [k])).
      { apply NoDup_app. split; [done |]. split; [| apply NoDup_singleton].
        intros x Hx Hxk. apply list_elem_of_singleton in Hxk. by subst x. }
      destruct (IH (ts ++ [k]) Hnd1) as (new & Heq & Hnd' & Hmem).
      rewrite <- app_assoc in Hnd'.
      exists (k :: new). rewrite Heq, <- app_assoc. split; [done |]. split; [done |].
      intros x. rewrite !elem_of_cons, Hmem, elem_of_app, list_elem_of_singleton.
      split.
      * intros [-> | [Hin Hnot]]; [split; [by left | done] |].
        split; [by right |]. intros Hts. apply Hnot. by left.
      * intros [[-> | Hin] Hnot]; [by left |].
        destruct (decide (x = k)) as [-> | Hne]; [by left | right].
        split; [done |]. by intros [? | ?].
Qed.

Lemma topics_after_spec (logs : list json) :
  forall ts : list string,
    NoDup ts ->
    exists new : list string,
      topics_after ts logs = ts ++ new
      /\ NoDup (ts ++ new)
      /\ (forall k, k ∈ new <->
            (exists log, log ∈ logs /\ k ∈ record_keys log) /\ k ∉ ts).
Proof.
  induction logs as [| log rest IH]; intros ts Hnd.
  - exists []. rewrite app_nil_r. split; [done |]. split; [done |].
    intros k. split.
    + intros Hin. by apply elem_of_nil in Hin.
    + intros [(log & Hin & _) _]. by apply elem_of_nil in Hin.
  - unfold topics_after. cbn [fold_left].
    destruct (fold_add_key_spec (record_keys log) ts Hnd) as (n1 & -> & Hnd1 & Hm1).
    destruct (IH (ts ++ n1) Hnd1) as (n2 & Heq & Hnd2 & Hm2).
    unfold topics_after in Heq. rewrite Heq.
    exists (n1 ++ n2). rewrite app_assoc. split; [done |]. split; [done |].
    intros k. split.
    + intros Hin. apply elem_of_app in Hin as [Hin | Hin].
      * apply Hm1 in Hin as [Hin Hnot]. split; [| done].
        exists log. split; [by left | done].
      * apply Hm2 in Hin as [(l & Hl & Hk) Hnot]. split.
        -- exists l. split; [by right | done].
        -- intros Hts. apply Hnot. apply elem_of_app. by left.
    + intros [(l & Hl & Hk) Hnot]. apply elem_of_app.
      destruct (decide (k ∈ n1)) as [Hn1 | Hn1]; [by left |]. right.
      apply Hm2. apply elem_of_cons in Hl as [-> | Hl].
      * exfalso. apply Hn1. by apply Hm1.
      * split; [by exists l |]. intros Hin.
        apply elem_of_app in Hin as [Hin | Hin]; done.
Qed.

Lemma topics_after_app (l1 l2 : list json) (ts : list string) :
  topics_after ts (l1 ++ l2) = topics_after (topics_after ts l1) l2.
Proof. unfold topics_after. by rewrite fold_left_app. Qed.

Lemma record_get_absent (log : json) (topic : string) :
  topic ∉ record_keys log -> record_get log topic = None.
Proof.
  destruct log as [| | | | | | kvs]; try reflexivity. simpl. intros Hnot.
  pose proof (object_lookup kvs topic) as Hlook. simpl in Hlook.
  destruct (list_find _ kvs) as [[i kv] |]; [| reflexivity].
  simpl in Hlook. destruct Hlook as [Hin _].
  by apply bool_decide_eq_true in Hin.
Qed.

Lemma omap_record_get_absent (logs : list json) (topic : string) :
  (forall log, log ∈ logs -> topic ∉ record_keys log) ->
  omap (fun log => record_get log topic) logs = [].
Proof.
  induction logs as [| log rest IH]; intros Hall; [reflexivity |].
  cbn [omap list_omap]. rewrite record_get_absent by (apply Hall; by left).
  apply IH. intros l Hl. apply Hall. by right.
Qed.

(** X7. On a store of JSON objects [extract_topics] returns the keys of
    the records, each once: a string is listed exactly when some record
    has it as a key.  A topic that is not listed has no values:
    [get_topic_values] returns the empty list for it and prints nothing. *)
Theorem X7_topics_are_the_keys (self : JsonParser) :
  Forall is_object (logs self) ->
  exists ts : list string,
    extract_topics str_chars self = ([], Ok (map JStr ts))
    /\ NoDup ts
    /\ (forall t, t ∈ ts <-> exists log, log ∈ logs self /\ t ∈ record_keys log)
    /\ (forall (t : string) (numeral : bool), t ∉ ts ->
          get_topic_values float_of_string self t numeral = ([], Ok [])).
Proof.
  intros Hobj.
  destruct (topics_after_spec (logs self) [] (NoDup_nil_2)) as (ts & Heq & Hnd & Hmem).
  simpl in Heq, Hnd. exists ts. split; [| split; [| split]].
  - unfold extract_topics. change [] with (map JStr []) at 1.
    rewrite extract_loop_objects by done. by rewrite Heq.
  - done.
  - intros t. rewrite Hmem. split; [by intros [? _] | intros H; split; [done |]].
    by intros ?%elem_of_nil.
  - intros t numeral Hnot. destruct numeral.
    + unfold get_topic_values. rewrite collect_values_objects by done. cbv zeta.
      assert (Hnone : omap (fun log => record_get log t) (logs self) = []).
      { apply omap_record_get_absent. intros log Hlog Hk. apply Hnot, Hmem.
        split; [by exists log |]. intros Hin. by apply elem_of_nil in Hin. }
      by rewrite Hnone.
    + by apply get_topic_values_not_numeral.
Qed.

(** X8. The list of topics only grows at its end: after one more object is
    recorded, [extract_topics] returns the former list followed by the keys
    of the new record that were not listed yet. *)
Theorem X8_topics_grow_at_the_end (self : JsonParser) (kvs : list (string * json)) :
  Forall is_object (logs self) ->
  exists ts new : list string,
    extract_topics str_chars self = ([], Ok (map JStr ts))
    /\ extract_topics str_chars
         {| logs := logs self ++ [JObj kvs]; filename := filename self |}
       = ([], Ok (map JStr (ts ++ new)))
    /\ NoDup (ts ++ new)
    /\ (forall k, k ∈ new <-> k ∈ kvs.*1 /\ k ∉ ts).
Proof.
  intros Hobj.
  destruct (topics_after_spec (logs self) [] (NoDup_nil_2)) as (ts & Heq & Hnd & _).
  simpl in Heq, Hnd.
  destruct (fold_add_key_spec kvs.*1 ts Hnd) as (new & Hnew & Hnd' & Hmem).
  exists ts, new. split; [| split; [| split]]; [| | done | done].
  - unfold extract_topics. change [] with (map JStr []) at 1.
    rewrite extract_loop_objects by done. by rewrite Heq.
  - unfold extract_topics. cbn [logs]. change [] with (map JStr []) at 1.
    rewrite extract_loop_objects
      by (apply Forall_app; split; [done | constructor; [by exists kvs | constructor]]).
    rewrite topics_after_app, Heq. unfold topics_after at 1. cbn [fold_left record_keys].
    by rewrite Hnew.
Qed.

End TopicFacts.

(** ** The moving filters, any ratio *)

Section TrimmingFacts.

Variable np_mean : list pyfloat -> pyfloat.

Lemma range_elem (n i : Z) : i ∈ range n -> 0 <= i < n.
Proof.
  unfold range. intros Hin. apply list_elem_of_fmap in Hin as (j & -> & Hj).
  apply elem_of_seq in Hj. lia.
Qed.

Lemma map_range_ext {A} (f g : Z -> A) (n : Z) :
  (forall i, 0 <= i < n -> f i = g i) -> map f (range n) = map g (range n).
Proof.
  intros H. apply map_ext_in. intros i Hi. apply H, range_elem.
  by apply list_elem_of_In.
Qed.

Lemma length_np_sort (l : list pyfloat) : length (np_sort l) = length l.
Proof. apply Permutation_length, np_sort_perm. Qed.

(** X9. Whatever the ratio, on an input of length [L >= width] a moving
    filter whose [cutExtrema] is an integer returns [L - width] values; when
    the ratio is not 1 the [i]-th is the mean of the sorted window
    [input[i:i+width]] without its first and last [cutExtrema] elements
    (of the whole sorted window when [cutExtrema <= 0]). *)
Theorem X9_length_for_any_ratio (self : obj) (l : list pyfloat) (w c : Z) (r : value) :
  attrs self !! "input"%string = Some (VList l) ->
  attrs self !! "width"%string = Some (VInt w) ->
  attrs self !! "ratio"%string = Some r ->
  attrs self !! "cutExtrema"%string = Some (VInt c) ->
  w <= Z.of_nat (length l) ->
  exists out : list pyfloat,
    MovingMedian_apply np_mean self = ([], Ok (VList out))
    /\ Z.of_nat (length out) = Z.of_nat (length l) - w
    /\ (py_eq_int r 1 = false ->
          out = map (fun i => trimmed_mean np_mean c (py_slice l i (i + w)))
                  (range (Z.of_nat (length l) - w))).
Proof.
  intros Hin Hw Hr Hc Hle. destruct (py_eq_int r 1) eqn:Hone.
  - exists (map (fun i => np_median np_mean (py_slice l i (i + w)))
              (range (Z.of_nat (length l) - w))).
    split; [| split; [| done]].
    + rewrite (MovingMedian_apply_long np_mean self l w r) by done. cbv zeta. by rewrite Hone.
    + rewrite length_map, length_range. lia.
  - exists (map (fun i => trimmed_mean np_mean c (py_slice l i (i + w)))
              (range (Z.of_nat (length l) - w))).
    split; [| split; [| done]].
    + by apply MovingMedian_apply_trimming with r.
    + rewrite length_map, length_range. lia.
Qed.

Lemma py_slice_trim_empty {A} (block : list A) (c : Z) :
  0 < c -> Z.of_nat (length block) <= 2 * c -> py_slice block c (- c) = [].
Proof.
  intros Hc Hn. unfold py_slice, slice_bound.
  destruct (Z.ltb_spec c 0); [lia |].
  destruct (Z.ltb_spec (- c) 0); [| lia].
  replace (Z.to_nat _) with 0%nat by lia. reflexivity.
Qed.

(** X10. For a width [w] with [0 <= w <= len(input)] and a [cutExtrema]
    that is positive and at least half of [w], every window is trimmed to
    nothing: with a ratio other than 1, and [np.mean] of an empty array
    being NaN, the output is [len(input) - w] times NaN. *)
Theorem X10_overtrimmed_windows_give_nan (self : obj) (l : list pyfloat) (w c : Z)
    (r : value) :
  attrs self !! "input"%string = Some (VList l) ->
  attrs self !! "width"%string = Some (VInt w) ->
  attrs self !! "ratio"%string = Some r ->
  attrs self !! "cutExtrema"%string = Some (VInt c) ->
  py_eq_int r 1 = false ->
  np_mean [] = NaN ->
  0 <= w <= Z.of_nat (length l) ->
  0 < c -> w <= 2 * c ->
  MovingMedian_apply np_mean self
  = ([], Ok (VList (replicate (Z.to_nat (Z.of_nat (length l) - w)) NaN))).
Proof.
  intros Hin Hw Hr Hc Hne Hnan [Hw0 Hle] Hcpos Hover.
  rewrite (MovingMedian_apply_trimming np_mean self l w c r) by done.
  unfold ret. do 3 f_equal.
  rewrite (map_range_ext _ (fun _ => NaN)).
  - unfold range. rewrite map_map.
    generalize (Z.to_nat (Z.of_nat (length l) - w)) as n. intros n.
    generalize 0%nat as s. induction n as [| n IH]; intros s; [reflexivity |].
    simpl. by rewrite IH.
  - intros i Hi. unfold trimmed_mean.
    destruct (Z.ltb_spec 0 c); [| lia].
    rewrite py_slice_trim_empty; [exact Hnan | done |].
    destruct (py_slice_window l i w) as [_ Hlen]; [lia.. |].
    rewrite length_np_sort, Hlen. lia.
Qed.

Lemma existsb_is_nan_slice (l : list pyfloat) (lo hi : Z) :
  existsb is_nan l = false -> existsb is_nan (py_slice l lo hi) = false.
Proof.
  intros Hl. apply not_true_is_false. intros Hex.
  apply existsb_exists in Hex as (x & Hin & Hx).
  assert (Hfalse : existsb is_nan l = true); [| congruence].
  apply existsb_exists. exists x. split; [| done].
  unfold py_slice in Hin. apply list_elem_of_In in Hin.
  apply list_elem_of_In.
  eapply subseteq_drop, subseteq_take, Hin.
Qed.

Lemma trimmed_mean_is_median (c : Z) (window : list pyfloat) :
  0 <= c ->
  Z.of_nat (length window) = 2 * c + 1 ->
  existsb is_nan window = false ->
  trimmed_mean np_mean c window = np_median np_mean window.
Proof.
  intros Hc Hlen Hfin. unfold trimmed_mean, np_median. rewrite Hfin, Hlen.
  replace (Z.odd (2 * c + 1)) with true
    by (symmetry; rewrite Z.add_comm, Z.odd_add_mul_2; reflexivity).
  replace ((2 * c + 1) / 2) with c by (apply Z.div_unique with 1; lia).
  destruct (Z.ltb_spec 0 c) as [Hpos | Hzero].
  - f_equal. unfold py_slice, slice_bound. rewrite length_np_sort, Hlen.
    destruct (Z.ltb_spec c 0); [lia |].
    destruct (Z.ltb_spec (- c) 0); [| lia].
    destruct (Z.ltb_spec (c + 1) 0); [lia |].
    do 2 f_equal. lia.
  - assert (c = 0) as -> by lia. f_equal.
    unfold py_slice, slice_bound. rewrite length_np_sort, Hlen. simpl.
    rewrite drop_0. symmetry. apply take_ge. rewrite length_np_sort. lia.
Qed.

(** X11. When [cutExtrema] is a non-negative integer [c] and the width is
    [2 * c + 1], at most the length of the input, trimming leaves the
    middle element of each sorted window: on an input without NaN the
    filter returns, for any ratio, what it returns with ratio 1, the window
    medians. *)
Theorem X11_trim_to_one_is_the_median (self : obj) (l : list pyfloat) (c : Z) (r : value) :
  attrs self !! "input"%string = Some (VList l) ->
  attrs self !! "width"%string = Some (VInt (2 * c + 1)) ->
  attrs self !! "ratio"%string = Some r ->
  attrs self !! "cutExtrema"%string = Some (VInt c) ->
  0 <= c ->
  2 * c + 1 <= Z.of_nat (length l) ->
  existsb is_nan l = false ->
  MovingMedian_apply np_mean self = MovingMedian_apply np_mean (set_field self "ratio" (VInt 1))
  /\ MovingMedian_apply np_mean self
     = ([], Ok (VList (map (fun i => np_median np_mean (py_slice l i (i + (2 * c + 1))))
                         (range (Z.of_nat (length l) - (2 * c + 1)))))).
Proof.
  intros Hin Hw Hr Hc Hc0 Hle Hfin.
  assert (Hone : MovingMedian_apply np_mean (set_field self "ratio" (VInt 1))
                 = ret (VList (map (fun i => np_median np_mean (py_slice l i (i + (2 * c + 1))))
                                 (range (Z.of_nat (length l) - (2 * c + 1)))))).
  { rewrite (MovingMedian_apply_long np_mean _ l (2 * c + 1) (VInt 1)); [reflexivity | ..].
    - simpl. by rewrite lookup_insert_ne.
    - simpl. by rewrite lookup_insert_ne.
    - simpl. by rewrite lookup_insert_eq.
    - done. }
  rewrite Hone.
  assert (Hself : MovingMedian_apply np_mean self
                  = ret (VList (map (fun i => np_median np_mean (py_slice l i (i + (2 * c + 1))))
                                  (range (Z.of_nat (length l) - (2 * c + 1)))))).
  { destruct (py_eq_int r 1) eqn:Hr1.
    - rewrite (MovingMedian_apply_long np_mean self l (2 * c + 1) r) by done.
      cbv zeta. by rewrite Hr1.
    - rewrite (MovingMedian_apply_trimming np_mean self l (2 * c + 1) c r) by done.
      unfold ret. do 3 f_equal. apply map_range_ext. intros i Hi.
      apply trimmed_mean_is_median; [done | | by apply existsb_is_nan_slice].
      destruct (py_slice_window l i (2 * c + 1)) as [_ Hlen]; [lia.. |].
      rewrite Hlen. lia. }
  by rewrite Hself.
Qed.

End TrimmingFacts.

(** ** The centering filters on finite input *)

Lemma py_min_finite (qs : list Q) :
  qs <> [] ->
  exists q, py_min (map Fin qs) = Some (Fin q) /\ In q qs
    /\ (forall a, In a qs -> (q <= a)%Q).
Proof.
  intros Hne.
  destruct (py_min_least (map Fin qs)) as (q & Hmin & Hmem & Hleast).
  - by destruct qs.
  - apply Forall_forall. intros x Hin.
    apply list_elem_of_fmap in Hin as (a & -> & _). reflexivity.
  - exists q. split; [done |]. split.
    + apply in_map_iff in Hmem as (a & [= ->] & Ha). done.
    + intros a Ha. apply Hleast. by apply in_map.
Qed.

(** Subtracting 0 from a double leaves it as it is. *)
Lemma fsub_zero_rnd (p : Q) : fsub (rnd p) (Fin 0) = rnd p.
Proof.
  destruct (rnd p) as [r | | |] eqn:Hp; try reflexivity.
  destruct (rnd_idempotent p r Hp) as [_ Hr]. simpl.
  rewrite (rnd_Qeq (r - 0)%Q r); [done | ring].
Qed.

(** X12. On a non-empty list of finite floats [MinCentering] returns values
    that are all non-negative, [+inf] where the subtraction overflows, and
    one of which is 0; they are all finite when the differences of two
    values of the input are bounded by a double; fed with its own output
    the filter returns it unchanged. *)
Theorem X12_min_centering_floor_zero (self : obj) (qs : list Q) :
  attrs self !! "input"%string = Some (VList (map Fin qs)) ->
  qs <> [] ->
  exists out : list pyfloat,
    MinCentering_apply self = ([], Ok (VList out))
    /\ length out = length qs
    /\ (forall a, In a out -> a = PInf \/ exists r, a = Fin r /\ (0 <= r)%Q)
    /\ In (Fin 0) out
    /\ (forall d : Q, rnd d = Fin d ->
          (forall a b, In a qs -> In b qs -> (a - b <= d)%Q) ->
          exists rs : list Q, out = map Fin rs /\ forall r, In r rs -> (0 <= r <= d)%Q)
    /\ MinCentering_apply (set_field self "input" (VList out)) = ([], Ok (VList out)).
Proof.
  intros Hin Hne.
  destruct (py_min_finite qs Hne) as (q & Hmin & Hmem & Hleast).
  set (out := map (fun a => rnd (a - q)) qs).
  assert (Hnn : forall a, In a out -> a = PInf \/ exists r, a = Fin r /\ (0 <= r)%Q).
  { intros a Ha. apply in_map_iff in Ha as (b & <- & Hb).
    apply rnd_nonneg. specialize (Hleast b Hb). lra. }
  assert (Hzero : In (Fin 0) out).
  { apply in_map_iff. exists q. split; [| done]. apply rnd_zero. ring. }
  exists out.
  split; [| split; [| split; [| split; [| split]]]];
    [| by unfold out; rewrite length_map | done | done | |].
  - unfold MinCentering_apply.
    rewrite (centering_apply_nonempty _ self (map Fin qs) (Fin q));
      [| done | by destruct qs | by rewrite Hmin].
    by rewrite map_map.
  - intros d Hd Hspread. unfold out. clear Hnn Hzero out Hin Hmin Hne.
    assert (Hall : forall a, In a qs -> (0 <= a - q <= d)%Q).
    { intros a Ha. specialize (Hleast a Ha). specialize (Hspread a q Ha Hmem). lra. }
    clear Hleast Hspread Hmem.
    induction qs as [| a qs IH]; [by exists [] |].
    destruct IH as (rs & Hrs & Hbound); [intros b Hb; apply Hall; by right |].
    destruct (Hall a (or_introl eq_refl)) as [Hlo Hhi].
    destruct (Qlt_le_dec 0 (a - q)%Q) as [Hpos | Hnpos].
    + destruct (rnd_le_double (a - q)%Q d Hpos Hhi Hd) as (r & Hr & Hr0).
      exists (r :: rs). cbn [map]. rewrite Hr, Hrs. split; [done |].
      intros x [<- | Hx]; [done | by apply Hbound].
    + exists (0%Q :: rs). cbn [map]. rewrite (rnd_zero (a - q)%Q) by lra.
      rewrite Hrs. split; [done |].
      intros x [<- | Hx]; [| by apply Hbound]. split; [lra |].
      apply Qle_trans with (a - q)%Q; [lra | done].
  - assert (Hne' : out <> []) by (unfold out; by destruct qs).
    assert (Hnan : Forall (fun x => is_nan x = false) out).
    { apply Forall_forall. intros x Hx. apply list_elem_of_In in Hx.
      destruct (Hnn x Hx) as [-> | (r & -> & _)]; reflexivity. }
    destruct (py_min_least_any out Hne' Hnan) as (m & Hmin2 & Hmem2 & Hleast2).
    assert (Hm : m = Fin 0).
    { pose proof (Hleast2 _ Hzero) as Hz.
      pose proof Hmem2 as Hmem3.
      apply in_map_iff in Hmem3 as (b & Hb & _).
      destruct (Hnn m Hmem2) as [-> | (r & -> & Hr)]; [discriminate Hz |].
      simpl in Hz. apply negb_false_iff, Qle_bool_iff in Hz.
      destruct (rnd_idempotent _ _ Hb) as [Hred _].
      rewrite <- Hred. f_equal. apply Qred_is_zero. lra. }
    subst m. unfold MinCentering_apply.
    rewrite (centering_apply_nonempty _ _ out (Fin 0)).
    + unfold ret. do 3 f_equal. unfold out. rewrite map_map.
      apply map_ext. intros a. apply fsub_zero_rnd.
    + simpl. by rewrite lookup_insert_eq.
    + done.
    + by rewrite Hmin2.
Qed.

(** ** The chain on an empty input *)

Section EmptyInput.

Variable np_mean : list pyfloat -> pyfloat.

Lemma FiltersModel_apply_app (l1 l2 : list DeletableFilterBox) :
  forall x : value,
    FiltersModel_apply np_mean (l1 ++ l2) x =
      (r1 <- FiltersModel_apply np_mean l1 x ;;
       r2 <- FiltersModel_apply np_mean l2 r1.2 ;;
       ret (r1.1 ++ r2.1, r2.2)).
Proof.
  induction l1 as [| b l1 IH]; intros x.
  - cbn [app FiltersModel_apply]. rewrite bind_ret_l. cbn [fst snd app].
    rewrite <- (bind_ret_r (FiltersModel_apply np_mean l2 x)) at 1.
    apply bind_ext. by intros [bs y].
  - cbn [app FiltersModel_apply]. destruct (filter b) as [f |]; [| reflexivity].
    rewrite bind_assoc. apply bind_ext. intros out.
    rewrite IH, !bind_assoc. apply bind_ext. intros r1.
    rewrite bind_ret_l, bind_assoc. cbn [fst snd]. apply bind_ext. intros r2.
    by rewrite bind_ret_l.
Qed.

Lemma centering_box_falsy (b : DeletableFilterBox) (f : obj) (x : value) :
  filter b = Some f ->
  is_centering (klass f) = true ->
  attrs f !! "apply"%string = None ->
  truthy x = false ->
  call_apply np_mean (set_field f "input" x) = ret VNone.
Proof.
  intros Hf Hk Happly Hx. unfold call_apply. simpl attrs. simpl klass.
  rewrite lookup_insert_ne, Happly by done.
  destruct (klass f); try discriminate;
    apply centering_apply_falsy with x; try done; simpl; by rewrite lookup_insert_eq.
Qed.

Lemma centering_chain_falsy (boxes : list DeletableFilterBox) :
  forall x : value,
    Forall (box_of_kind is_centering) boxes ->
    truthy x = false ->
    exists boxes',
      FiltersModel_apply np_mean boxes x
      = ret (boxes', match boxes with [] => x | _ => VNone end).
Proof.
  induction boxes as [| b boxes IH]; intros x Hall Hx.
  - by exists [].
  - apply Forall_cons in Hall as [(f & Hf & Hk & Happly) Hall].
    cbn [FiltersModel_apply]. rewrite Hf.
    rewrite (centering_box_falsy b f x) by done. rewrite bind_ret_l.
    destruct (IH VNone Hall eq_refl) as [boxes' Hrun]. rewrite Hrun, bind_ret_l.
    eexists. cbn [fst snd]. by destruct boxes.
Qed.

(** X14. On an empty list (or [None]) a chain made of centering filters
    returns [None]; if a moving filter follows at least one centering
    filter, the chain raises TypeError, whatever comes after. *)
Theorem X14_chain_on_empty_input (pre : list DeletableFilterBox) (x : value) :
  Forall (box_of_kind is_centering) pre ->
  pre <> [] ->
  truthy x = false ->
  (exists boxes', FiltersModel_apply np_mean pre x = ([], Ok (boxes', VNone)))
  /\ (forall (b : DeletableFilterBox) (rest : list DeletableFilterBox),
        box_of_kind (fun c => negb (is_centering c)) b ->
        FiltersModel_apply np_mean (pre ++ b :: rest) x = ([], Raise TypeError)).
Proof.
  intros Hall Hne Hx.
  destruct (centering_chain_falsy pre x Hall Hx) as [boxes' Hrun].
  assert (Hnone : FiltersModel_apply np_mean pre x = ret (boxes', VNone))
    by (rewrite Hrun; by destruct pre).
  split; [by exists boxes' |].
  intros b rest (f & Hf & Hk & Happly).
  rewrite FiltersModel_apply_app, Hnone, bind_ret_l. cbn [fst snd FiltersModel_apply].
  rewrite Hf. unfold call_apply. simpl attrs. simpl klass.
  rewrite lookup_insert_ne, Happly by done.
  assert (Hraise : MovingMedian_apply np_mean (set_field f "input" VNone) = raise TypeError).
  { unfold MovingMedian_apply, getattr. simpl attrs.
    by rewrite lookup_insert_eq, bind_ret_l. }
  destruct (klass f); try discriminate; by rewrite Hraise.
Qed.

End EmptyInput.

(** ** The derived field at construction *)

Lemma rnd_between (x d : Q) :
  (0 <= x <= d)%Q -> rnd d = Fin d -> exists r, rnd x = Fin r /\ (0 <= r <= d)%Q.
Proof.
  intros [Hlo Hhi] Hd. destruct (Qlt_le_dec 0 x) as [Hpos | Hnpos].
  - by apply rnd_le_double.
  - exists 0%Q. split; [apply rnd_zero; lra |]. split; [lra |].
    by apply Qle_trans with x.
Qed.

Section ConstructionBounds.

Variable object_hasattr : string -> bool.

(** X15. With a float ratio, the constructor raises OverflowError when the
    width is an integer too large for a double.  For a width [w] with
    [0 <= w <= 2**53] and a finite ratio between 0 and 1 it returns, and
    [cutExtrema] is the floor of the double [w * ratio / 2], the product and
    the quotient being rounded in turn; it is not negative and twice it
    does not exceed the width. *)
Theorem X15_cutExtrema_at_construction (c : cls) (input : value) (w : Z) (q : Q) :
  (float_of_Z w = None ->
     MovingMedian_init object_hasattr (new c) input (VInt w) (VFloat (Fin q))
     = ([], Raise OverflowError))
  /\ (0 <= w <= 2 ^ 53 -> (0 <= q <= 1)%Q ->
      exists (o : obj) (cut : Z) (p h : Q),
        MovingMedian_init object_hasattr (new c) input (VInt w) (VFloat (Fin q))
        = ([], Ok o)
        /\ attrs o !! "cutExtrema"%string = Some (VInt cut)
        /\ rnd (inject_Z w * q) = Fin p
        /\ rnd (p / 2) = Fin h
        /\ cut = Qfloor h
        /\ 0 <= cut /\ 2 * cut <= w).
Proof.
  split.
  - intros Hnone.
    unfold MovingMedian_init, Filter_init. rewrite !bind_ret_l.
    unfold getattr, set_field. simpl attrs.
    rewrite lookup_insert_ne, lookup_insert_eq by done. rewrite bind_ret_l.
    rewrite lookup_insert_eq, bind_ret_l.
    cbn [py_mul as_float]. rewrite Hnone. by rewrite !bind_raise.
  - intros [Hw0 Hw53] [Hq0 Hq1].
    assert (Hwd : rnd (inject_Z w) = Fin (inject_Z w)) by (apply rnd_small_int; lia).
    assert (Hw' : (0 <= inject_Z w)%Q).
    { change 0%Q with (inject_Z 0). by rewrite <- Zle_Qle. }
    destruct (rnd_between (inject_Z w * q) (inject_Z w)) as (p & Hp & Hp0 & Hpw);
      [| done |].
    { split; [by apply Qmult_le_0_compat |].
      rewrite <- (Qmult_1_r (inject_Z w)) at 2.
      rewrite (Qmult_comm (inject_Z w) q), (Qmult_comm (inject_Z w) 1).
      by apply Qmult_le_compat_r. }
    destruct (rnd_small_dyadic w (-1)) as (d & Hd & Hdv); [lia | lia |].
    change (2 ^ (-1))%Q with (/ 2)%Q in Hd, Hdv.
    destruct (rnd_idempotent _ _ Hd) as [_ Hdd].
    destruct (rnd_between (p / 2) d) as (h & Hh & Hh0 & Hhd); [| done |].
    { rewrite Hdv. unfold Qdiv. split.
      - apply Qmult_le_0_compat; [done | discriminate].
      - apply Qmult_le_compat_r; [done | discriminate]. }
    exists {| klass := c;
              attrs := <["_userParams"%string := VDict mm_params]>
                         (<["cutExtrema"%string := VInt (trunc h)]>
                            (<["ratio"%string := VFloat (Fin q)]>
                               (<["width"%string := VInt w]>
                                  (<["input"%string := input]>
                                     (<["_userParams"%string := VDict ∅]> ∅))))) |},
      (trunc h), p, h.
    split; [| split; [reflexivity |]].
    + apply (MovingMedian_init_spec object_hasattr c input _ _
               (VFloat (Fin p)) (VFloat (Fin h)) (VInt (trunc h))).
      * cbn [py_mul as_float]. unfold float_of_Z. rewrite Hwd, !bind_ret_l.
        cbn [fmul]. by rewrite Hp.
      * cbn [py_truediv_lit fdiv_int]. change (inject_Z 2) with 2%Q. by rewrite Hh.
      * reflexivity.
    + split; [done |]. split; [done |].
      rewrite trunc_floor by done. split; [done |]. split.
      * change 0 with (Qfloor 0). by apply Qfloor_resp_le.
      * pose proof (Qfloor_le h) as Hfl.
        rewrite Zle_Qle, inject_Z_mult. rewrite Hdv in Hhd.
        change (inject_Z 2) with 2%Q.
        set (fl := inject_Z (Qfloor h)) in *.
        assert (Hfl2 : (fl <= inject_Z w * / 2)%Q) by (by apply Qle_trans with h).
        apply (Qmult_le_compat_r _ _ 2) in Hfl2; [| discriminate].
        assert (Heq : (inject_Z w * / 2 * 2 == inject_Z w)%Q) by field.
        rewrite Heq in Hfl2. by rewrite Qmult_comm.
Qed.

End ConstructionBounds.

(** ** The parameter popup *)

Section PopupFacts.

Variable object_hasattr : string -> bool.
Variable int_of_string : string -> option Z.
Variable float_of_string : string -> option pyfloat.



(** X17. After [updateParams] the popup has one entry for each declared
    user parameter of the filter and no other: an entry that was there for
    a declared name is kept as it was, text included; a declared name
    without an entry gets an empty one of the declared type. *)
Theorem X17_updateParams_entries (b : DeletableFilterBox) (f : obj)
    (d : gmap string ptype) :
  filter b = Some f ->
  attrs f !! "_userParams"%string = Some (VDict d) ->
  exists b' : DeletableFilterBox,
    updateParams b = ([], Ok b')
    /\ filter b' = Some f
    /\ dom (entries b') = dom d
    /\ (forall p e, entries b !! p = Some e -> is_Some (d !! p) ->
          entries b' !! p = Some e)
    /\ (forall p t, d !! p = Some t -> entries b !! p = None ->
          entries b' !! p = Some {| text := ""; slot_type := t |}).
Proof.
  intros Hf Hd. unfold updateParams, Filter_userParams, getattr.
  rewrite Hf, Hd, bind_ret_l. eexists. split; [reflexivity |].
  cbn [filter entries]. split; [done |]. split; [| split].
  - apply set_eq. intros p. rewrite !elem_of_dom, lookup_union_is_Some.
    rewrite lookup_fmap, fmap_is_Some. split; [| by right].
    intros [[e He] | H]; [| done].
    by apply map_lookup_filter_Some in He as [_ He].
  - intros p e He Hp. apply lookup_union_Some_l.
    by apply map_lookup_filter_Some.
  - intros p t Hp He. rewrite lookup_union_r.
    + by rewrite lookup_fmap, Hp.
    + apply map_lookup_filter_None. left. done.
Qed.

Lemma bind_ret_eta {A} (m : M A) : bind m (fun a => ret a) = m.
Proof. apply bind_ret_r. Qed.

Lemma instantiate_returns (c : cls) :
  exists o, instantiate object_hasattr c = ret o /\ klass o = c
    /\ attrs o !! "input"%string = Some VNone.
Proof.
  destruct c; unfold instantiate.
  - eexists. split.
    { apply (MovingMedian_init_spec object_hasattr _ _ _ _ (VInt 21)
               (VFloat (Fin (21 # 2))) (VInt 10)); vm_compute; reflexivity. }
    split; reflexivity.
  - eexists. split.
    { unfold MovingAverage_init.
      apply (MovingMedian_init_spec object_hasattr _ _ _ _ (VInt 0)
               (VFloat (Fin 0)) (VInt 0)); vm_compute; reflexivity. }
    split; reflexivity.
  - eexists. split; [reflexivity |]. split; reflexivity.
  - eexists. split; [reflexivity |]. split; reflexivity.
  - eexists. split; [reflexivity |]. split; reflexivity.
Qed.

Lemma getAvailableFilters_eq :
  getAvailableFilters
  = [MovingAverage; MovingMedian; MedianCentering; MeanCentering; MinCentering].
Proof. reflexivity. Qed.

(** X18. Run on the class hierarchy of the filters, where [MovingAverage]
    derives from [MovingMedian] and the other four classes from [Filter],
    the generator [getAvailableFilters] yields [MovingAverage],
    [MovingMedian], [MedianCentering], [MeanCentering] and [MinCentering]
    in this order: every filter class once, a subclass before its parent,
    each under a name of its own.  Selecting the name of a class replaces
    the filter of the box by a new instance of that class built with the
    default arguments, then brings the popup in line with it; selecting any
    other text leaves the box as it is. *)
Theorem X18_setFilter_by_name (b : DeletableFilterBox) :
  flat_map yield_subclass Filter_subclasses
  = [MovingAverage; MovingMedian; MedianCentering; MeanCentering; MinCentering]
  /\ NoDup (map name getAvailableFilters)
  /\ (forall c : cls, c ∈ getAvailableFilters)
  /\ (forall c : cls,
        exists o, instantiate object_hasattr c = ([], Ok o) /\ klass o = c
          /\ setFilter object_hasattr b (name c)
             = updateParams {| filter := Some o; entries := entries b |})
  /\ (forall s : string, (forall c, s <> name c) ->
        setFilter object_hasattr b s = ([], Ok b)).
Proof.
  split; [reflexivity |]. split; [| split; [| split]].
  - rewrite getAvailableFilters_eq. cbn [map name].
    repeat (apply NoDup_cons; split;
            [intros Hin;
             repeat (apply elem_of_cons in Hin as [Hin | Hin]; [discriminate Hin |]);
             by apply elem_of_nil in Hin |]).
    apply NoDup_nil_2.
  - intros c. rewrite getAvailableFilters_eq.
    destruct c; repeat (first [by left | right]).
  - intros c. destruct (instantiate_returns c) as (o & Ho & Hk & _).
    exists o. split; [done |]. split; [done |].
    unfold setFilter. rewrite getAvailableFilters_eq. cbn [fold_left].
    destruct c; cbn [name] in *;
      repeat (rewrite bind_ret_l;
              first [ rewrite bool_decide_true by reflexivity
                    | rewrite bool_decide_false by discriminate ]);
      rewrite ?Ho, ?bind_ret_l;
      repeat match goal with
             | |- context [bool_decide (?x = ?y)] =>
                 change (bool_decide (x = y)) with false
             end;
      cbv iota; rewrite ?bind_ret_eta; reflexivity.
  - intros s Hs. unfold setFilter. rewrite getAvailableFilters_eq. cbn [fold_left].
    repeat (rewrite bind_ret_l; rewrite bool_decide_false by apply Hs).
    reflexivity.
Qed.

End PopupFacts.

(** ** The address check *)

Section AddressFacts.

Variable isdigit : string -> bool.
Variable int_of_string : string -> option Z.

Lemma check_fields_valid (fields : list string) :
  forall acc : bool,
    Forall (byte_field isdigit int_of_string) fields ->
    check_fields isdigit int_of_string fields acc
    = ret (match fields with [] => acc | _ => true end).
Proof.
  induction fields as [| f rest IH]; intros acc Hall; [reflexivity |].
  apply Forall_cons in Hall as [(Hd & z & Hz & Hlt) Hall].
  cbn [check_fields]. rewrite Hd, Hz, bind_ret_l.
  destruct (Z.ltb_spec z 256); [| lia].
  rewrite (IH true Hall). by destruct rest.
Qed.

Lemma check_fields_invalid (fields : list string) :
  forall acc : bool,
    (forall f, In f fields -> isdigit f = true -> is_Some (int_of_string f)) ->
    ~ Forall (byte_field isdigit int_of_string) fields ->
    check_fields isdigit int_of_string fields acc = ret false.
Proof.
  induction fields as [| f rest IH]; intros acc Hint Hbad.
  - destruct Hbad. constructor.
  - cbn [check_fields]. destruct (isdigit f) eqn:Hd; [| reflexivity].
    destruct (Hint f (or_introl eq_refl) Hd) as [z Hz]. rewrite Hz, bind_ret_l.
    destruct (Z.ltb_spec z 256); [| reflexivity].
    apply IH.
    + intros g Hg. apply Hint. by right.
    + intros Hrest. apply Hbad. constructor; [| done].
      split; [done |]. by exists z.
Qed.

Lemma check_fields_raises (pre rest : list string) (f : string) :
  forall acc : bool,
    Forall (byte_field isdigit int_of_string) pre ->
    isdigit f = true -> int_of_string f = None ->
    check_fields isdigit int_of_string (pre ++ f :: rest) acc = raise ValueError.
Proof.
  induction pre as [| p pre IH]; intros acc Hall Hd Hnone.
  - cbn [app check_fields]. by rewrite Hd, Hnone.
  - apply Forall_cons in Hall as [(Hpd & z & Hz & Hlt) Hall].
    cbn [app check_fields]. rewrite Hpd, Hz, bind_ret_l.
    destruct (Z.ltb_spec z 256); [| lia]. by apply IH.
Qed.

Lemma checkIp_valid (address : string) :
  length (split_dot address) = 4%nat ->
  Forall (byte_field isdigit int_of_string) (split_dot address) ->
  checkIp isdigit int_of_string address = ([], Ok (Some address, true)).
Proof.
  intros Hlen Hall. unfold checkIp.
  rewrite Hlen. cbn [Nat.eqb]. rewrite check_fields_valid by done.
  rewrite bind_ret_l. by destruct (split_dot address).
Qed.

Lemma checkIp_invalid (address : string) :
  (forall f, In f (split_dot address) -> isdigit f = true ->
             is_Some (int_of_string f)) ->
  ~ (length (split_dot address) = 4%nat
     /\ Forall (byte_field isdigit int_of_string) (split_dot address)) ->
  checkIp isdigit int_of_string address
  = ([Alert "The provided IP address is uncorrectly formatted"], Ok (None, false)).
Proof.
  intros Hint Hbad. unfold checkIp.
  destruct (Nat.eqb_spec (length (split_dot address)) 4) as [Hlen | Hlen].
  - rewrite check_fields_invalid; [reflexivity | done |].
    intros Hall. apply Hbad. by split.
  - reflexivity.
Qed.

(** X19. When [int] accepts every field that [isdigit] accepts, [checkIp]
    sets the host to the address and returns true exactly when the address
    splits at its dots into four fields, each made of digits and of value
    below 256; in every other case it clears the host, alerts once and
    returns false.  A field that [isdigit] accepts and [int] rejects, met
    after valid fields in an address of four fields, makes it raise
    ValueError. *)
Theorem X19_checkIp_dotted_quad (address : string) :
  let fields := split_dot address in
  let valid := length fields = 4%nat /\ Forall (byte_field isdigit int_of_string) fields in
  ((forall f, In f fields -> isdigit f = true -> is_Some (int_of_string f)) ->
     (valid -> checkIp isdigit int_of_string address = ([], Ok (Some address, true)))
     /\ (~ valid ->
           checkIp isdigit int_of_string address
           = ([Alert "The provided IP address is uncorrectly formatted"],
              Ok (None, false))))
  /\ (forall (pre rest : list string) (f : string),
        fields = pre ++ f :: rest -> length fields = 4%nat ->
        Forall (byte_field isdigit int_of_string) pre ->
        isdigit f = true -> int_of_string f = None ->
        checkIp isdigit int_of_string address = ([], Raise ValueError)).
Proof.
  intros fields valid. split.
  - intros Hint. split.
    + intros [Hlen Hall]. by apply checkIp_valid.
    + intros Hbad. by apply checkIp_invalid.
  - intros pre rest f Hsplit Hlen Hall Hd Hnone. unfold checkIp. fold fields.
    rewrite Hlen. cbn [Nat.eqb]. rewrite Hsplit.
    by rewrite check_fields_raises.
Qed.

End AddressFacts.

(** ** The colour code *)

Lemma list_ascii_of_string_app (s t : string) :
  list_ascii_of_string (s +:+ t) = list_ascii_of_string s ++ list_ascii_of_string t.
Proof. induction s as [| c s IH]; [reflexivity |]. simpl. by rewrite IH. Qed.

Lemma string_length_list (s : string) :
  String.length s = length (list_ascii_of_string s).
Proof. induction s as [| c s IH]; [reflexivity |]. simpl. by rewrite IH. Qed.

Lemma all_bytes_round_trip : forallb byte_round_trip (seq 0 256) = true.
Proof. vm_compute. reflexivity. Qed.

Lemma format_02x_byte (n : Z) :
  0 <= n <= 255 ->
  exists a b, list_ascii_of_string (format_02x n) = [a; b] /\ hex_pair a b = Some n.
Proof.
  intros Hn.
  pose proof (proj1 (forallb_forall _ _) all_bytes_round_trip (Z.to_nat n)) as Hcheck.
  assert (Hin : In (Z.to_nat n) (seq 0 256)) by (apply in_seq; lia).
  specialize (Hcheck Hin). unfold byte_round_trip in Hcheck.
  rewrite Z2Nat.id in Hcheck by lia.
  destruct (list_ascii_of_string (format_02x n)) as [| a [| b [| c l]]]; try discriminate.
  exists a, b. split; [reflexivity |].
  destruct (hex_pair a b) as [v |]; [| discriminate].
  apply Z.eqb_eq in Hcheck. by subst v.
Qed.

Lemma hex_digits_S (fuel : nat) (n : Z) (acc : list ascii) :
  hex_digits (S fuel) n acc
  = if n <? 16 then hex_char n :: acc
    else hex_digits fuel (n / 16) (hex_char (n mod 16) :: acc).
Proof. reflexivity. Qed.

Lemma hex_digits_grows (fuel : nat) :
  forall (n : Z) (acc : list ascii),
    (length acc < length (hex_digits (S fuel) n acc))%nat.
Proof.
  induction fuel as [| fuel IH]; intros n acc; cbn [hex_digits].
  - destruct (n <? 16); simpl; lia.
  - destruct (n <? 16); [simpl; lia |].
    specialize (IH (n / 16) (hex_char (n mod 16) :: acc)).
    cbn [hex_digits] in IH. simpl in IH. lia.
Qed.

Lemma format_02x_length (n : Z) :
  (2 <= length (list_ascii_of_string (format_02x n)))%nat
  /\ (255 < n -> (3 <= length (list_ascii_of_string (format_02x n)))%nat).
Proof.
  unfold format_02x. destruct (Z.ltb_spec n 0) as [Hneg | Hpos].
  - split; [| lia]. rewrite list_ascii_of_string_of_list_ascii.
    pose proof (hex_digits_grows (Z.to_nat (Z.log2 (- n))) (- n) []) as H.
    unfold hex. cbn [length] in *. lia.
  - rewrite list_ascii_of_string_of_list_ascii. split.
    + destruct (Nat.ltb_spec (length (hex n)) 2) as [Hshort | Hlong];
        cbn [length]; [| lia].
      pose proof (hex_digits_grows (Z.to_nat (Z.log2 n)) n []) as Hgrow.
      unfold hex in *. cbn [length] in Hgrow. lia.
    + intros Hbig.
      assert (Hlen : (3 <= length (hex n))%nat).
      { unfold hex.
        assert (Hlog : 8 <= Z.log2 n) by (apply Z.log2_le_pow2; lia).
        destruct (Z.to_nat (Z.log2 n)) as [| [| k]] eqn:Hk; [lia | lia |].
        rewrite (hex_digits_S (S (S k))).
        destruct (Z.ltb_spec n 16); [lia |].
        rewrite (hex_digits_S (S k)).
        destruct (Z.ltb_spec (n / 16) 16) as [Hdiv |].
        - assert (16 <= n / 16) by (apply Z.div_le_lower_bound; lia). lia.
        - pose proof (hex_digits_grows k (n / 16 / 16)
                        [hex_char (n / 16 mod 16); hex_char (n mod 16)]) as Hgrow.
          cbn [length] in Hgrow. lia. }
      destruct (Nat.ltb_spec (length (hex n)) 2); [lia | done].
Qed.

(** X20. For components between 0 and 255 [convertToHmtl] returns a code of
    seven characters from which the three components are read back; a
    first component above 255 is not clamped and makes the code longer
    than seven characters. *)
Theorem X20_colour_code_round_trip (r g b : Z) :
  (0 <= r <= 255 -> 0 <= g <= 255 -> 0 <= b <= 255 ->
     String.length (convertToHmtl r g b) = 7%nat
     /\ parse_color (convertToHmtl r g b) = Some (r, g, b))
  /\ (255 < r -> (7 < String.length (convertToHmtl r g b))%nat).
Proof.
  split.
  - intros Hr Hg Hb.
    destruct (format_02x_byte r Hr) as (r1 & r2 & Hrs & Hrv).
    destruct (format_02x_byte g Hg) as (g1 & g2 & Hgs & Hgv).
    destruct (format_02x_byte b Hb) as (b1 & b2 & Hbs & Hbv).
    assert (Hlist : list_ascii_of_string (convertToHmtl r g b)
                    = ["#"%char; r1; r2; g1; g2; b1; b2]).
    { unfold convertToHmtl. rewrite !list_ascii_of_string_app, Hrs, Hgs, Hbs.
      reflexivity. }
    split.
    + by rewrite string_length_list, Hlist.
    + unfold parse_color. rewrite Hlist. cbn [Ascii.eqb].
      rewrite Hrv, Hgv, Hbv. reflexivity.
  - intros Hbig. rewrite string_length_list. unfold convertToHmtl.
    rewrite !list_ascii_of_string_app, !length_app.
    destruct (format_02x_length r) as [_ Hr]. specialize (Hr Hbig).
    destruct (format_02x_length g) as [Hg _].
    destruct (format_02x_length b) as [Hb _].
    simpl. lia.
Qed.

(** ** The MQTT interface *)

Lemma register_elem (ts : list string) (a t : string) :
  t ∈ Mqtt.register ts a <-> t ∈ ts \/ t = a.
Proof.
  unfold Mqtt.register. case_bool_decide as Ha.
  - split; [by left |]. intros [Ht | ->]; done.
  - rewrite elem_of_app, list_elem_of_singleton. reflexivity.
Qed.

Lemma register_NoDup (ts : list string) (a : string) :
  NoDup ts -> NoDup (Mqtt.register ts a).
Proof.
  intros Hnd. unfold Mqtt.register. case_bool_decide as Ha; [done |].
  apply NoDup_app. split; [done |]. split; [| apply NoDup_singleton].
  intros x Hx Hxa. apply list_elem_of_singleton in Hxa. by subst x.
Qed.

Lemma register_prefix (ts : list string) (a : string) :
  ts `prefix_of` Mqtt.register ts a.
Proof.
  unfold Mqtt.register. case_bool_decide; [done |]. by apply prefix_app_r.
Qed.

Lemma registry_spec (seen : list string) :
  forall ts : list string,
    NoDup ts ->
    NoDup (fold_left Mqtt.register seen ts)
    /\ ts `prefix_of` fold_left Mqtt.register seen ts
    /\ (forall t, t ∈ fold_left Mqtt.register seen ts <-> t ∈ ts \/ t ∈ seen).
Proof.
  induction seen as [| a seen IH]; intros ts Hnd; cbn [fold_left].
  - split; [done |]. split; [done |]. intros t. rewrite elem_of_nil. tauto.
  - destruct (IH (Mqtt.register ts a) (register_NoDup ts a Hnd)) as (Hn & Hp & Hm).
    split; [done |]. split.
    + etrans; [apply register_prefix | exact Hp].
    + intros t. rewrite Hm, register_elem, elem_of_cons. tauto.
Qed.

Section MqttFacts.

Variable client : Type.
Variable client_subscribe : client -> string -> M client.
Variable utf8_decode : list Byte.byte -> option string.
Variable float_of_string : string -> option pyfloat.

Lemma onScan_topics (self : Mqtt.MqttInterface client) (msg : Mqtt.message) :
  Mqtt.topics client (Mqtt.onScan client self msg)
  = Mqtt.register (Mqtt.topics client self) (Mqtt.topic msg).
Proof.
  unfold Mqtt.onScan, Mqtt.register. by case_bool_decide.
Qed.

Lemma onMessage_topics (self : Mqtt.MqttInterface client) (msg : Mqtt.message) :
  Mqtt.topics client (Mqtt.onMessage client self msg)
  = Mqtt.register (Mqtt.topics client self) (Mqtt.topic msg).
Proof.
  unfold Mqtt.onMessage. rewrite <- onScan_topics.
  by case_bool_decide.
Qed.

Lemma scan_topics (msgs : list Mqtt.message) :
  forall self : Mqtt.MqttInterface client,
    Mqtt.topics client (Mqtt.scan client self msgs)
    = fold_left Mqtt.register (map Mqtt.topic msgs) (Mqtt.topics client self).
Proof.
  induction msgs as [| m msgs IH]; intros self; [reflexivity |].
  unfold Mqtt.scan in *. cbn [fold_left map]. by rewrite IH, onScan_topics.
Qed.

Lemma deliver_topics (msgs : list Mqtt.message) :
  forall self : Mqtt.MqttInterface client,
    Mqtt.topics client (Mqtt.deliver client self msgs)
    = fold_left Mqtt.register (map Mqtt.topic msgs) (Mqtt.topics client self).
Proof.
  induction msgs as [| m msgs IH]; intros self; [reflexivity |].
  unfold Mqtt.deliver in *. cbn [fold_left map]. by rewrite IH, onMessage_topics.
Qed.

(** X21. Messages arriving in any number and order keep the list of topics
    free of duplicates: the topics known before stay at its head, it
    holds exactly those and the topics of the messages, and the scanning
    callback builds the same list as the collecting one. *)
Theorem X21_topics_registry (self : Mqtt.MqttInterface client)
    (msgs : list Mqtt.message) :
  NoDup (Mqtt.topics client self) ->
  let after := Mqtt.deliver client self msgs in
  NoDup (Mqtt.topics client after)
  /\ Mqtt.topics client self `prefix_of` Mqtt.topics client after
  /\ (forall t, t ∈ Mqtt.topics client after
                <-> t ∈ Mqtt.topics client self \/ t ∈ map Mqtt.topic msgs)
  /\ Mqtt.topics client (Mqtt.scan client self msgs) = Mqtt.topics client after.
Proof.
  intros Hnd after. subst after. rewrite scan_topics, deliver_topics.
  destruct (registry_spec (map Mqtt.topic msgs) _ Hnd) as (Hn & Hp & Hm).
  done.
Qed.

Lemma onMessage_subscribed (self : Mqtt.MqttInterface client) (msg : Mqtt.message) :
  Mqtt.subscribedTopics client (Mqtt.onMessage client self msg)
  = Mqtt.subscribedTopics client self.
Proof.
  unfold Mqtt.onMessage, Mqtt.onScan.
  repeat case_bool_decide; reflexivity.
Qed.

Lemma onMessage_data (self : Mqtt.MqttInterface client) (msg : Mqtt.message)
    (t : string) :
  Mqtt.data client (Mqtt.onMessage client self msg) !! t
  = if bool_decide (t ∈ Mqtt.subscribedTopics client self)
    then Mqtt.stored_after (Mqtt.data client self !! t) (Mqtt.payloads_for t [msg])
    else Mqtt.data client self !! t.
Proof.
  unfold Mqtt.onMessage, Mqtt.payloads_for. cbn [List.filter].
  assert (Hs : Mqtt.subscribedTopics client (Mqtt.onScan client self msg)
               = Mqtt.subscribedTopics client self)
    by (unfold Mqtt.onScan; by case_bool_decide).
  assert (Hd : Mqtt.data client (Mqtt.onScan client self msg)
               = Mqtt.data client self)
    by (unfold Mqtt.onScan; by case_bool_decide).
  rewrite Hs. case_bool_decide as Hm.
  - cbn [Mqtt.data]. rewrite Hd.
    destruct (decide (Mqtt.topic msg = t)) as [Heq | Hne].
    + subst t. rewrite lookup_insert_eq, bool_decide_true by done.
      rewrite bool_decide_true by done. reflexivity.
    + rewrite lookup_insert_ne by done.
      rewrite (bool_decide_false (Mqtt.topic msg = t)) by done.
      cbn [map Mqtt.stored_after]. by case_bool_decide.
  - rewrite Hd. case_bool_decide as Ht; [| done].
    rewrite bool_decide_false by (intros Heq; by subst t). reflexivity.
Qed.

Lemma payloads_for_snoc (t : string) (msgs : list Mqtt.message) (m : Mqtt.message) :
  Mqtt.payloads_for t (msgs ++ [m])
  = Mqtt.payloads_for t msgs ++ Mqtt.payloads_for t [m].
Proof.
  unfold Mqtt.payloads_for. by rewrite List.filter_app, map_app.
Qed.

Lemma stored_after_app (old : option (list Mqtt.payload)) (ps qs : list Mqtt.payload) :
  Mqtt.stored_after (Mqtt.stored_after old ps) qs = Mqtt.stored_after old (ps ++ qs).
Proof.
  destruct qs as [| q qs].
  - by rewrite app_nil_r.
  - destruct ps as [| p ps]; [reflexivity |].
    cbn [Mqtt.stored_after app]. by rewrite <- app_assoc.
Qed.

Lemma deliver_snoc (self : Mqtt.MqttInterface client) (msgs : list Mqtt.message)
    (m : Mqtt.message) :
  Mqtt.deliver client self (msgs ++ [m])
  = Mqtt.onMessage client (Mqtt.deliver client self msgs) m.
Proof. unfold Mqtt.deliver. by rewrite fold_left_app. Qed.

Lemma deliver_subscribed (self : Mqtt.MqttInterface client) (msgs : list Mqtt.message) :
  Mqtt.subscribedTopics client (Mqtt.deliver client self msgs)
  = Mqtt.subscribedTopics client self.
Proof.
  induction msgs as [| m msgs IH] using rev_ind; [reflexivity |].
  by rewrite deliver_snoc, onMessage_subscribed.
Qed.

Lemma deliver_data (self : Mqtt.MqttInterface client) (msgs : list Mqtt.message)
    (t : string) :
  Mqtt.data client (Mqtt.deliver client self msgs) !! t
  = if bool_decide (t ∈ Mqtt.subscribedTopics client self)
    then Mqtt.stored_after (Mqtt.data client self !! t) (Mqtt.payloads_for t msgs)
    else Mqtt.data client self !! t.
Proof.
  induction msgs as [| m msgs IH] using rev_ind.
  - by case_bool_decide.
  - rewrite deliver_snoc, onMessage_data, deliver_subscribed, IH, payloads_for_snoc.
    case_bool_decide; [| done]. by rewrite stored_after_app.
Qed.

(** X22. After any messages, the entry of a subscribed topic holds what it
    held before followed by the payloads received for that topic, in their
    order of arrival; a topic with no message, and every topic that is not
    subscribed, keeps its entry (or its absence), and the list of
    subscribed topics is unchanged. *)
Theorem X22_payloads_collected_in_order (self : Mqtt.MqttInterface client)
    (msgs : list Mqtt.message) (t : string) :
  let after := Mqtt.deliver client self msgs in
  Mqtt.subscribedTopics client after = Mqtt.subscribedTopics client self
  /\ (t ∈ Mqtt.subscribedTopics client self ->
      Mqtt.data client after !! t
      = Mqtt.stored_after (Mqtt.data client self !! t) (Mqtt.payloads_for t msgs))
  /\ (t ∉ Mqtt.subscribedTopics client self ->
      Mqtt.data client after !! t = Mqtt.data client self !! t).
Proof.
  intros after. subst after. split; [apply deliver_subscribed |].
  split; intros Ht; rewrite deliver_data.
  - by rewrite bool_decide_true.
  - by rewrite bool_decide_false.
Qed.

(** X23. Whenever [subscribe] returns, the topic is appended to the
    subscribed topics (once more if it was there) and its entry is emptied,
    so that what is read after further messages is exactly what arrived
    since; while scanning the broker client is not called and the call
    returns even without a client; outside scanning, without a client, it
    raises AttributeError. *)
Theorem X23_subscribe_restarts_collection (self : Mqtt.MqttInterface client)
    (parent : option bool) (t : string) :
  (forall evs after msgs,
      Mqtt.subscribe client client_subscribe self parent t = (evs, Ok after) ->
      Mqtt.subscribedTopics client after = Mqtt.subscribedTopics client self ++ [t]
      /\ Mqtt.topics client after = Mqtt.topics client self
      /\ Mqtt.data client (Mqtt.deliver client after msgs) !! t
         = Some (Mqtt.payloads_for t msgs))
  /\ (parent = Some true ->
      exists after,
        Mqtt.subscribe client client_subscribe self parent t = ([], Ok after)
        /\ Mqtt.mqttc client after = Mqtt.mqttc client self)
  /\ (parent = Some false -> Mqtt.mqttc client self = None ->
      Mqtt.subscribe client client_subscribe self parent t = raise AttributeError).
Proof.
  split; [| split].
  - intros evs after msgs Hsub.
    assert (Hafter : Mqtt.subscribedTopics client after
                     = Mqtt.subscribedTopics client self ++ [t]
                     /\ Mqtt.topics client after = Mqtt.topics client self
                     /\ Mqtt.data client after
                        = <[t := []]> (Mqtt.data client self)).
    { unfold Mqtt.subscribe in Hsub.
      destruct parent as [b |]; [| discriminate].
      rewrite bind_ret_l in Hsub.
      destruct b; cbn [negb] in Hsub.
      - rewrite bind_ret_l in Hsub. by inversion Hsub.
      - destruct (Mqtt.mqttc client self) as [c |]; [| discriminate].
        destruct (client_subscribe c t) as [evs' [c' | e]] eqn:Hc;
          unfold bind in Hsub; cbn in Hsub; [| discriminate].
        by inversion Hsub. }
    destruct Hafter as (Hs & Ht & Hd).
    split; [done |]. split; [done |].
    rewrite deliver_data, Hs, Hd, lookup_insert_eq.
    rewrite bool_decide_true by (apply elem_of_app; right; by apply list_elem_of_singleton).
    unfold Mqtt.stored_after. by destruct (Mqtt.payloads_for t msgs).
  - intros ->. eexists. split; [reflexivity | reflexivity].
  - intros -> Hnone. unfold Mqtt.subscribe. rewrite bind_ret_l. cbn [negb].
    by rewrite Hnone.
Qed.

Lemma collect_decodable (vals : list Mqtt.payload) :
  forall values : list pyfloat,
    Forall (Mqtt.decodable utf8_decode) vals ->
    Mqtt.collect utf8_decode float_of_string vals true values
    = ret (values ++ omap (Mqtt.reading utf8_decode float_of_string) vals)
    /\ Mqtt.collect utf8_decode float_of_string vals false values = ret values.
Proof.
  induction vals as [| v vals IH]; intros values Hall.
  - cbn. by rewrite app_nil_r.
  - apply Forall_cons in Hall as [Hv Hall].
    cbn [Mqtt.collect omap list_omap].
    destruct v as [b | s |]; cbn [Mqtt.decodable Mqtt.reading] in *.
    + destruct Hv as [s Hs]. rewrite Hs, !bind_ret_l.
      destruct (float_of_string s) as [x |].
      * destruct (IH (values ++ [x]) Hall) as [-> _].
        destruct (IH values Hall) as [_ ->].
        split; [| done]. by rewrite <- app_assoc.
      * by destruct (IH values Hall) as [-> ->].
    + rewrite !bind_ret_l. destruct (float_of_string s) as [x |].
      * destruct (IH (values ++ [x]) Hall) as [-> _].
        destruct (IH values Hall) as [_ ->].
        split; [| done]. by rewrite <- app_assoc.
      * by destruct (IH values Hall) as [-> ->].
    + rewrite !bind_ret_l. by destruct (IH values Hall) as [-> ->].
Qed.

Lemma collect_undecodable (pre rest : list Mqtt.payload) (b : list Byte.byte)
    (numeral : bool) :
  forall values : list pyfloat,
    Forall (Mqtt.decodable utf8_decode) pre ->
    utf8_decode b = None ->
    Mqtt.collect utf8_decode float_of_string (pre ++ Mqtt.PBytes b :: rest)
      numeral values
    = raise ValueError.
Proof.
  induction pre as [| v pre IH]; intros values Hall Hb.
  - cbn [app Mqtt.collect]. by rewrite Hb.
  - apply Forall_cons in Hall as [Hv Hall].
    cbn [app Mqtt.collect].
    destruct v as [b' | s |]; cbn [Mqtt.decodable] in Hv.
    + destruct Hv as [s Hs]. rewrite Hs, bind_ret_l.
      destruct numeral; [destruct (float_of_string s) |]; by apply IH.
    + rewrite bind_ret_l.
      destruct numeral; [destruct (float_of_string s) |]; by apply IH.
    + rewrite bind_ret_l. by apply IH.
Qed.

(** X24. [get_topic_values] of the MQTT interface raises KeyError for a
    topic without an entry.  When every stored bytes value decodes, it
    returns, with [numeral] true, the numbers of the values that [float]
    accepts, in their stored order, skipping the others without an error,
    and with [numeral] false the empty list; a bytes value that does not
    decode makes it raise for either setting. *)
Theorem X24_mqtt_values (self : Mqtt.MqttInterface client) (t : string) :
  (Mqtt.data client self !! t = None ->
   forall numeral,
     Mqtt.get_topic_values client utf8_decode float_of_string self t numeral
     = raise KeyError)
  /\ (forall vals,
        Mqtt.data client self !! t = Some vals ->
        Forall (Mqtt.decodable utf8_decode) vals ->
        Mqtt.get_topic_values client utf8_decode float_of_string self t true
        = ret (omap (Mqtt.reading utf8_decode float_of_string) vals)
        /\ Mqtt.get_topic_values client utf8_decode float_of_string self t false
           = ret [])
  /\ (forall pre b rest numeral,
        Mqtt.data client self !! t = Some (pre ++ Mqtt.PBytes b :: rest) ->
        Forall (Mqtt.decodable utf8_decode) pre ->
        utf8_decode b = None ->
        Mqtt.get_topic_values client utf8_decode float_of_string self t numeral
        = raise ValueError).
Proof.
  unfold Mqtt.get_topic_values. split; [| split].
  - intros Hnone numeral. by rewrite Hnone.
  - intros vals Hvals Hall. rewrite Hvals.
    by destruct (collect_decodable vals [] Hall) as [-> ->].
  - intros pre b rest numeral Hvals Hall Hb. rewrite Hvals.
    by apply collect_undecodable.
Qed.

(** X25. A topic that was never subscribed and has no entry stays
    unreadable whatever arrives: the messages make it a known topic, and
    reading its values still raises KeyError. *)
Theorem X25_unsubscribed_topic_unreadable (self : Mqtt.MqttInterface client)
    (msgs : list Mqtt.message) (t : string) (numeral : bool) :
  t ∉ Mqtt.subscribedTopics client self ->
  Mqtt.data client self !! t = None ->
  let after := Mqtt.deliver client self msgs in
  (t ∈ map Mqtt.topic msgs -> t ∈ Mqtt.topics client after)
  /\ Mqtt.get_topic_values client utf8_decode float_of_string after t numeral
     = raise KeyError.
Proof.
  intros Hsub Hnone after. subst after. split.
  - intros Hin. rewrite deliver_topics.
    revert Hin. generalize (Mqtt.topics client self). generalize (map Mqtt.topic msgs).
    intros seen. induction seen as [| a seen IH]; intros ts Hin.
    + by apply elem_of_nil in Hin.
    + cbn [fold_left]. apply elem_of_cons in Hin as [-> | Hin]; [| by apply IH].
      assert (Ha : a ∈ Mqtt.register ts a) by (apply register_elem; by right).
      revert Ha. generalize (Mqtt.register ts a). clear.
      induction seen as [| b seen IH]; intros ts Ha; [done |].
      cbn [fold_left]. apply IH. apply register_elem. by left.
  - unfold Mqtt.get_topic_values.
    by rewrite deliver_data, bool_decide_false, Hnone.
Qed.

End MqttFacts.

(** ** The tests before connecting *)

Section ConnectFacts.

Variable isdigit : string -> bool.
Variable int_of_string : string -> option Z.
Variable client : Type.

Lemma checkPort_authorized (port : string) (z : Z) :
  isdigit port = true -> int_of_string port = Some z ->
  z ∈ AUTHORIZED_MQTT_PORTS ->
  checkPort isdigit int_of_string port = ret (Some z, true).
Proof.
  intros Hd Hz Hin. unfold checkPort. rewrite Hd, Hz, bind_ret_l.
  by rewrite bool_decide_true.
Qed.

Lemma checkPort_refused (port : string) :
  (isdigit port = true -> is_Some (int_of_string port)) ->
  ~ (isdigit port = true
     /\ exists z, int_of_string port = Some z /\ z ∈ AUTHORIZED_MQTT_PORTS) ->
  checkPort isdigit int_of_string port
  = ([Alert "The provided port is not valid. Please choose among [1883, 8883, 9001]"],
     Ok (None, false)).
Proof.
  intros Hint Hbad. unfold checkPort.
  destruct (isdigit port) eqn:Hd; [| reflexivity].
  destruct (Hint eq_refl) as [z Hz]. rewrite Hz, bind_ret_l.
  case_bool_decide as Hin; [| reflexivity].
  destruct Hbad. split; [done |]. by exists z.
Qed.

(** X26. The tests of [connect], when [int] accepts what [isdigit]
    accepts.  A port text that is not made of digits, or whose integer
    value is not 1883, 8883 or 9001, clears the port, alerts once and stops
    there: the address is not examined and the host keeps its value; the
    test is on the value, so [01883] is accepted.  With an authorised port, a
    valid address gives true with the port and the host set, and the guard
    of [createClient] then holds; an address that is not valid gives false
    with the host cleared and the alert of the address alone. *)
Theorem X26_connect_checks (interface : Mqtt.MqttInterface client)
    (port address : string) :
  let port_ok := isdigit port = true
                 /\ exists z, int_of_string port = Some z
                              /\ z ∈ AUTHORIZED_MQTT_PORTS in
  let address_ok := length (split_dot address) = 4%nat
                    /\ Forall (byte_field isdigit int_of_string) (split_dot address) in
  (isdigit port = true -> is_Some (int_of_string port)) ->
  (forall f, In f (split_dot address) -> isdigit f = true ->
             is_Some (int_of_string f)) ->
  (~ port_ok ->
   connect_checks isdigit int_of_string client interface port address
   = ([Alert "The provided port is not valid. Please choose among [1883, 8883, 9001]"],
      Ok (Mqtt.set_port client interface None, false)))
  /\ (forall z, isdigit port = true -> int_of_string port = Some z ->
                z ∈ AUTHORIZED_MQTT_PORTS ->
        (address_ok ->
         connect_checks isdigit int_of_string client interface port address
         = ([], Ok (Mqtt.set_host client (Mqtt.set_port client interface (Some z))
                      (Some address), true))
         /\ Mqtt.has_endpoint client
              (Mqtt.set_host client (Mqtt.set_port client interface (Some z))
                 (Some address)) = true)
        /\ (~ address_ok ->
            connect_checks isdigit int_of_string client interface port address
            = ([Alert "The provided IP address is uncorrectly formatted"],
               Ok (Mqtt.set_host client (Mqtt.set_port client interface (Some z)) None,
                   false)))).
Proof.
  intros port_ok address_ok Hport Haddr. split.
  - intros Hbad. unfold connect_checks.
    by rewrite checkPort_refused.
  - intros z Hd Hz Hin. split.
    + intros [Hlen Hall]. split.
      * unfold connect_checks.
        rewrite (checkPort_authorized port z) by done. rewrite bind_ret_l.
        cbn [fst snd]. by rewrite checkIp_valid.
      * unfold Mqtt.has_endpoint. cbn [Mqtt.set_host Mqtt.set_port Mqtt.port Mqtt.host].
        apply andb_true_intro. split.
        -- apply negb_true_iff, Z.eqb_neq. intros ->.
           unfold AUTHORIZED_MQTT_PORTS in Hin.
           repeat (apply elem_of_cons in Hin as [Hin | Hin]; [discriminate |]).
           by apply elem_of_nil in Hin.
        -- apply negb_true_iff, String.eqb_neq. intros ->.
           cbv in Hlen. discriminate.
    + intros Hbad. unfold connect_checks.
      rewrite (checkPort_authorized port z) by done. rewrite bind_ret_l.
      cbn [fst snd]. by rewrite checkIp_invalid.
Qed.

End ConnectFacts.

(** ** The further properties on concrete inputs *)

Lemma X1_feed_lines_stores_witness :
  feed_lines Py.json_loads {| logs := []; filename := None |}
    [Py.dq "{'a':1}"; "[1, 2]"%string; "oops"%string; Py.dq "{'a':2}"]
  = ([], Ok {| logs := [JObj [("a"%string, JInt 1)]; JObj [("a"%string, JInt 2)]];
               filename := None |})
  /\ parse_line Py.json_loads store_example "[1, 2]" = ([], Ok store_example).
Proof.
  destruct (X1_feed_lines_stores Py.json_loads {| logs := []; filename := None |}
              [Py.dq "{'a':1}"; "[1, 2]"%string; "oops"%string; Py.dq "{'a':2}"])
    as [Hfeed _].
  destruct (X1_feed_lines_stores Py.json_loads store_example []) as [_ Hskip].
  split.
  - rewrite Hfeed. vm_compute. reflexivity.
  - apply Hskip. reflexivity.
Defined.

Lemma X2_file_and_lines_agree_witness :
  exists (w : list event) (loaded fed : JsonParser),
    JsonParser_init Py.json_loads (Py.open_lines files_example) (Some "f.json"%string)
    = (w, Ok loaded)
    /\ feed_lines Py.json_loads {| logs := []; filename := None |}
         [Py.dq "{'a':1}"; "not json"%string; Py.dq "{'a':2}"]
       = ([], Ok fed)
    /\ logs loaded = logs fed.
Proof.
  apply (X2_file_and_lines_agree Py.json_loads (Py.open_lines files_example) "f.json").
  - discriminate.
  - reflexivity.
  - reflexivity.
  - intros line [<- | [<- | [<- | []]]] Hdec.
    + reflexivity.
    + vm_compute in Hdec. destruct Hdec as [v Hv]. discriminate Hv.
    + reflexivity.
Defined.

Lemma X3_every_line_stored_or_reported_witness :
  exists (diags : list event) (self : JsonParser),
    JsonParser_init Py.json_loads (Py.open_lines files_example) (Some "f.json"%string)
    = (Open "f.json" :: diags, Ok self)
    /\ (length (logs self) + length diags = 3)%nat
    /\ Forall (fun ev => exists idx, ev = Print (line_message idx)) diags.
Proof.
  apply (X3_every_line_stored_or_reported Py.json_loads (Py.open_lines files_example)
           "f.json" [Py.dq "{'a':1}"; "not json"%string; Py.dq "{'a':2}"]).
  - discriminate.
  - reflexivity.
  - reflexivity.
Defined.

Lemma store_example_objects : Forall is_object (logs store_example).
Proof. repeat constructor; eexists; reflexivity. Qed.




Lemma X7_topics_are_the_keys_witness :
  exists ts : list string,
    extract_topics str_chars_ascii store_example = ([], Ok (map JStr ts))
    /\ NoDup ts
    /\ (forall t, t ∈ ts <-> exists log, log ∈ logs store_example /\ t ∈ record_keys log)
    /\ (forall (t : string) (numeral : bool), t ∉ ts ->
          get_topic_values Py.float_of_string store_example t numeral = ([], Ok [])).
Proof.
  apply (X7_topics_are_the_keys Py.float_of_string str_chars_ascii store_example).
  exact store_example_objects.
Defined.

Lemma X8_topics_grow_at_the_end_witness :
  exists ts new : list string,
    extract_topics str_chars_ascii store_example = ([], Ok (map JStr ts))
    /\ extract_topics str_chars_ascii
         {| logs := logs store_example ++ [JObj [("b"%string, JInt 0); ("c"%string, JNull)]];
            filename := filename store_example |}
       = ([], Ok (map JStr (ts ++ new)))
    /\ NoDup (ts ++ new)
    /\ (forall k, k ∈ new
                  <-> k ∈ [("b"%string, JInt 0); ("c"%string, JNull)].*1 /\ k ∉ ts).
Proof.
  apply (X8_topics_grow_at_the_end str_chars_ascii store_example
           [("b"%string, JInt 0); ("c"%string, JNull)]).
  exact store_example_objects.
Defined.

Lemma X9_length_for_any_ratio_witness :
  exists out : list pyfloat,
    MovingMedian_apply Py.np_mean
      (moving MovingMedian (VList (map of_int [1; 5; 2; 8; 3; 9; 4])) 5
         (VFloat (Fin (1 # 2))) 1)
    = ([], Ok (VList out))
    /\ Z.of_nat (length out) = 2
    /\ out = [rnd (10 # 3); rnd (16 # 3)].
Proof.
  destruct (X9_length_for_any_ratio Py.np_mean
              (moving MovingMedian (VList (map of_int [1; 5; 2; 8; 3; 9; 4])) 5
                 (VFloat (Fin (1 # 2))) 1)
              (map of_int [1; 5; 2; 8; 3; 9; 4]) 5 1 (VFloat (Fin (1 # 2))))
    as (out & Hrun & Hlen & Hout).
  - reflexivity.
  - reflexivity.
  - reflexivity.
  - reflexivity.
  - simpl. lia.
  - exists out. split; [exact Hrun |]. split; [exact Hlen |].
    rewrite Hout by reflexivity. vm_compute. reflexivity.
Defined.

Lemma X10_overtrimmed_windows_give_nan_witness :
  MovingMedian_apply Py.np_mean
    (moving MovingMedian (VList (map of_int [1; 5; 2; 8])) 2 (VFloat (Fin (1 # 2))) 1)
  = ([], Ok (VList [NaN; NaN])).
Proof.
  apply (X10_overtrimmed_windows_give_nan Py.np_mean
           (moving MovingMedian (VList (map of_int [1; 5; 2; 8])) 2 (VFloat (Fin (1 # 2))) 1)
           (map of_int [1; 5; 2; 8]) 2 1 (VFloat (Fin (1 # 2)))).
  - reflexivity.
  - reflexivity.
  - reflexivity.
  - reflexivity.
  - reflexivity.
  - reflexivity.
  - simpl. lia.
  - lia.
  - lia.
Defined.

Lemma X11_trim_to_one_is_the_median_witness :
  let self := moving MovingMedian (VList (map of_int [1; 5; 2; 8; 3])) 3
                (VFloat (Fin (2 # 3))) 1 in
  MovingMedian_apply Py.np_mean self
  = MovingMedian_apply Py.np_mean (set_field self "ratio" (VInt 1))
  /\ MovingMedian_apply Py.np_mean self = ([], Ok (VList [Fin 2; Fin 5])).
Proof.
  intros self.
  destruct (X11_trim_to_one_is_the_median Py.np_mean self (map of_int [1; 5; 2; 8; 3]) 1
              (VFloat (Fin (2 # 3)))) as [Hsame Hrun].
  - reflexivity.
  - reflexivity.
  - reflexivity.
  - reflexivity.
  - lia.
  - simpl. lia.
  - reflexivity.
  - split; [exact Hsame |]. rewrite Hrun. vm_compute. reflexivity.
Defined.

Lemma X12_min_centering_floor_zero_witness :
  let self := centering MinCentering (VList [rnd (3 # 10); rnd (1 # 10); rnd (2 # 10)]) in
  exists out : list pyfloat,
    MinCentering_apply self = ([], Ok (VList out))
    /\ length out = 3%nat
    /\ out = [rnd (7205759403792793 # 36028797018963968); Fin 0; rnd (1 # 10)]
    /\ In (Fin 0) out
    /\ MinCentering_apply (set_field self "input" (VList out)) = ([], Ok (VList out)).
Proof.
  intros self.
  destruct (X12_min_centering_floor_zero self
              [(5404319552844595 # 18014398509481984)%Q;
               (3602879701896397 # 36028797018963968)%Q;
               (3602879701896397 # 18014398509481984)%Q])
    as (out & Hrun & Hlen & _ & Hzero & _ & Hfix).
  - vm_compute. reflexivity.
  - discriminate.
  - exists out. split; [exact Hrun |]. split; [exact Hlen |].
    split; [| split; [exact Hzero | exact Hfix]].
    assert (Hval : MinCentering_apply self
                   = ([], Ok (VList [rnd (7205759403792793 # 36028797018963968); Fin 0;
                                     rnd (1 # 10)])))
      by (vm_compute; reflexivity).
    rewrite Hval in Hrun. injection Hrun as <-. reflexivity.
Defined.

Lemma X14_chain_on_empty_input_witness :
  (exists boxes',
      FiltersModel_apply Py.np_mean [boxed (centering MeanCentering VNone)] (VList [])
      = ([], Ok (boxes', VNone)))
  /\ FiltersModel_apply Py.np_mean chain_example (VList []) = ([], Raise TypeError).
Proof.
  destruct (X14_chain_on_empty_input Py.np_mean [boxed (centering MeanCentering VNone)] (VList []))
    as [Hnone Hraise].
  - repeat constructor. eexists. split; [reflexivity |]. split; reflexivity.
  - discriminate.
  - reflexivity.
  - split; [exact Hnone |].
    apply (Hraise (boxed (moving MovingAverage VNone 3 (VInt 0) 0)) []).
    eexists. split; [reflexivity |]. split; reflexivity.
Defined.

Lemma X15_cutExtrema_at_construction_witness :
  MovingMedian_init Py.object_hasattr (new MovingMedian) VNone (VInt (10 ^ 400))
    (VFloat (Fin (1 # 2)))
  = ([], Raise OverflowError)
  /\ exists (o : obj) (q : Q),
       rnd (6 # 10) = Fin q
       /\ MovingMedian_init Py.object_hasattr (new MovingMedian) VNone (VInt 10)
            (VFloat (Fin q))
          = ([], Ok o)
       /\ attrs o !! "cutExtrema"%string = Some (VInt 3).
Proof.
  split.
  - destruct (X15_cutExtrema_at_construction Py.object_hasattr MovingMedian VNone
                (10 ^ 400) (1 # 2)) as [Hraise _].
    apply Hraise. vm_compute. reflexivity.
  - destruct (X15_cutExtrema_at_construction Py.object_hasattr MovingMedian VNone
                10 (5404319552844595 # 9007199254740992)) as [_ Hret].
    destruct Hret as (o & cut & p & h & Hrun & Hcut & Hp & Hh & Hval & _).
    + lia.
    + split; [discriminate | vm_compute; discriminate].
    + exists o, (5404319552844595 # 9007199254740992)%Q.
      split; [vm_compute; reflexivity |]. split; [exact Hrun |].
      rewrite Hcut, Hval. do 2 f_equal.
      assert (Hp' : rnd (inject_Z 10 * (5404319552844595 # 9007199254740992)) = Fin 6)
        by (vm_compute; reflexivity).
      rewrite Hp' in Hp. injection Hp as <-.
      assert (Hh' : rnd (6 / 2) = Fin 3) by (vm_compute; reflexivity).
      rewrite Hh' in Hh. injection Hh as <-. reflexivity.
Defined.

Lemma X17_updateParams_entries_witness :
  exists b' : DeletableFilterBox,
    updateParams (boxed (moving MovingMedian VNone 21 (VInt 1) 10)) = ([], Ok b')
    /\ dom (entries b') = dom mm_params
    /\ entries b' !! "width"%string = Some {| text := ""; slot_type := TInt |}.
Proof.
  destruct (X17_updateParams_entries (boxed (moving MovingMedian VNone 21 (VInt 1) 10))
              (moving MovingMedian VNone 21 (VInt 1) 10) mm_params eq_refl eq_refl)
    as (b' & Hrun & _ & Hdom & _ & Hfresh).
  exists b'. split; [exact Hrun |]. split; [exact Hdom |].
  apply Hfresh; reflexivity.
Defined.

Ltac byte_field_holds :=
  split; [reflexivity | eexists; split; [vm_compute; reflexivity | lia]].

Lemma X19_checkIp_dotted_quad_witness :
  checkIp ascii_isdigit Py.int_of_string "192.168.0.1"
  = ([], Ok (Some "192.168.0.1"%string, true))
  /\ checkIp ascii_isdigit Py.int_of_string "192.168.0.256"
     = ([Alert "The provided IP address is uncorrectly formatted"], Ok (None, false)).
Proof.
  split.
  - destruct (X19_checkIp_dotted_quad ascii_isdigit Py.int_of_string "192.168.0.1")
      as [Hchecked _].
    destruct Hchecked as [Hvalid _].
    + intros f Hf _.
      destruct Hf as [<- | [<- | [<- | [<- | []]]]]; eexists; vm_compute; reflexivity.
    + apply Hvalid. split; [reflexivity |].
      vm_compute split_dot. repeat (constructor; [byte_field_holds |]). constructor.
  - destruct (X19_checkIp_dotted_quad ascii_isdigit Py.int_of_string "192.168.0.256")
      as [Hchecked _].
    destruct Hchecked as [_ Hinvalid].
    + intros f Hf _.
      destruct Hf as [<- | [<- | [<- | [<- | []]]]]; eexists; vm_compute; reflexivity.
    + apply Hinvalid. intros [_ Hall]. vm_compute in Hall.
      apply Forall_cons in Hall as [_ Hall].
      apply Forall_cons in Hall as [_ Hall].
      apply Forall_cons in Hall as [_ Hall].
      apply Forall_cons in Hall as [(_ & z & Hz & Hlt) _].
      vm_compute in Hz. injection Hz as <-. vm_compute in Hlt. discriminate Hlt.
Defined.

Lemma X20_colour_code_round_trip_witness :
  String.length (convertToHmtl 86 219 216) = 7%nat
  /\ parse_color (convertToHmtl 86 219 216) = Some (86, 219, 216)
  /\ (7 < String.length (convertToHmtl 256 0 0))%nat.
Proof.
  destruct (X20_colour_code_round_trip 86 219 216) as [Hbytes _].
  destruct (X20_colour_code_round_trip 256 0 0) as [_ Hlong].
  destruct Hbytes as [Hlen Hback]; [lia | lia | lia |].
  split; [exact Hlen |]. split; [exact Hback |]. apply Hlong. lia.
Defined.

Lemma X21_topics_registry_witness :
  let after := Mqtt.deliver unit (Mqtt.MqttInterface_init unit) messages_example in
  NoDup (Mqtt.topics unit after)
  /\ Mqtt.topics unit after = ["t/a"; "t/b"]%string
  /\ Mqtt.topics unit (Mqtt.scan unit (Mqtt.MqttInterface_init unit) messages_example)
     = Mqtt.topics unit after.
Proof.
  intros after.
  destruct (X21_topics_registry unit (Mqtt.MqttInterface_init unit) messages_example)
    as (Hnd & _ & _ & Hscan).
  - constructor.
  - split; [exact Hnd |]. split; [reflexivity | exact Hscan].
Defined.

Lemma X22_payloads_collected_in_order_witness :
  Mqtt.data unit (Mqtt.deliver unit undecodable_example messages_example) !! "t/a"%string
  = Some [Mqtt.PStr "2"; Mqtt.PBytes [Byte.xff];
          Mqtt.PBytes (list_byte_of_string "1.5");
          Mqtt.PBytes (list_byte_of_string "on")]
  /\ Mqtt.data unit (Mqtt.deliver unit undecodable_example messages_example) !! "t/b"%string
     = None.
Proof.
  split.
  - destruct (X22_payloads_collected_in_order unit undecodable_example messages_example
                "t/a") as (_ & Hsub & _).
    rewrite Hsub; [reflexivity |]. apply list_elem_of_singleton. reflexivity.
  - destruct (X22_payloads_collected_in_order unit undecodable_example messages_example
                "t/b") as (_ & _ & Hnot).
    rewrite Hnot; [reflexivity |]. intros Hin.
    apply list_elem_of_singleton in Hin. discriminate Hin.
Defined.

Lemma X23_subscribe_restarts_collection_witness :
  exists after,
    Mqtt.subscribe unit (fun c _ => ret c) undecodable_example (Some true) "t/a"
    = ([], Ok after)
    /\ Mqtt.subscribedTopics unit after = ["t/a"; "t/a"]%string
    /\ Mqtt.data unit (Mqtt.deliver unit after messages_example) !! "t/a"%string
       = Some [Mqtt.PBytes (list_byte_of_string "1.5");
               Mqtt.PBytes (list_byte_of_string "on")]
    /\ Mqtt.subscribe unit (fun c _ => ret c) undecodable_example (Some false) "t/a"
       = raise AttributeError.
Proof.
  destruct (X23_subscribe_restarts_collection unit (fun c _ => ret c) undecodable_example
              (Some true) "t/a") as (Hret & Hscan & _).
  destruct (X23_subscribe_restarts_collection unit (fun c _ => ret c) undecodable_example
              (Some false) "t/a") as (_ & _ & Hnone).
  destruct (Hscan eq_refl) as (after & Hrun & _).
  destruct (Hret [] after messages_example Hrun) as (Hsubs & _ & Hdata).
  exists after. split; [exact Hrun |]. split; [exact Hsubs |].
  split; [exact Hdata |]. apply Hnone; reflexivity.
Defined.

Lemma X24_mqtt_values_witness :
  Mqtt.get_topic_values unit ascii_decode Py.float_of_string undecodable_example
    "t/b" true
  = raise KeyError
  /\ Mqtt.get_topic_values unit ascii_decode Py.float_of_string undecodable_example
       "t/a" true
     = raise ValueError.
Proof.
  destruct (X24_mqtt_values unit ascii_decode Py.float_of_string undecodable_example "t/b")
    as (Hkey & _ & _).
  destruct (X24_mqtt_values unit ascii_decode Py.float_of_string undecodable_example "t/a")
    as (_ & _ & Hbad).
  split.
  - apply Hkey. reflexivity.
  - apply (Hbad [Mqtt.PStr "2"] [Byte.xff] []).
    + reflexivity.
    + repeat constructor.
    + reflexivity.
Defined.

Lemma X25_unsubscribed_topic_unreadable_witness :
  let after := Mqtt.deliver unit (Mqtt.MqttInterface_init unit) messages_example in
  "t/a"%string ∈ Mqtt.topics unit after
  /\ Mqtt.get_topic_values unit ascii_decode Py.float_of_string after "t/a" true
     = raise KeyError.
Proof.
  intros after.
  destruct (X25_unsubscribed_topic_unreadable unit ascii_decode Py.float_of_string
              (Mqtt.MqttInterface_init unit) messages_example "t/a" true)
    as [Hknown Hkey].
  - apply not_elem_of_nil.
  - reflexivity.
  - split; [| exact Hkey]. apply Hknown. left.
Defined.

Lemma X26_connect_checks_witness :
  connect_checks ascii_isdigit Py.int_of_string unit undecodable_example "80" "not examined"
  = ([Alert "The provided port is not valid. Please choose among [1883, 8883, 9001]"],
     Ok (Mqtt.set_port unit undecodable_example None, false))
  /\ connect_checks ascii_isdigit Py.int_of_string unit (Mqtt.MqttInterface_init unit)
       "1883" "192.168.0.1"
     = ([], Ok (Mqtt.set_host unit
                  (Mqtt.set_port unit (Mqtt.MqttInterface_init unit) (Some 1883))
                  (Some "192.168.0.1"%string), true))
  /\ connect_checks ascii_isdigit Py.int_of_string unit (Mqtt.MqttInterface_init unit)
       "01883" "10.0.0.300"
     = ([Alert "The provided IP address is uncorrectly formatted"],
        Ok (Mqtt.set_host unit
              (Mqtt.set_port unit (Mqtt.MqttInterface_init unit) (Some 1883)) None,
            false)).
Proof.
  split; [| split].
  - destruct (X26_connect_checks ascii_isdigit Py.int_of_string unit undecodable_example
                "80" "not examined") as [Hport _].
    + intros _. eexists. vm_compute. reflexivity.
    + intros f Hf Hd. vm_compute in Hf. destruct Hf as [<- | []].
      vm_compute in Hd. discriminate Hd.
    + apply Hport. intros (_ & z & Hz & Hin). vm_compute in Hz. injection Hz as <-.
      unfold AUTHORIZED_MQTT_PORTS in Hin.
      repeat (apply elem_of_cons in Hin as [Hin | Hin]; [discriminate Hin |]).
      apply elem_of_nil in Hin. exact Hin.
  - destruct (X26_connect_checks ascii_isdigit Py.int_of_string unit
                (Mqtt.MqttInterface_init unit) "1883" "192.168.0.1") as [_ Hip].
    + intros _. eexists. vm_compute. reflexivity.
    + intros f Hf _.
      destruct Hf as [<- | [<- | [<- | [<- | []]]]]; eexists; vm_compute; reflexivity.
    + destruct (Hip 1883) as [Hvalid _].
      * reflexivity.
      * vm_compute. reflexivity.
      * left.
      * apply Hvalid. split; [reflexivity |].
        vm_compute split_dot. repeat (constructor; [byte_field_holds |]). constructor.
  - destruct (X26_connect_checks ascii_isdigit Py.int_of_string unit
                (Mqtt.MqttInterface_init unit) "01883" "10.0.0.300") as [_ Hip].
    + intros _. eexists. vm_compute. reflexivity.
    + intros f Hf _.
      destruct Hf as [<- | [<- | [<- | [<- | []]]]]; eexists; vm_compute; reflexivity.
    + destruct (Hip 1883) as [_ Hinvalid].
      * reflexivity.
      * vm_compute. reflexivity.
      * left.
      * apply Hinvalid. intros [_ Hall]. vm_compute in Hall.
        apply Forall_cons in Hall as [_ Hall].
        apply Forall_cons in Hall as [_ Hall].
        apply Forall_cons in Hall as [_ Hall].
        apply Forall_cons in Hall as [(_ & z & Hz & Hlt) _].
        vm_compute in Hz. injection Hz as <-. vm_compute in Hlt. discriminate Hlt.
Defined.


Lemma X18_setFilter_by_name_witness :
  setFilter Py.object_hasattr fresh_box "Median" = ([], Ok fresh_box)
  /\ exists o, instantiate Py.object_hasattr MinCentering = ([], Ok o)
       /\ setFilter Py.object_hasattr fresh_box "MinCentering"
          = updateParams {| filter := Some o; entries := ∅ |}.
Proof.
  destruct (X18_setFilter_by_name Py.object_hasattr fresh_box)
    as (_ & _ & _ & Hnamed & Hother).
  split.
  - apply Hother. intros c. destruct c; discriminate.
  - destruct (Hnamed MinCentering) as (o & Hnew & _ & Hset).
    exists o. split; [exact Hnew | exact Hset].
Defined.
